(** * lan-TestTool iperf3 web UI: parser, statistics, gauge and session controller

    A shallow embedding of the browser-side JavaScript of the iPerf3 web UI
    (runTest.js, stats_quality.js, gauge.js, and [refreshStats] of
    uiHandlers.js) and of [PrefixToMask] of ip_setup.ps1, together with the
    properties of its natural-language specification and further properties
    read off the code.

    Conventions of the embedding
    - A JavaScript string is the list of its UTF-16 code units ([jsstring]).
    - A JavaScript number is an exact rational ([Q]); [NaN] is [None] in an
      [option Q].  Arithmetic is therefore exact: rounding of IEEE doubles is
      outside the model.
    - Regular expressions are data ([regex]) run by a backtracking matcher
      with the priorities of the ECMAScript semantics (leftmost alternative
      first, greedy quantifiers, empty iterations rejected). *)

From Stdlib Require Import ZArith NArith QArith Qround Qabs List String Ascii Lia Bool.
From Stdlib Require Import DecimalString Qminmax Lqa Qpower.
From stdpp Require Import base option list gmap strings.

Local Open Scope N_scope.

#[local] Set Warnings "-clear-no-such-hyp".
#[local] Set Warnings "-unusable-identifier".

(** ** JavaScript strings *)

Module JsString.

Abbreviation jsstring := (list N).

(** Code units of an ASCII literal. *)
Definition lit (s : string) : jsstring :=
  map N_of_ascii (list_ascii_of_string s).

(** WhiteSpace and LineTerminator code units: the set stripped by
    [String.prototype.trim] and matched by the class escape [\s]. *)
Definition isWhiteSpace (c : N) : bool :=
  existsb (N.eqb c)
    [9; 10; 11; 12; 13; 32; 160; 5760; 8232; 8233; 8239; 8287; 12288; 65279]
  || ((8192 <=? c) && (c <=? 8202)).

Fixpoint trimStart (s : jsstring) : jsstring :=
  match s with
  | c :: s' => if isWhiteSpace c then trimStart s' else s
  | [] => []
  end.

Definition trimEnd (s : jsstring) : jsstring := rev (trimStart (rev s)).

Definition trim (s : jsstring) : jsstring := trimEnd (trimStart s).

Definition isDigit (c : N) : bool := (48 <=? c) && (c <=? 57).

(** Upper-case image of an ASCII letter; the identity elsewhere.  It is only
    ever compared with ASCII letters, for which no character outside ASCII
    has an ASCII upper-case image in the code under study. *)
Definition upper (c : N) : N :=
  if (97 <=? c) && (c <=? 122) then c - 32 else c.

Definition toUpperCase (s : jsstring) : jsstring := map upper s.

Definition startsWith (s p : jsstring) : bool :=
  bool_decide (take (length p) s = p).

End JsString.
Export JsString.

(** ** Regular expressions with backtracking *)

Module Regex.

Inductive cclass :=
| CDigit                 (* \d, [0-9] *)
| CSpace                 (* \s *)
| CSet (l : list N).     (* [abc] *)

Inductive regex :=
| REps
| RChar (a : N)
| RClass (k : cclass)
| RSeq (r1 r2 : regex)
| RAlt (r1 r2 : regex)
| ROpt (r : regex)               (* r?  greedy *)
| RStar (r : regex)              (* r*  greedy *)
| RGroup (n : nat) (r : regex)   (* n-th capturing group *)
| RBol                           (* ^ *)
| REol.                          (* $ *)

(** [r+] *)
Definition RPlus (r : regex) : regex := RSeq r (RStar r).

(** The characters of a literal in sequence. *)
Fixpoint RLit (s : jsstring) : regex :=
  match s with
  | [] => REps
  | [a] => RChar a
  | a :: s' => RSeq (RChar a) (RLit s')
  end.

Abbreviation caps := (gmap nat jsstring).

(** With the [i] flag both sides are canonicalised before comparison. *)
Definition sameChar (ic : bool) (a x : N) : bool :=
  if ic then upper a =? upper x else a =? x.

Definition inClass (ic : bool) (k : cclass) (x : N) : bool :=
  match k with
  | CDigit => isDigit x
  | CSpace => isWhiteSpace x
  | CSet l => existsb (fun a => sameChar ic a x) l
  end.

(** Capturing groups inside [r]; their captures are reset when a quantified
    [r] starts an iteration. *)
Fixpoint groups (r : regex) : list nat :=
  match r with
  | RSeq r1 r2 | RAlt r1 r2 => groups r1 ++ groups r2
  | ROpt r1 | RStar r1 => groups r1
  | RGroup n r1 => n :: groups r1
  | _ => []
  end.

Definition clear (r : regex) (c : caps) : caps :=
  foldr (fun n m => delete n m) c (groups r).

Definition result := (option (nat * caps)).
Definition cont := (nat -> jsstring -> caps -> result).

Definition orElse (a : result) (b : result) : result :=
  match a with Some x => Some x | None => b end.

(** [rmatch ic r pos s c k]: match [r] at index [pos], where [s] is the rest
    of the input from [pos] on, then continue with [k].  A failed
    continuation makes the matcher backtrack to the next choice.  A quantifier
    iteration that consumes nothing is rejected, as by the RepeatMatcher of
    the language definition; each accepted iteration consumes a code unit, so
    [length s] iterations exhaust the input. *)
Fixpoint rmatch (ic : bool) (r : regex) (pos : nat) (s : jsstring) (c : caps)
    (k : cont) {struct r} : result :=
  match r with
  | REps => k pos s c
  | RChar a =>
      match s with
      | x :: s' => if sameChar ic a x then k (S pos) s' c else None
      | [] => None
      end
  | RClass cl =>
      match s with
      | x :: s' => if inClass ic cl x then k (S pos) s' c else None
      | [] => None
      end
  | RSeq r1 r2 =>
      rmatch ic r1 pos s c (fun p' s' c' => rmatch ic r2 p' s' c' k)
  | RAlt r1 r2 =>
      orElse (rmatch ic r1 pos s c k) (rmatch ic r2 pos s c k)
  | ROpt r1 =>
      orElse
        (rmatch ic r1 pos s (clear r1 c)
           (fun p' s' c' => if (p' =? pos)%nat then None else k p' s' c'))
        (k pos s c)
  | RStar r1 =>
      (fix loop (fuel : nat) (pos : nat) (s : jsstring) (c : caps) : result :=
         match fuel with
         | O => k pos s c
         | S fuel' =>
             orElse
               (rmatch ic r1 pos s (clear r1 c)
                  (fun p' s' c' =>
                     if (p' =? pos)%nat then None else loop fuel' p' s' c'))
               (k pos s c)
         end) (length s) pos s c
  | RGroup n r1 =>
      rmatch ic r1 pos s c
        (fun p' s' c' => k p' s' (<[n := take (p' - pos) s]> c'))
  | RBol => if (pos =? 0)%nat then k pos s c else None
  | REol => match s with [] => k pos s c | _ :: _ => None end
  end.

(** The loop of [RStar] in [rmatch], by itself. *)
Definition starLoop (ic : bool) (r : regex) (k : cont)
    : nat -> nat -> jsstring -> caps -> result :=
  fix loop (fuel : nat) (pos : nat) (s : jsstring) (c : caps) : result :=
    match fuel with
    | O => k pos s c
    | S fuel' =>
        orElse
          (rmatch ic r pos s (clear r c)
             (fun p' s' c' =>
                if (p' =? pos)%nat then None else loop fuel' p' s' c'))
          (k pos s c)
    end.

Definition accept : cont := fun p _ c => Some (p, c).

(** First match at or after [pos]: start index, end index, captures. *)
Fixpoint search (ic : bool) (r : regex) (pos : nat) (s : jsstring)
    : option (nat * nat * caps) :=
  match rmatch ic r pos s ∅ accept with
  | Some (e, c) => Some (pos, e, c)
  | None =>
      match s with
      | [] => None
      | _ :: s' => search ic r (S pos) s'
      end
  end.

(** [re.test(s)] for a regular expression without the [g] flag. *)
Definition test (ic : bool) (r : regex) (s : jsstring) : bool :=
  match search ic r 0 s with Some _ => true | None => false end.

(** [s.matchAll(re)] for a global [re]: the captures of the successive
    matches, each search resuming at the end of the previous match (one code
    unit further after an empty match).  [skip] counts the code units of the
    previous match still to be stepped over. *)
Fixpoint scanAll (ic : bool) (r : regex) (pos : nat) (s : jsstring)
    (skip : nat) {struct s} : list caps :=
  match skip with
  | S skip' =>
      match s with
      | [] => []
      | _ :: s' => scanAll ic r (S pos) s' skip'
      end
  | O =>
      match rmatch ic r pos s ∅ accept with
      | Some (e, c) =>
          c :: match s with
               | [] => []
               | _ :: s' => scanAll ic r (S pos) s' (e - pos - 1)
               end
      | None =>
          match s with
          | [] => []
          | _ :: s' => scanAll ic r (S pos) s' 0
          end
      end
  end.

Definition matchAll (ic : bool) (r : regex) (s : jsstring) : list caps :=
  scanAll ic r 0 s 0.

(** *** What a match consists of

    [den ic r pos w rest]: [r] can match the word [w] at index [pos] when
    [rest] is the input after [w].  The matcher is checked against this
    relation ([rmatch_sound] below). *)
Inductive den (ic : bool) : regex -> nat -> jsstring -> jsstring -> Prop :=
| DEps pos rest : den ic REps pos [] rest
| DChar a x pos rest :
    sameChar ic a x = true -> den ic (RChar a) pos [x] rest
| DClass k x pos rest :
    inClass ic k x = true -> den ic (RClass k) pos [x] rest
| DSeq r1 r2 pos w1 w2 rest :
    den ic r1 pos w1 (w2 ++ rest) ->
    den ic r2 (pos + length w1) w2 rest ->
    den ic (RSeq r1 r2) pos (w1 ++ w2) rest
| DAltL r1 r2 pos w rest : den ic r1 pos w rest -> den ic (RAlt r1 r2) pos w rest
| DAltR r1 r2 pos w rest : den ic r2 pos w rest -> den ic (RAlt r1 r2) pos w rest
| DOptNone r pos rest : den ic (ROpt r) pos [] rest
| DOptSome r pos w rest : den ic r pos w rest -> den ic (ROpt r) pos w rest
| DStarNil r pos rest : den ic (RStar r) pos [] rest
| DStarCons r pos w1 w2 rest :
    den ic r pos w1 (w2 ++ rest) ->
    den ic (RStar r) (pos + length w1) w2 rest ->
    den ic (RStar r) pos (w1 ++ w2) rest
| DGroup n r pos w rest : den ic r pos w rest -> den ic (RGroup n r) pos w rest
| DBol rest : den ic RBol 0 [] rest
| DEol pos : den ic REol pos [] [].

(** The code units [r] can consume. *)
Fixpoint alpha (ic : bool) (r : regex) (x : N) : bool :=
  match r with
  | RChar a => sameChar ic a x
  | RClass k => inClass ic k x
  | RSeq r1 r2 | RAlt r1 r2 => alpha ic r1 x || alpha ic r2 x
  | ROpt r1 | RStar r1 | RGroup _ r1 => alpha ic r1 x
  | _ => false
  end.

End Regex.
Export Regex.

(** ** Unit/value parser (runTest.js) *)

Module Parser.

Definition digitsToZ (ds : jsstring) : Z :=
  fold_left (fun a d => (10 * a + (Z.of_N d - 48))%Z) ds 0%Z.

Fixpoint takeDigits (s : jsstring) : jsstring :=
  match s with
  | c :: s' => if isDigit c then c :: takeDigits s' else []
  | [] => []
  end.

Fixpoint dropDigits (s : jsstring) : jsstring :=
  match s with
  | c :: s' => if isDigit c then dropDigits s' else s
  | [] => []
  end.

(** Value of [digits] or [digits.digits]. *)
Definition parseUnsigned (s : jsstring) : option Q :=
  let ip := takeDigits s in
  let rest := dropDigits s in
  match ip, rest with
  | [], _ => None
  | _, [] => Some (inject_Z (digitsToZ ip))
  | _, c :: fr =>
      if (c =? 46) && forallb isDigit fr && negb (bool_decide (fr = []))
      then Some (inject_Z (digitsToZ ip)
                 + inject_Z (digitsToZ fr) / inject_Z (10 ^ Z.of_nat (length fr)))%Q
      else None
  end.

(** [Number(s)] on the decimal literals the callers pass to it (an optional
    minus sign, digits, an optional fraction); [None] is [NaN]. *)
Definition Number_ (s : jsstring) : option Q :=
  match s with
  | c :: s' => if c =? 45 then option_map Qopp (parseUnsigned s')
               else parseUnsigned s
  | [] => None
  end.

(** [/^-?\d+(\.\d+)?$/] *)
Definition numericRe : regex :=
  RSeq RBol
    (RSeq (ROpt (RChar 45))
       (RSeq (RPlus (RClass CDigit))
          (RSeq (ROpt (RGroup 1 (RSeq (RChar 46) (RPlus (RClass CDigit)))))
             REol))).

(** [(?:bits\/sec|bit\/s|bits\/s|bit\/sec)] *)
Definition unitRe : regex :=
  RAlt (RLit (lit "bits/sec"))
    (RAlt (RLit (lit "bit/s"))
       (RAlt (RLit (lit "bits/s")) (RLit (lit "bit/sec")))).

(** [[0-9]+(?:\.[0-9]+)?] *)
Definition numberRe : regex :=
  RSeq (RPlus (RClass CDigit)) (ROpt (RSeq (RChar 46) (RPlus (RClass CDigit)))).

(** [/([0-9]+(?:\.[0-9]+)?)\s*([KMG])?\s*(?:bits\/sec|bit\/s|bits\/s|bit\/sec)/gi] *)
Definition bandwidthRe : regex :=
  RSeq (RGroup 1 numberRe)
    (RSeq (RStar (RClass CSpace))
       (RSeq (ROpt (RGroup 2 (RClass (CSet (lit "KMG")))))
          (RSeq (RStar (RClass CSpace)) unitRe))).

(** [x || d] for a string [x] that may be [undefined]. *)
Definition orDefault (x : option jsstring) (d : jsstring) : jsstring :=
  match x with
  | Some ((_ :: _) as y) => y
  | _ => d
  end.

(** Convert iperf (K/M/G bits/sec) to Mbps, then to the selected units. *)
Definition toSelectedUnits (val : Q) (prefix : option jsstring)
    (units : jsstring) : Q :=
  let p := toUpperCase (orDefault prefix (lit "M")) in
  let mbps :=
    if bool_decide (p = lit "K") then (val / 1000)%Q
    else if bool_decide (p = lit "G") then (val * 1000)%Q
    else val in
  if bool_decide (units = lit "Kbps") then (mbps * 1000)%Q
  else if bool_decide (units = lit "Gbps") then (mbps / 1000)%Q
  else mbps.

(** The last element of [matches], as [matches[matches.length - 1]]. *)
Definition lastMatch (matches : list caps) : option caps := last matches.

Definition extractBandwidth (line units : jsstring) : option Q :=
  let s := trim line in
  if test false numericRe s then Number_ s
  else
    match lastMatch (matchAll true bandwidthRe s) with
    | None => None
    | Some m =>
        val ← Number_ (default [] (m !! 1%nat));
        let prefix := orDefault (m !! 2%nat) (lit "M") in
        Some (toSelectedUnits val (Some prefix) units)
    end.

End Parser.
Export Parser.

(** ** Number formatting *)

Module Format.

(** Decimal digits of an integer, as in the string conversion of an integral
    number. *)
Definition showZ (z : Z) : jsstring :=
  lit (NilZero.string_of_int (Z.to_int z)).

Definition twoDigits (n : Z) : jsstring :=
  [Z.to_N (48 + n / 10)%Z; Z.to_N (48 + n mod 10)%Z].

(** [x.toFixed(2)]: the integer [n] nearest to [100 * |x|] (the larger one on
    a tie), printed with two fraction digits, behind a minus sign if
    [x < 0]. *)
Definition toFixed2 (x : Q) : jsstring :=
  let n := Qfloor (Qabs x * 100 + (1 # 2))%Q in
  (if Qle_bool 0 x then [] else lit "-")
    ++ showZ (n / 100)%Z ++ lit "." ++ twoDigits (n mod 100)%Z.

Fixpoint fracDigits (fuel : nat) (num den : Z) : jsstring :=
  match fuel with
  | O => []
  | S fuel' =>
      if (num =? 0)%Z then []
      else Z.to_N (48 + (10 * num) / den)%Z
             :: fracDigits fuel' ((10 * num) mod den)%Z den
  end.

(** String conversion of a number with a terminating decimal expansion (up to
    twenty fraction digits), as interpolated by a template literal. *)
Definition showNum (x : Q) : jsstring :=
  let a := Qabs x in
  let ip := Qfloor a in
  let num := (Qnum a - ip * Z.pos (Qden a))%Z in
  (if Qle_bool 0 x then [] else lit "-")
    ++ showZ ip
    ++ (if (num =? 0)%Z then [] else lit "." ++ fracDigits 20 num (Z.pos (Qden a))).

End Format.
Export Format.

(** ** Statistics aggregator (stats_quality.js) *)

Module Stats.

(** The [link] object of [/api/stats]. *)
Record linkInfo := {
  link_ok : bool;          (* [false] only for [ok === false] *)
  link_link : jsstring;    (* [link.link], empty when absent *)
  link_speed : jsstring;   (* [link.speed], empty when absent *)
}.

(** The JSON of [/api/stats]: the counter snapshot maps counter names to
    integer deltas. *)
Record stats := {
  link : option linkInfo;
  delta : gmap string Z;
}.

Definition sumKeys (obj : gmap string Z) (keys : list string) : Z :=
  fold_left
    (fun s k => match obj !! k with Some v => (s + v)%Z | None => s end)
    keys 0%Z.

Definition hasOwnProperty (obj : gmap string Z) (k : string) : bool :=
  bool_decide (is_Some (obj !! k)).

(** The separator of the two parts of the link text, as it stands in the
    source file. *)
Definition linkSep : jsstring := [32; 226; 8364; 162; 32].

Definition join (sep : jsstring) (parts : list jsstring) : jsstring :=
  match parts with
  | [] => []
  | p :: ps => p ++ concat (map (fun q => sep ++ q) ps)
  end.

Definition dashes : jsstring := lit "--".

Definition renderLinkInfo (link : option linkInfo) : jsstring :=
  match link with
  | None => dashes
  | Some lk =>
      if negb (link_ok lk) then dashes
      else
        let l := trim (link_link lk) in
        let sp := trim (link_speed lk) in
        let parts := (if bool_decide (l = []) then [] else [l])
                       ++ (if bool_decide (sp = []) then [] else [sp]) in
        if bool_decide (parts = []) then dashes else join linkSep parts
  end.

Record quality := { label : jsstring; cls : jsstring }.

(** [/down|disconnected|no/i] *)
Definition linkDownRe : regex :=
  RAlt (RLit (lit "down")) (RAlt (RLit (lit "disconnected")) (RLit (lit "no"))).

Definition computeQuality (pktErrDelta dropDelta crcDelta : Z)
    (linkText : jsstring) : quality :=
  let crc := crcDelta in
  let pe := pktErrDelta in
  let dr := dropDelta in
  let linkDown := test true linkDownRe linkText in
  if linkDown then {| label := lit "BAD (link)"; cls := lit "bad" |}
  else if (0 <? crc)%Z
  then {| label := lit "BAD (CRC +" ++ showZ crc ++ lit ")"; cls := lit "bad" |}
  else
    let score := (pe + dr)%Z in
    if (score =? 0)%Z then {| label := lit "OK"; cls := lit "ok" |}
    else if (score <=? 5)%Z
    then {| label := lit "WARN (+" ++ showZ score ++ lit ")"; cls := lit "warn" |}
    else {| label := lit "BAD (+" ++ showZ score ++ lit ")"; cls := lit "bad" |}.

(** The counter keys summed as CRC/FCS errors. *)
Definition crcKeys : list string :=
  ["rx_crc_errors"; "rx_fcs_errors";
   "rx_crc_err"; "rx_fcs_err"; "crc_errors"; "fcs_errors"]%string.

(** What [updateStatsCards] writes into the page. *)
Record cards := {
  linkInfoText : jsstring;
  pktErrDeltaText : jsstring;
  dropDeltaText : jsstring;
  crcDeltaText : jsstring;
  pktErrDeltaClass : jsstring;
  dropDeltaClass : jsstring;
  qualityBadge : quality;
}.

(** [a || b] on numbers. *)
Definition orZ (a b : Z) : Z := if (a =? 0)%Z then b else a.

Definition updateStatsCards (st : stats) : cards :=
  let linkText := renderLinkInfo (link st) in
  let delta := delta st in
  let winPktErr := sumKeys delta ["ReceivedErrors"; "OutboundErrors"]%string in
  let winDrop := sumKeys delta ["ReceivedDiscarded"; "OutboundDiscarded"]%string in
  let nixPktErr := sumKeys delta ["rx_errors"; "tx_errors"]%string in
  let nixDrop :=
    sumKeys delta ["rx_dropped"; "tx_dropped"; "rx_missed_errors"]%string in
  let crc := sumKeys delta crcKeys in
  let pktErrDelta := orZ winPktErr nixPktErr in
  let dropDelta := orZ winDrop nixDrop in
  {| linkInfoText := linkText;
     pktErrDeltaText := showZ (orZ pktErrDelta 0);
     dropDeltaText := showZ (orZ dropDelta 0);
     crcDeltaText :=
       if (0 <? crc)%Z then showZ crc
       else if hasOwnProperty delta "rx_crc_errors"
               || hasOwnProperty delta "rx_fcs_errors"
       then lit "0"
       else lit "n/a";
     pktErrDeltaClass :=
       if (pktErrDelta =? 0)%Z then lit "ok"
       else if (pktErrDelta <=? 5)%Z then lit "warn" else lit "bad";
     dropDeltaClass :=
       if (dropDelta =? 0)%Z then lit "ok"
       else if (dropDelta <=? 20)%Z then lit "warn" else lit "bad";
     qualityBadge := computeQuality pktErrDelta dropDelta crc linkText |}.

End Stats.
Export Stats.

(** ** Gauge presenter (gauge.js) *)

Module Gauge.

Definition NORMAL_ANIM_SPEED : Z := 32.
Definition SWEEP_ANIM_SPEED : Z := 10.

(** The widget instance: the fields of the third-party gauge that the
    presenter reads or writes. *)
Record gaugeObj := {
  maxValue : Q;
  needle : Q;                 (* the value last given to [gauge.set] *)
  animationSpeed : Z;
  staticLabels : list Q;
  fractionDigits : Z;
}.

(** The module-level variables of gauge.js. *)
Record gaugeState := {
  gauge : option gaugeObj;
  sweepTimer : option Q;      (* armed interval, with its sweep top *)
  sweepDir : Z;
  sweepAutoStopTimer : bool;
  hasRealValue : bool;
  SWEEP_MAX_FRACTION : Q;
  SWEEP_AUTO_STOP_MS : Z;
  SWEEP_INTERVAL_MS : Z;
}.

Definition withGauge (f : gaugeObj -> gaugeObj) (g : gaugeState) : gaugeState :=
  {| gauge := option_map f (gauge g);
     sweepTimer := sweepTimer g; sweepDir := sweepDir g;
     sweepAutoStopTimer := sweepAutoStopTimer g;
     hasRealValue := hasRealValue g;
     SWEEP_MAX_FRACTION := SWEEP_MAX_FRACTION g;
     SWEEP_AUTO_STOP_MS := SWEEP_AUTO_STOP_MS g;
     SWEEP_INTERVAL_MS := SWEEP_INTERVAL_MS g |}.

Definition setNeedle (v : Q) (o : gaugeObj) : gaugeObj :=
  {| maxValue := maxValue o; needle := v; animationSpeed := animationSpeed o;
     staticLabels := staticLabels o; fractionDigits := fractionDigits o |}.

Definition setSpeed (a : Z) (o : gaugeObj) : gaugeObj :=
  {| maxValue := maxValue o; needle := needle o; animationSpeed := a;
     staticLabels := staticLabels o; fractionDigits := fractionDigits o |}.

Definition setHasRealValue (b : bool) (g : gaugeState) : gaugeState :=
  {| gauge := gauge g;
     sweepTimer := sweepTimer g; sweepDir := sweepDir g;
     sweepAutoStopTimer := sweepAutoStopTimer g;
     hasRealValue := b;
     SWEEP_MAX_FRACTION := SWEEP_MAX_FRACTION g;
     SWEEP_AUTO_STOP_MS := SWEEP_AUTO_STOP_MS g;
     SWEEP_INTERVAL_MS := SWEEP_INTERVAL_MS g |}.

Definition stopSweep (g : gaugeState) : gaugeState :=
  {| gauge := option_map (setSpeed NORMAL_ANIM_SPEED) (gauge g);
     sweepTimer := None; sweepDir := sweepDir g;
     sweepAutoStopTimer := false;
     hasRealValue := hasRealValue g;
     SWEEP_MAX_FRACTION := SWEEP_MAX_FRACTION g;
     SWEEP_AUTO_STOP_MS := SWEEP_AUTO_STOP_MS g;
     SWEEP_INTERVAL_MS := SWEEP_INTERVAL_MS g |}.

Definition Qltb (a b : Q) : bool := negb (Qle_bool b a).

Definition clamp01 (x : Q) : Q := Qmax 0 (Qmin 1 x).

Definition startSweep (maxFraction : Q) (autoStopMs : Z) (g : gaugeState)
    : gaugeState :=
  let g := stopSweep g in
  match gauge g with
  | None => g
  | Some o =>
      let o := setNeedle 0 (setSpeed SWEEP_ANIM_SPEED o) in
      {| gauge := Some o;
         sweepTimer := Some (maxValue o * clamp01 maxFraction)%Q;
         sweepDir := 1;
         sweepAutoStopTimer := (0 <? autoStopMs)%Z;
         hasRealValue := hasRealValue g;
         SWEEP_MAX_FRACTION := SWEEP_MAX_FRACTION g;
         SWEEP_AUTO_STOP_MS := SWEEP_AUTO_STOP_MS g;
         SWEEP_INTERVAL_MS := SWEEP_INTERVAL_MS g |}
  end.

(** The callback of the sweep interval. *)
Definition sweepTick (g : gaugeState) : gaugeState :=
  match sweepTimer g, gauge g with
  | Some sweepTop, Some o =>
      {| gauge := Some (setNeedle (if (0 <? sweepDir g)%Z then sweepTop else 0) o);
         sweepTimer := sweepTimer g; sweepDir := (sweepDir g * -1)%Z;
         sweepAutoStopTimer := sweepAutoStopTimer g;
         hasRealValue := hasRealValue g;
         SWEEP_MAX_FRACTION := SWEEP_MAX_FRACTION g;
         SWEEP_AUTO_STOP_MS := SWEEP_AUTO_STOP_MS g;
         SWEEP_INTERVAL_MS := SWEEP_INTERVAL_MS g |}
  | _, _ => g
  end.

(** The callback of the sweep auto-stop timer. *)
Definition sweepAutoStop (g : gaugeState) : gaugeState :=
  withGauge (setNeedle 0) (stopSweep g).

(** [initGauge] on a page that has the [speedometer] element. *)
Definition initGauge (doSweep : bool) (initialMax sweepMaxFraction : Q)
    (sweepAutoStopMs sweepIntervalMs : Z) (g : gaugeState) : gaugeState :=
  let g1 :=
    {| gauge :=
         Some {| maxValue := initialMax; needle := 0;
                 animationSpeed := NORMAL_ANIM_SPEED;
                 staticLabels := []; fractionDigits := 0 |};
       sweepTimer := None; sweepDir := sweepDir g;
       sweepAutoStopTimer := false;
       hasRealValue := false;
       SWEEP_MAX_FRACTION := sweepMaxFraction;
       SWEEP_AUTO_STOP_MS := sweepAutoStopMs;
       SWEEP_INTERVAL_MS := sweepIntervalMs |} in
  if doSweep then startSweep sweepMaxFraction sweepAutoStopMs g1 else g1.

(** [Math.floor(Math.log10(x))] for [x > 0], by repeated scaling. *)
Fixpoint log10Up (fuel : nat) (x : Q) : Z :=
  match fuel with
  | O => 0
  | S fuel' => if Qle_bool 10 x then (1 + log10Up fuel' (x / 10)%Q)%Z else 0%Z
  end.

Fixpoint log10Down (fuel : nat) (x : Q) : Z :=
  match fuel with
  | O => 0
  | S fuel' => if Qle_bool 1 x then 0%Z else (log10Down fuel' (x * 10)%Q - 1)%Z
  end.

Definition floorLog10 (x : Q) : Z :=
  if Qle_bool 1 x then log10Up (S (Z.to_nat (Z.log2 (Qnum x)))) x
  else log10Down (S (S (Z.to_nat (Z.log2 (Z.pos (Qden x)))))) x.

Definition niceSteps : list Q := [1; 2; 5]%Q.

(** The loop over [niceSteps]: the first step [s] with [newMax / s < 6], the
    initial value of [step] if there is none. *)
Fixpoint pickStep (newMax magnitude : Q) (step : Q) (l : list Q) : Q :=
  match l with
  | [] => step
  | n :: l' =>
      let s := (n * magnitude)%Q in
      if Qltb (newMax / s) 6 then s else pickStep newMax magnitude step l'
  end.

Definition candidateMax (value : Q) : Q :=
  if Qltb 0 value then (value * 1.2)%Q else 1%Q.

Definition stepFor (newMax : Q) : Q :=
  let magnitude := (10 ^ floorLog10 (newMax / 5))%Q in
  pickStep newMax magnitude (default 0%Q (last niceSteps) * magnitude)%Q niceSteps.

Definition scaledMax (newMax : Q) : Q :=
  (inject_Z (Qceiling (newMax / stepFor newMax)) * stepFor newMax)%Q.

Definition labelsFor (maxV step : Q) : list Q :=
  let numLabels := Qfloor (maxV / step + (1 # 2))%Q in
  map (fun i => (inject_Z (Z.of_nat i) * step)%Q) (seq 0 (Z.to_nat (numLabels + 1))).

Definition rescale (value : Q) (o : gaugeObj) : gaugeObj :=
  if Qltb (maxValue o * 0.8) value then
    let newMax := candidateMax value in
    let step := stepFor newMax in
    let maxV := scaledMax newMax in
    {| maxValue := maxV; needle := needle o; animationSpeed := animationSpeed o;
       staticLabels := labelsFor maxV step;
       fractionDigits := if Qltb step 1 then 2 else 0 |}
  else o.

Definition updateGauge (value : Q) (g : gaugeState) : gaugeState :=
  match gauge g with
  | None => g
  | Some _ =>
      withGauge (fun o => setNeedle value (rescale value o))
        (stopSweep (setHasRealValue true g))
  end.

Definition resetGauge (g : gaugeState) : gaugeState :=
  withGauge (setNeedle 0) (stopSweep (setHasRealValue false g)).

(** Module state before [initGauge] has run. *)
Definition gauge0 : gaugeState :=
  {| gauge := None; sweepTimer := None; sweepDir := 1;
     sweepAutoStopTimer := false; hasRealValue := false;
     SWEEP_MAX_FRACTION := 0.12; SWEEP_AUTO_STOP_MS := 2500;
     SWEEP_INTERVAL_MS := 700 |}.




(** The scale maximum shown by the gauge (0 before the widget exists). *)
Definition gaugeMax (g : gaugeState) : Q :=
  match gauge g with Some o => maxValue o | None => 0 end.


End Gauge.
Export Gauge.

(** ** Session controller (runTest.js) *)

Module Session.

Definition nl : jsstring := [10].
Definition bullet : jsstring := [32; 8226; 32].

(** The values of state.js read when the run button is clicked. *)
Record form := {
  f_ip : jsstring;
  f_port : jsstring;
  f_streams : jsstring;
  f_bandwidth : jsstring;
  f_protocol : jsstring;
  f_mode : jsstring;
  f_units : jsstring;
  f_iface : jsstring;        (* state.iface *)
  f_ifaceEl : jsstring;      (* value of the #iface element, empty if absent *)
}.

(** The JSON body of [POST /run_iperf]. *)
Record request := {
  req_protocol : jsstring;
  req_mode : jsstring;
  req_streams : jsstring;
  req_target : jsstring;
  req_bandwidth : jsstring;
  req_port : jsstring;
  req_units : jsstring;
  req_iface : jsstring;
  req_cid : jsstring;
}.

(** What all runs share: state.js, the elements of the page (all present, as
    in index.html), the gauge module and [window]. *)
Record page := {
  bandwidthSum : Q;   (* state.bandwidthSum *)
  bandwidthCount : Z;   (* state.bandwidthCount *)
  maxBandwidth : Q;   (* state.maxBandwidth *)
  statusEl : jsstring;   (* text of .status *)
  avgEl : jsstring;   (* text of .avg_speed *)
  maxEl : jsstring;   (* text of .max_speed *)
  resultEl : jsstring;   (* text of #result *)
  runBtnDisabled : bool;   (* runBtn.disabled *)
  overlayDisplay : bool;   (* overlay shown *)
  overlayText : jsstring;   (* overlay text *)
  overlayCloseDisplay : bool;   (* close button shown *)
  gaugeSt : gaugeState;   (* gauge.js *)
  sources : list bool;   (* the EventSource objects created so far; [true] until closed *)
  windowES : option nat;   (* window.__iperfES *)
}.

(** The variables of one invocation of the click handler, captured by its
    listeners and timers. *)
Record run := {
  units : jsstring;   (* const units *)
  mode : jsstring;   (* const mode *)
  protocol : jsstring;   (* const protocol *)
  streams : jsstring;   (* const streams *)
  esObj : nat;   (* the EventSource the listeners of this run are attached to *)
  eventSource : option nat;   (* let eventSource *)
  noDataTimer : option Z;   (* let noDataTimer: the deadline of the armed timeout *)
  lastCmd : jsstring;   (* let lastCmd *)
  startPending : bool;   (* the start request has not been answered yet *)
}.

Record world := { pg : page; runs : list run }.

Definition set_bandwidthSum (v : Q) (x : page) : page :=
  {| bandwidthSum := v;
     bandwidthCount := bandwidthCount x;
     maxBandwidth := maxBandwidth x;
     statusEl := statusEl x;
     avgEl := avgEl x;
     maxEl := maxEl x;
     resultEl := resultEl x;
     runBtnDisabled := runBtnDisabled x;
     overlayDisplay := overlayDisplay x;
     overlayText := overlayText x;
     overlayCloseDisplay := overlayCloseDisplay x;
     gaugeSt := gaugeSt x;
     sources := sources x;
     windowES := windowES x |}.

Definition set_bandwidthCount (v : Z) (x : page) : page :=
  {| bandwidthSum := bandwidthSum x;
     bandwidthCount := v;
     maxBandwidth := maxBandwidth x;
     statusEl := statusEl x;
     avgEl := avgEl x;
     maxEl := maxEl x;
     resultEl := resultEl x;
     runBtnDisabled := runBtnDisabled x;
     overlayDisplay := overlayDisplay x;
     overlayText := overlayText x;
     overlayCloseDisplay := overlayCloseDisplay x;
     gaugeSt := gaugeSt x;
     sources := sources x;
     windowES := windowES x |}.

Definition set_maxBandwidth (v : Q) (x : page) : page :=
  {| bandwidthSum := bandwidthSum x;
     bandwidthCount := bandwidthCount x;
     maxBandwidth := v;
     statusEl := statusEl x;
     avgEl := avgEl x;
     maxEl := maxEl x;
     resultEl := resultEl x;
     runBtnDisabled := runBtnDisabled x;
     overlayDisplay := overlayDisplay x;
     overlayText := overlayText x;
     overlayCloseDisplay := overlayCloseDisplay x;
     gaugeSt := gaugeSt x;
     sources := sources x;
     windowES := windowES x |}.

Definition set_statusEl (v : jsstring) (x : page) : page :=
  {| bandwidthSum := bandwidthSum x;
     bandwidthCount := bandwidthCount x;
     maxBandwidth := maxBandwidth x;
     statusEl := v;
     avgEl := avgEl x;
     maxEl := maxEl x;
     resultEl := resultEl x;
     runBtnDisabled := runBtnDisabled x;
     overlayDisplay := overlayDisplay x;
     overlayText := overlayText x;
     overlayCloseDisplay := overlayCloseDisplay x;
     gaugeSt := gaugeSt x;
     sources := sources x;
     windowES := windowES x |}.

Definition set_avgEl (v : jsstring) (x : page) : page :=
  {| bandwidthSum := bandwidthSum x;
     bandwidthCount := bandwidthCount x;
     maxBandwidth := maxBandwidth x;
     statusEl := statusEl x;
     avgEl := v;
     maxEl := maxEl x;
     resultEl := resultEl x;
     runBtnDisabled := runBtnDisabled x;
     overlayDisplay := overlayDisplay x;
     overlayText := overlayText x;
     overlayCloseDisplay := overlayCloseDisplay x;
     gaugeSt := gaugeSt x;
     sources := sources x;
     windowES := windowES x |}.

Definition set_maxEl (v : jsstring) (x : page) : page :=
  {| bandwidthSum := bandwidthSum x;
     bandwidthCount := bandwidthCount x;
     maxBandwidth := maxBandwidth x;
     statusEl := statusEl x;
     avgEl := avgEl x;
     maxEl := v;
     resultEl := resultEl x;
     runBtnDisabled := runBtnDisabled x;
     overlayDisplay := overlayDisplay x;
     overlayText := overlayText x;
     overlayCloseDisplay := overlayCloseDisplay x;
     gaugeSt := gaugeSt x;
     sources := sources x;
     windowES := windowES x |}.

Definition set_resultEl (v : jsstring) (x : page) : page :=
  {| bandwidthSum := bandwidthSum x;
     bandwidthCount := bandwidthCount x;
     maxBandwidth := maxBandwidth x;
     statusEl := statusEl x;
     avgEl := avgEl x;
     maxEl := maxEl x;
     resultEl := v;
     runBtnDisabled := runBtnDisabled x;
     overlayDisplay := overlayDisplay x;
     overlayText := overlayText x;
     overlayCloseDisplay := overlayCloseDisplay x;
     gaugeSt := gaugeSt x;
     sources := sources x;
     windowES := windowES x |}.

Definition set_runBtnDisabled (v : bool) (x : page) : page :=
  {| bandwidthSum := bandwidthSum x;
     bandwidthCount := bandwidthCount x;
     maxBandwidth := maxBandwidth x;
     statusEl := statusEl x;
     avgEl := avgEl x;
     maxEl := maxEl x;
     resultEl := resultEl x;
     runBtnDisabled := v;
     overlayDisplay := overlayDisplay x;
     overlayText := overlayText x;
     overlayCloseDisplay := overlayCloseDisplay x;
     gaugeSt := gaugeSt x;
     sources := sources x;
     windowES := windowES x |}.

Definition set_overlayDisplay (v : bool) (x : page) : page :=
  {| bandwidthSum := bandwidthSum x;
     bandwidthCount := bandwidthCount x;
     maxBandwidth := maxBandwidth x;
     statusEl := statusEl x;
     avgEl := avgEl x;
     maxEl := maxEl x;
     resultEl := resultEl x;
     runBtnDisabled := runBtnDisabled x;
     overlayDisplay := v;
     overlayText := overlayText x;
     overlayCloseDisplay := overlayCloseDisplay x;
     gaugeSt := gaugeSt x;
     sources := sources x;
     windowES := windowES x |}.

Definition set_overlayText (v : jsstring) (x : page) : page :=
  {| bandwidthSum := bandwidthSum x;
     bandwidthCount := bandwidthCount x;
     maxBandwidth := maxBandwidth x;
     statusEl := statusEl x;
     avgEl := avgEl x;
     maxEl := maxEl x;
     resultEl := resultEl x;
     runBtnDisabled := runBtnDisabled x;
     overlayDisplay := overlayDisplay x;
     overlayText := v;
     overlayCloseDisplay := overlayCloseDisplay x;
     gaugeSt := gaugeSt x;
     sources := sources x;
     windowES := windowES x |}.

Definition set_overlayCloseDisplay (v : bool) (x : page) : page :=
  {| bandwidthSum := bandwidthSum x;
     bandwidthCount := bandwidthCount x;
     maxBandwidth := maxBandwidth x;
     statusEl := statusEl x;
     avgEl := avgEl x;
     maxEl := maxEl x;
     resultEl := resultEl x;
     runBtnDisabled := runBtnDisabled x;
     overlayDisplay := overlayDisplay x;
     overlayText := overlayText x;
     overlayCloseDisplay := v;
     gaugeSt := gaugeSt x;
     sources := sources x;
     windowES := windowES x |}.

Definition set_gaugeSt (v : gaugeState) (x : page) : page :=
  {| bandwidthSum := bandwidthSum x;
     bandwidthCount := bandwidthCount x;
     maxBandwidth := maxBandwidth x;
     statusEl := statusEl x;
     avgEl := avgEl x;
     maxEl := maxEl x;
     resultEl := resultEl x;
     runBtnDisabled := runBtnDisabled x;
     overlayDisplay := overlayDisplay x;
     overlayText := overlayText x;
     overlayCloseDisplay := overlayCloseDisplay x;
     gaugeSt := v;
     sources := sources x;
     windowES := windowES x |}.

Definition set_sources (v : list bool) (x : page) : page :=
  {| bandwidthSum := bandwidthSum x;
     bandwidthCount := bandwidthCount x;
     maxBandwidth := maxBandwidth x;
     statusEl := statusEl x;
     avgEl := avgEl x;
     maxEl := maxEl x;
     resultEl := resultEl x;
     runBtnDisabled := runBtnDisabled x;
     overlayDisplay := overlayDisplay x;
     overlayText := overlayText x;
     overlayCloseDisplay := overlayCloseDisplay x;
     gaugeSt := gaugeSt x;
     sources := v;
     windowES := windowES x |}.

Definition set_windowES (v : option nat) (x : page) : page :=
  {| bandwidthSum := bandwidthSum x;
     bandwidthCount := bandwidthCount x;
     maxBandwidth := maxBandwidth x;
     statusEl := statusEl x;
     avgEl := avgEl x;
     maxEl := maxEl x;
     resultEl := resultEl x;
     runBtnDisabled := runBtnDisabled x;
     overlayDisplay := overlayDisplay x;
     overlayText := overlayText x;
     overlayCloseDisplay := overlayCloseDisplay x;
     gaugeSt := gaugeSt x;
     sources := sources x;
     windowES := v |}.

Definition set_eventSource (v : option nat) (x : run) : run :=
  {| units := units x;
     mode := mode x;
     protocol := protocol x;
     streams := streams x;
     esObj := esObj x;
     eventSource := v;
     noDataTimer := noDataTimer x;
     lastCmd := lastCmd x;
     startPending := startPending x |}.

Definition set_noDataTimer (v : option Z) (x : run) : run :=
  {| units := units x;
     mode := mode x;
     protocol := protocol x;
     streams := streams x;
     esObj := esObj x;
     eventSource := eventSource x;
     noDataTimer := v;
     lastCmd := lastCmd x;
     startPending := startPending x |}.

Definition set_lastCmd (v : jsstring) (x : run) : run :=
  {| units := units x;
     mode := mode x;
     protocol := protocol x;
     streams := streams x;
     esObj := esObj x;
     eventSource := eventSource x;
     noDataTimer := noDataTimer x;
     lastCmd := v;
     startPending := startPending x |}.

Definition set_startPending (v : bool) (x : run) : run :=
  {| units := units x;
     mode := mode x;
     protocol := protocol x;
     streams := streams x;
     esObj := esObj x;
     eventSource := eventSource x;
     noDataTimer := noDataTimer x;
     lastCmd := lastCmd x;
     startPending := v |}.

Definition onPage (f : page -> page) (w : world) : world :=
  {| pg := f (pg w); runs := runs w |}.

Definition onRun (i : nat) (f : run -> run) (w : world) : world :=
  {| pg := pg w; runs := alter f i (runs w) |}.

Definition appendResult (t : jsstring) (p : page) : page :=
  set_resultEl (resultEl p ++ t) p.

Definition showOverlay (text : jsstring) (showClose : bool) (p : page) : page :=
  set_overlayCloseDisplay showClose (set_overlayText text (set_overlayDisplay true p)).

Definition hideOverlay (p : page) : page :=
  set_overlayCloseDisplay false (set_overlayDisplay false p).

(** [es?.close()] *)
Definition closeSource (es : option nat) (p : page) : page :=
  match es with
  | Some j => set_sources (<[j := false]> (sources p)) p
  | None => p
  end.

(** [/^\d+(\.\d+)?[KMG]$/i] *)
Definition bandwidthArgRe : regex :=
  RSeq RBol
    (RSeq (RPlus (RClass CDigit))
       (RSeq (ROpt (RGroup 1 (RSeq (RChar 46) (RPlus (RClass CDigit)))))
          (RSeq (RClass (CSet (lit "KMG"))) REol))).

Definition NO_DATA_MS (mode : jsstring) : Z :=
  if bool_decide (mode = lit "download") then 45000 else 15000.

Definition RUN_START_TIMEOUT_MS (mode : jsstring) : Z :=
  if bool_decide (mode = lit "download") then 15000 else 8000.

Definition stopNoDataTimer (i : nat) (w : world) : world :=
  onRun i (set_noDataTimer None) w.

Definition cleanup (reset closeStream : bool) (i : nat) (w : world) : world :=
  let w := onPage hideOverlay w in
  let w := stopNoDataTimer i w in
  let w := onPage (set_runBtnDisabled false) w in
  let w := if reset then onPage (fun p => set_gaugeSt (resetGauge (gaugeSt p)) p) w
           else w in
  if closeStream then
    let w := onPage (closeSource ((runs w !! i) ≫= eventSource)) w in
    let w := onRun i (set_eventSource None) w in
    let w := onPage (fun p => closeSource (windowES p) p) w in
    onPage (set_windowES None) w
  else w.

(** The callback of the inactivity timer. *)
Definition onNoDataTimeout (i : nat) (w : world) : world :=
  match runs w !! i with
  | None => w
  | Some r =>
      let w := onPage (set_statusEl (lit "Error")) w in
      let w := onPage (appendResult
                 (lit "Timeout: Keine Daten vom Stream erhalten." ++ nl)) w in
      let w := if bool_decide (lastCmd r = []) then w
               else onPage (appendResult (lit "Letzter CMD: " ++ lastCmd r ++ nl)) w in
      cleanup true true i w
  end.

Definition armNoDataTimer (now : Z) (i : nat) (w : world) : world :=
  match runs w !! i with
  | None => w
  | Some r =>
      let w := stopNoDataTimer i w in
      onRun i (set_noDataTimer (Some (now + NO_DATA_MS (mode r))%Z)) w
  end.

Definition runInfo (r : run) : jsstring :=
  lit "(" ++ toUpperCase (protocol r) ++ bullet ++ mode r ++ bullet
    ++ streams r ++ lit " Streams)".

(** The listener of the [open] event. *)
Definition onOpen (now : Z) (i : nat) (w : world) : world :=
  armNoDataTimer now i w.

(** The listener of the [message] event. *)
Definition onMessage (now : Z) (i : nat) (data : jsstring) (w : world) : world :=
  match runs w !! i with
  | None => w
  | Some r =>
      let s := trim data in
      let w := armNoDataTimer now i w in
      if bool_decide (s = []) || bool_decide (s = lit "ping") then w
      else if bool_decide (s = lit "-1") then
        let p := pg w in
        let avg := if (0 <? bandwidthCount p)%Z
                   then toFixed2 (bandwidthSum p / inject_Z (bandwidthCount p))%Q
                   else lit "0.00" in
        let w := onPage (set_statusEl (lit "Complete")) w in
        let w := onPage (set_avgEl (avg ++ lit " " ++ units r)) w in
        let w := onPage (set_maxEl (showNum (maxBandwidth p) ++ lit " " ++ units r)) w in
        cleanup false true i w
      else if bool_decide (s = lit "server is busy") then
        let w := onPage (set_statusEl (lit "Server is Busy")) w in
        let w := onPage (appendResult (lit "server is busy" ++ nl)) w in
        cleanup true true i w
      else if startsWith s (lit "CMD:") || startsWith s (lit "WORKER:")
              || startsWith s (lit "LOGFILE:") then
        onPage (appendResult (s ++ nl)) w
      else
        match extractBandwidth s (units r) with
        | None => onPage (appendResult (s ++ nl)) w
        | Some bandwidthValue =>
            let w := onPage (fun p => set_gaugeSt (updateGauge bandwidthValue (gaugeSt p)) p) w in
            let w := onPage (fun p => set_bandwidthSum (bandwidthSum p + bandwidthValue)%Q p) w in
            let w := onPage (fun p => set_bandwidthCount (bandwidthCount p + 1)%Z p) w in
            let w := onPage (fun p => if Qltb (maxBandwidth p) bandwidthValue
                                      then set_maxBandwidth bandwidthValue p else p) w in
            let w := onPage (set_statusEl (lit "Running")) w in
            let w := onPage (appendResult (s ++ nl)) w in
            onPage (showOverlay
                      (lit "Running: " ++ toFixed2 bandwidthValue ++ lit " " ++ units r
                         ++ nl ++ runInfo r) false) w
        end
  end.

(** The listener of the [error] event; [closed] tells whether the transport
    reports the connection closed for good. *)
Definition onError (now : Z) (i : nat) (closed : bool) (w : world) : world :=
  let w := armNoDataTimer now i w in
  if closed then
    let w := onPage (set_statusEl (lit "Error")) w in
    let w := onPage (appendResult (lit "SSE connection closed." ++ nl)) w in
    cleanup true true i w
  else w.

Definition initialMaxFor (units : jsstring) : Q :=
  if bool_decide (units = lit "Gbps") then 1
  else if bool_decide (units = lit "Kbps") then 1000000 else 1000.

(** The click handler up to the point where it awaits the answer to the
    start request, which it returns. *)
Definition onClick (now : Z) (f : form) (cid : jsstring) (w : world)
    : world * request :=
  let bandwidth := trim (f_bandwidth f) in
  let units := f_units f in
  let iface := if bool_decide (f_iface f = []) then f_ifaceEl f else f_iface f in
  let bandwidth := if test true bandwidthArgRe bandwidth then bandwidth else lit "0" in
  let w := onPage (set_resultEl (lit "Running iPerf3..." ++ nl)) w in
  let w := onPage (set_bandwidthSum 0) w in
  let w := onPage (set_bandwidthCount 0) w in
  let w := onPage (set_maxBandwidth 0) w in
  let w := onPage (set_statusEl (lit "Starting")) w in
  let w := onPage (set_avgEl (lit "- " ++ units)) w in
  let w := onPage (set_maxEl (lit "- " ++ units)) w in
  let w := onPage (fun p => set_gaugeSt
                     (initGauge true (initialMaxFor units) 0.12 2500 700 (gaugeSt p)) p) w in
  let w := onPage (set_runBtnDisabled true) w in
  let w := onPage (showOverlay (lit "Starte iPerf" ++ [8230]) false) w in
  let w := onPage (fun p => closeSource (windowES p) p) w in
  let w := onPage (set_windowES None) w in
  let es := length (sources (pg w)) in
  let w := onPage (fun p => set_sources (sources p ++ [true]) p) w in
  let i := length (runs w) in
  let w := {| pg := pg w;
              runs := runs w ++ [ {| units := units; mode := f_mode f;
                                     protocol := f_protocol f;
                                     streams := f_streams f;
                                     esObj := es;
                                     eventSource := Some es;
                                     noDataTimer := None;
                                     lastCmd := [];
                                     startPending := true |} ] |} in
  let w := onPage (set_windowES (Some es)) w in
  let w := armNoDataTimer now i w in
  (w, {| req_protocol := f_protocol f; req_mode := f_mode f;
         req_streams := f_streams f; req_target := f_ip f;
         req_bandwidth := bandwidth; req_port := f_port f;
         req_units := units; req_iface := iface; req_cid := cid |}).

(** The handler after a successful answer carrying [cmd] (empty if none). *)
Definition onStartOk (i : nat) (cmd : jsstring) (w : world) : world :=
  match runs w !! i with
  | None => w
  | Some r =>
      let c := trim cmd in
      let w := onRun i (set_lastCmd c) w in
      let w := if bool_decide (c = []) then w
               else onPage (appendResult (lit "CMD: " ++ c ++ nl)) w in
      onPage (showOverlay
                (lit "Verbunden " ++ [8211] ++ lit " Test l" ++ [228] ++ lit "uft"
                   ++ [8230] ++ nl ++ runInfo r) false) w
  end.

(** The [catch] block, for the error message [msg]. *)
Definition onStartThrow (i : nat) (msg : jsstring) (w : world) : world :=
  let w := onPage (appendResult (msg ++ nl)) w in
  let w := onPage (set_statusEl (lit "Error")) w in
  let w := cleanup true true i w in
  onPage (showOverlay (lit "Fehler:" ++ nl ++ msg) true) w.

(** The handler after an answer that is not [ok]; it throws into the [catch]
    block. *)
Definition onStartNotOk (i : nat) (msg : jsstring) (w : world) : world :=
  let w := cleanup true true i w in
  let w := onPage (showOverlay (lit "Fehler beim Start:" ++ nl ++ msg) true) w in
  onStartThrow i msg w.

(** *** The page as a transition system *)

Inductive event :=
| Click (f : form) (cid : jsstring)
| Open (i : nat)
| Message (i : nat) (data : jsstring)
| StreamError (i : nat) (closed : bool)
| NoDataTimeout (i : nat)
| StartOk (i : nat) (cmd : jsstring)
| StartNotOk (i : nat) (msg : jsstring)
| StartThrow (i : nat) (msg : jsstring)
| SweepTick
| SweepAutoStop.

(** The EventSource of run [i] can still deliver events. *)
Definition streamOpen (i : nat) (w : world) : bool :=
  match runs w !! i with
  | Some r => bool_decide (sources (pg w) !! esObj r = Some true)
  | None => false
  end.

Definition startIsPending (i : nat) (w : world) : bool :=
  match runs w !! i with
  | Some r => startPending r
  | None => false
  end.

Definition timerDue (now : Z) (i : nat) (w : world) : bool :=
  match runs w !! i with
  | Some r => match noDataTimer r with
              | Some d => (d <=? now)%Z
              | None => false
              end
  | None => false
  end.

(** One event of the browser at time [now]; [None] when the browser cannot
    deliver it in this state (a click on the disabled button, an event of a
    closed EventSource, a timer that is not due, a second answer). *)
Definition step (now : Z) (e : event) (w : world) : option world :=
  match e with
  | Click f cid =>
      if runBtnDisabled (pg w) then None else Some (fst (onClick now f cid w))
  | Open i => if streamOpen i w then Some (onOpen now i w) else None
  | Message i data =>
      if streamOpen i w then Some (onMessage now i data w) else None
  | StreamError i closed =>
      if streamOpen i w then
        let w := if closed
                 then onPage (closeSource (esObj <$> runs w !! i)) w else w in
        Some (onError now i closed w)
      else None
  | NoDataTimeout i =>
      if timerDue now i w then Some (onNoDataTimeout i w) else None
  | StartOk i cmd =>
      if startIsPending i w
      then Some (onStartOk i cmd (onRun i (set_startPending false) w)) else None
  | StartNotOk i msg =>
      if startIsPending i w
      then Some (onStartNotOk i msg (onRun i (set_startPending false) w)) else None
  | StartThrow i msg =>
      if startIsPending i w
      then Some (onStartThrow i msg (onRun i (set_startPending false) w)) else None
  | SweepTick =>
      if bool_decide (is_Some (sweepTimer (gaugeSt (pg w))))
      then Some (onPage (fun p => set_gaugeSt (sweepTick (gaugeSt p)) p) w) else None
  | SweepAutoStop =>
      if sweepAutoStopTimer (gaugeSt (pg w))
      then Some (onPage (fun p => set_gaugeSt (sweepAutoStop (gaugeSt p)) p) w) else None
  end.


(** The page once main.js has initialised the gauge for [units]. *)
Definition world0 (units : jsstring) : world :=
  {| pg := {| bandwidthSum := 0; bandwidthCount := 0; maxBandwidth := 0;
              statusEl := []; avgEl := []; maxEl := []; resultEl := [];
              runBtnDisabled := false;
              overlayDisplay := false; overlayText := [];
              overlayCloseDisplay := false;
              gaugeSt := initGauge false (initialMaxFor units) 0.12 2500 700 gauge0;
              sources := []; windowES := None |};
     runs := [] |}.

(** A TCP download read in Mbps, as the scenarios of the specification
    start it. *)
Definition exampleForm : form :=
  {| f_ip := lit "192.168.10.2"; f_port := lit "5201"; f_streams := lit "1";
     f_bandwidth := lit "10M"; f_protocol := lit "tcp";
     f_mode := lit "download"; f_units := lit "Mbps";
     f_iface := lit "eth0"; f_ifaceEl := lit "eth0" |}.

(** The form [f] with another text in the bandwidth field. *)
Definition withBandwidth (b : jsstring) (f : form) : form :=
  {| f_ip := f_ip f; f_port := f_port f; f_streams := f_streams f;
     f_bandwidth := b; f_protocol := f_protocol f; f_mode := f_mode f;
     f_units := f_units f; f_iface := f_iface f; f_ifaceEl := f_ifaceEl f |}.

Definition openSources (w : world) : nat :=
  length (filter (fun b => b = true) (sources (pg w))).

(** Every EventSource that is still open is the one [window.__iperfES]
    refers to. *)
Definition onlyOpen (l : list bool) (o : option nat) : Prop :=
  forall j, l !! j = Some true -> o = Some j.

Definition connInv (w : world) : Prop :=
  onlyOpen (sources (pg w)) (windowES (pg w)).

(** Worlds the page can be in: [world0] followed by events the browser can
    deliver. *)
Inductive reachable (units0 : jsstring) : world -> Prop :=
| reach0 : reachable units0 (world0 units0)
| reachStep w now e w' :
    reachable units0 w -> step now e w = Some w' -> reachable units0 w'.

(** The events that end run [i]: completion, busy, a closed stream, the
    inactivity timeout, a failed start request. *)
Definition endsRun (i : nat) (e : event) : Prop :=
  match e with
  | Message j data =>
      j = i /\ (trim data = lit "-1" \/ trim data = lit "server is busy")
  | StreamError j closed => j = i /\ closed = true
  | NoDataTimeout j => j = i
  | StartNotOk j _ | StartThrow j _ => j = i
  | _ => False
  end.


(** Closing the object referred to by [a]. *)
Definition closeIn (a : option nat) (l : list bool) : list bool :=
  match a with Some j => <[j := false]> l | None => l end.

End Session.
Export Session.


(** ** The conversion factors in the words of the specification *)

Module SpecWords.

(** "K divides by 1000, M leaves unchanged, G multiplies by 1000; a missing
    prefix defaults to M". *)
Definition prefixScale (prefix : option jsstring) : Q :=
  if bool_decide (prefix = Some (lit "K")) || bool_decide (prefix = Some (lit "k"))
  then (1 / 1000)%Q
  else if bool_decide (prefix = Some (lit "G")) || bool_decide (prefix = Some (lit "g"))
  then 1000%Q
  else 1%Q.

(** "Kbps multiplies the Mbps figure by 1000, Gbps divides it by 1000, Mbps
    leaves it unchanged". *)
Definition unitScale (units : jsstring) : Q :=
  if bool_decide (units = lit "Kbps") then 1000%Q
  else if bool_decide (units = lit "Gbps") then (1 / 1000)%Q
  else 1%Q.

(** The value the message listener collects from a frame, if any: frames
    that are empty, heartbeats, markers or tagged lines give none. *)
Definition sampleOf (units data : jsstring) : option Q :=
  let s := trim data in
  if bool_decide (s = []) || bool_decide (s = lit "ping") then None
  else if bool_decide (s = lit "-1") then None
  else if bool_decide (s = lit "server is busy") then None
  else if startsWith s (lit "CMD:") || startsWith s (lit "WORKER:")
          || startsWith s (lit "LOGFILE:") then None
  else extractBandwidth s units.

(** Frames after which the stream is released. *)
Definition endsStream (data : jsstring) : bool :=
  bool_decide (trim data = lit "-1")
  || bool_decide (trim data = lit "server is busy").





(** The page right after a click, in one record. *)
Definition clickedPage (f : form) (p : page) : page :=
  {| bandwidthSum := 0; bandwidthCount := 0; maxBandwidth := 0;
     statusEl := lit "Starting";
     avgEl := lit "- " ++ f_units f;
     maxEl := lit "- " ++ f_units f;
     resultEl := lit "Running iPerf3..." ++ nl;
     runBtnDisabled := true;
     overlayDisplay := true;
     overlayText := lit "Starte iPerf" ++ [8230];
     overlayCloseDisplay := false;
     gaugeSt := initGauge true (initialMaxFor (f_units f)) 0.12 2500 700 (gaugeSt p);
     sources := closeIn (windowES p) (sources p) ++ [true];
     windowES := Some (length (sources p)) |}.

(** The variables of the run a click starts, before its timer is armed. *)
Definition newRun (f : form) (es : nat) : run :=
  {| units := f_units f; mode := f_mode f; protocol := f_protocol f;
     streams := f_streams f; esObj := es; eventSource := Some es;
     noDataTimer := None; lastCmd := []; startPending := true |}.


(** A non-empty run of decimal digits. *)
Definition isDigits (l : jsstring) : Prop :=
  l <> [] /\ Forall (fun x => isDigit x = true) l.

(** Nothing, or a dot and digits. *)
Definition isFraction (fr : jsstring) : Prop :=
  fr = [] \/ exists ds, fr = 46 :: ds /\ isDigits ds.

(** "a signed decimal number": an optional minus sign, digits, an optional
    fraction. *)
Definition isSignedDecimal (s : jsstring) : Prop :=
  exists sign ip fr,
    s = sign ++ ip ++ fr /\ (sign = [] \/ sign = [45]) /\ isDigits ip
    /\ isFraction fr.

(** "a number optionally with decimals followed by a single K, M, or G
    suffix", in either case. *)
Definition isBandwidthArg (s : jsstring) : Prop :=
  exists ip fr x,
    s = ip ++ fr ++ [x] /\ isDigits ip /\ isFraction fr
    /\ (upper x = 75 \/ upper x = 77 \/ upper x = 71).

(** [s] contains [l] up to the case of ASCII letters. *)
Definition containsCI (l s : jsstring) : Prop :=
  exists pre w post, s = pre ++ w ++ post /\ toUpperCase w = toUpperCase l.

End SpecWords.
Export SpecWords.

(** ** The rest of gauge.js: pending animation and numeric readout *)

Module GaugeView.

(** [beginPending]: sweep again with the stored defaults. *)
Definition beginPending (g : gaugeState) : gaugeState :=
  startSweep (SWEEP_MAX_FRACTION g) (SWEEP_AUTO_STOP_MS g)
    (setHasRealValue false g).

(** The number a frame of [startReadoutSync] shows when the widget displays
    [dv]: 0 while the sweep runs and no real value has arrived. *)
Definition readoutValue (g : gaugeState) (dv : Q) : Q :=
  if negb (hasRealValue g) && bool_decide (is_Some (sweepTimer g)) then 0%Q
  else dv.

(** The text of [#current-value] after that frame; [None] when there is no
    widget and the loop ends. *)
Definition readoutTick (g : gaugeState) (dv : Q) : option jsstring :=
  match gauge g with
  | None => None
  | Some _ => Some (toFixed2 (readoutValue g dv))
  end.

(** [n] firings of the sweep interval. *)
Fixpoint sweepTicks (n : nat) (g : gaugeState) : gaugeState :=
  match n with
  | O => g
  | S n' => sweepTicks n' (sweepTick g)
  end.

(** The needle of the widget, 0 without one. *)
Definition needleOf (g : gaugeState) : Q :=
  match gauge g with Some o => needle o | None => 0%Q end.

Definition labelsOf (g : gaugeState) : list Q :=
  match gauge g with Some o => staticLabels o | None => [] end.

(** The sweep interval is armed with the top [top] on a scale of maximum
    [mx], the next tick goes towards [d], the needle is at [x] and
    [hasRealValue] is [real]. *)
Definition sweeping (top mx : Q) (d : Z) (x : Q) (real : bool) (g : gaugeState)
    : Prop :=
  sweepTimer g = Some top /\ sweepDir g = d /\ hasRealValue g = real
  /\ exists o, gauge g = Some o /\ maxValue o = mx /\ needle o = x.

End GaugeView.
Export GaugeView.

(** ** The polling loop of stats_quality.js *)

Module Poller.

(** The variables of one [startStatsPolling] call and what it has put on
    the page. *)
Record poller := {
  stopped : bool;
  timerPending : bool;        (* a [setTimeout(tick)] has not fired yet *)
  inFlight : bool;            (* [tick] is awaiting its fetch *)
  shown : option cards;       (* the last [updateStatsCards] *)
}.

Inductive pollEvent :=
| TimerFires
| FetchDone (answer : option stats)   (* [None]: rejected, not ok, bad JSON *)
| StopCalled.

(** [tick] up to its [await]. *)
Definition tickBegin (p : poller) : poller :=
  if stopped p then p
  else {| stopped := stopped p; timerPending := timerPending p;
          inFlight := true; shown := shown p |}.

(** [tick] after its [await]: the [try] body or the empty [catch], then the
    [finally]. *)
Definition tickEnd (answer : option stats) (p : poller) : poller :=
  {| stopped := stopped p;
     timerPending := negb (stopped p);
     inFlight := false;
     shown := match answer with
              | Some st => Some (updateStatsCards st)
              | None => shown p
              end |}.

(** The function [startStatsPolling] returns. *)
Definition stopPolling (p : poller) : poller :=
  {| stopped := true; timerPending := false;
     inFlight := inFlight p; shown := shown p |}.

(** The state as [startStatsPolling] returns: the first [tick] is under
    way. *)
Definition poller0 : poller :=
  tickBegin {| stopped := false; timerPending := false;
               inFlight := false; shown := None |}.

Definition pollStep (e : pollEvent) (p : poller) : option poller :=
  match e with
  | TimerFires =>
      if timerPending p
      then Some (tickBegin {| stopped := stopped p; timerPending := false;
                              inFlight := inFlight p; shown := shown p |})
      else None
  | FetchDone answer => if inFlight p then Some (tickEnd answer p) else None
  | StopCalled => Some (stopPolling p)
  end.

Fixpoint pollSteps (tr : list pollEvent) (p : poller) : option poller :=
  match tr with
  | [] => Some p
  | e :: tr' =>
      match pollStep e p with
      | Some p' => pollSteps tr' p'
      | None => None
      end
  end.

End Poller.
Export Poller.

(** ** The second poller, [refreshStats] of uiHandlers.js *)

Module UiHandlers.

(** The [link] object as [refreshStats] reads it; absent fields are
    empty. *)
Record linkJson := {
  lj_speed : jsstring;
  lj_duplex : jsstring;
  lj_link : jsstring;
  lj_status : jsstring;
}.

Definition linuxPhyKeys : list string :=
  ["rx_crc_errors"; "rx_fcs_errors"; "rx_frame_errors"; "rx_length_errors";
   "rx_over_errors"]%string.

Definition winErrKeys : list string := ["ReceivedErrors"; "OutboundErrors"]%string.

Definition dropKeys : list string :=
  ["rx_dropped"; "tx_dropped"; "rx_missed_errors"; "ReceivedDiscarded";
   "OutboundDiscarded"]%string.

(** [Object.values(delta).reduce((a, v) => a + n(v), 0)]; the order of the
    values does not matter for a sum of integers. *)
Definition totalOf (delta : gmap string Z) : Z :=
  map_fold (fun _ v a => (a + v)%Z) 0%Z delta.

Definition refreshLinkText (l : linkJson) : jsstring :=
  let up := if bool_decide (lj_link l = []) then lj_status l else lj_link l in
  let parts := filter (fun x => x <> []) [lj_speed l; lj_duplex l; up] in
  let txt := join (lit " | ") parts in
  if bool_decide (txt = []) then lit "--" else txt.

(** What [refreshStats] writes into the page. *)
Record refreshed := {
  rf_linkInfo : jsstring;
  rf_crcDelta : jsstring;
  rf_dropDelta : jsstring;
  rf_errDelta : jsstring;
  rf_crcClass : jsstring;
  rf_dropClass : jsstring;
  rf_errClass : jsstring;
}.

(** [refreshStats] for the answer of [/api/stats]; [None] when no interface
    is selected and nothing is written. *)
Definition refreshStats (iface : jsstring) (l : linkJson) (delta : gmap string Z)
    : option refreshed :=
  if bool_decide (iface = []) then None
  else
    let crcDelta := sumKeys delta linuxPhyKeys in
    let winErrDelta := sumKeys delta winErrKeys in
    let dropsDelta := sumKeys delta dropKeys in
    let totalDelta := totalOf delta in
    let shownCrc := if (0 <? crcDelta)%Z then crcDelta else winErrDelta in
    Some {| rf_linkInfo := refreshLinkText l;
            rf_crcDelta := showZ shownCrc;
            rf_dropDelta := showZ dropsDelta;
            rf_errDelta := showZ totalDelta;
            rf_crcClass :=
              if (0 <? shownCrc)%Z then lit "bad"
              else if (0 <? dropsDelta)%Z then lit "warn" else lit "ok";
            rf_dropClass := if (0 <? dropsDelta)%Z then lit "warn" else lit "ok";
            rf_errClass :=
              if (0 <? totalDelta)%Z
              then (if (0 <? shownCrc)%Z then lit "bad" else lit "warn")
              else lit "ok" |}.

End UiHandlers.
Export UiHandlers.

(** ** [PrefixToMask] of ip_setup.ps1 *)

Module IpSetup.

(** [[convert]::ToInt32(segment, 2)] on a string of binary digits. *)
Definition bitsToInt (bits : list bool) : Z :=
  fold_left (fun a (b : bool) => (2 * a + (if b then 1 else 0))%Z) bits 0%Z.

(** The octets collected by the loop; [None] is the exception for a prefix
    outside 0..32. *)
Definition maskOctets (prefix : Z) : option (list Z) :=
  if (prefix <? 0)%Z || (32 <? prefix)%Z then None
  else
    let bits := replicate (Z.to_nat prefix) true
                  ++ replicate (32 - Z.to_nat prefix) false in
    Some (map (fun i => bitsToInt (take 8 (drop (i * 8) bits))) (seq 0 4)).

(** [$octets -join "."] *)
Definition maskText (octets : list Z) : jsstring :=
  join (lit ".") (map showZ octets).

Definition PrefixToMask (prefix : Z) : option jsstring :=
  maskText <$> maskOctets prefix.

(** The 32-bit number four octets stand for. *)
Definition maskValue (octets : list Z) : Z :=
  fold_left (fun a o => (256 * a + o)%Z) octets 0%Z.

End IpSetup.
Export IpSetup.

(** * Properties *)

(** ** The matcher against the declarative reading of a regular expression *)

Section RegexFacts.

Variable ic : bool.

Lemma clear_lookup r (c : caps) n :
  n ∉ groups r -> clear r c !! n = c !! n.
Proof.
  unfold clear. induction (groups r) as [|g gs IH]; simpl; intros Hn; [done|].
  apply not_elem_of_cons in Hn as [Hne Hn].
  rewrite lookup_delete_ne by done. auto.
Qed.

Lemma orElse_Some a b res :
  orElse a b = Some res -> a = Some res \/ (a = None /\ b = Some res).
Proof. destruct a; simpl; intros; [left; congruence | right; done]. Qed.

(** Whenever the matcher succeeds, it has split the input into a word of the
    expression and a rest on which the continuation succeeded, and it has
    changed no capture outside the expression. *)
Lemma rmatch_sound r : forall pos s c k res,
  rmatch ic r pos s c k = Some res ->
  exists w rest c',
    s = w ++ rest /\ den ic r pos w rest /\
    k (pos + length w)%nat rest c' = Some res /\
    (forall n, n ∉ groups r -> c' !! n = c !! n).
Proof.
  induction r as [|a|cl|r1 IH1 r2 IH2|r1 IH1 r2 IH2|r1 IH1|r1 IH1|g r1 IH1| |];
    intros pos s c k res H; simpl in H.
  - exists [], s, c. rewrite Nat.add_0_r. repeat split; auto. constructor.
  - destruct s as [|x s']; [done|]. destruct (sameChar ic a x) eqn:E; [|done].
    exists [x], s', c. simpl. rewrite Nat.add_1_r. repeat split; auto.
    by constructor.
  - destruct s as [|x s']; [done|]. destruct (inClass ic cl x) eqn:E; [|done].
    exists [x], s', c. simpl. rewrite Nat.add_1_r. repeat split; auto.
    by constructor.
  - apply IH1 in H as (w1 & rest1 & c1 & -> & D1 & H & F1).
    apply IH2 in H as (w2 & rest & c2 & -> & D2 & H & F2).
    exists (w1 ++ w2), rest, c2. rewrite length_app, Nat.add_assoc, <- app_assoc.
    repeat split; auto.
    + by constructor.
    + intros n Hn. simpl in Hn. rewrite elem_of_app in Hn.
      rewrite F2, F1; auto.
  - apply orElse_Some in H as [H | [_ H]].
    + apply IH1 in H as (w & rest & c' & -> & D & H & F).
      exists w, rest, c'. repeat split; auto. { by apply DAltL. }
      intros n Hn. simpl in Hn. rewrite elem_of_app in Hn. auto.
    + apply IH2 in H as (w & rest & c' & -> & D & H & F).
      exists w, rest, c'. repeat split; auto. { by apply DAltR. }
      intros n Hn. simpl in Hn. rewrite elem_of_app in Hn. auto.
  - apply orElse_Some in H as [H | [_ H]].
    + apply IH1 in H as (w & rest & c' & -> & D & H & F).
      destruct (pos + length w =? pos)%nat; [done|].
      exists w, rest, c'. repeat split; auto. { by apply DOptSome. }
      intros n Hn. rewrite F by done. by apply clear_lookup.
    + exists [], s, c. rewrite Nat.add_0_r. repeat split; auto. constructor.
  - revert H. generalize (length s) as fuel. intros fuel. revert pos s c.
    induction fuel as [|fuel IHf]; intros pos s c H.
    + exists [], s, c. rewrite Nat.add_0_r. repeat split; auto. constructor.
    + apply orElse_Some in H as [H | [_ H]].
      * apply IH1 in H as (w1 & rest1 & c1 & -> & D1 & H & F1).
        destruct (pos + length w1 =? pos)%nat; [done|].
        apply IHf in H as (w2 & rest & c2 & -> & D2 & H & F2).
        exists (w1 ++ w2), rest, c2.
        rewrite length_app, Nat.add_assoc, <- app_assoc.
        repeat split; auto.
        -- by constructor.
        -- intros n Hn. rewrite F2, F1 by done. by apply clear_lookup.
      * exists [], s, c. rewrite Nat.add_0_r. repeat split; auto. constructor.
  - apply IH1 in H as (w & rest & c' & -> & D & H & F).
    eexists w, rest, _. split; [done|]. split; [by constructor|].
    split; [exact H|].
    intros n Hn. simpl in Hn. apply not_elem_of_cons in Hn as [Hne Hn].
    rewrite lookup_insert_ne by done. auto.
  - destruct (pos =? 0)%nat eqn:E; [|done]. apply Nat.eqb_eq in E as ->.
    exists [], s, c. repeat split; auto. constructor.
  - destruct s; [|done].
    exists [], [], c. rewrite Nat.add_0_r. repeat split; auto. constructor.
Qed.

Lemma rmatch_seq r1 r2 pos s c k :
  rmatch ic (RSeq r1 r2) pos s c k
  = rmatch ic r1 pos s c (fun p' s' c' => rmatch ic r2 p' s' c' k).
Proof. reflexivity. Qed.

Lemma rmatch_group n r pos s c k :
  rmatch ic (RGroup n r) pos s c k
  = rmatch ic r pos s c (fun p' s' c' => k p' s' (<[n := take (p' - pos) s]> c')).
Proof. reflexivity. Qed.

Lemma rmatch_alt r1 r2 pos s c k :
  rmatch ic (RAlt r1 r2) pos s c k
  = orElse (rmatch ic r1 pos s c k) (rmatch ic r2 pos s c k).
Proof. reflexivity. Qed.

Lemma rmatch_star r pos s c k :
  rmatch ic (RStar r) pos s c k = starLoop ic r k (length s) pos s c.
Proof. reflexivity. Qed.

Lemma den_alpha r pos w rest :
  den ic r pos w rest -> Forall (fun x => alpha ic r x = true) w.
Proof.
  induction 1; simpl; try (by repeat constructor).
  - apply Forall_app; split.
    + eapply Forall_impl; [exact IHden1|]. simpl. by intros ? ->.
    + eapply Forall_impl; [exact IHden2|]. simpl. intros ? ->. apply orb_true_r.
  - eapply Forall_impl; [exact IHden|]. simpl. by intros ? ->.
  - eapply Forall_impl; [exact IHden|]. simpl. intros ? ->. apply orb_true_r.
  - by apply Forall_app.
Qed.

(** A successful search started a match at some suffix of the input. *)
Lemma search_Some r : forall s pos b e c,
  search ic r pos s = Some (b, e, c) ->
  exists pre t, s = pre ++ t /\ b = (pos + length pre)%nat /\
                rmatch ic r b t ∅ accept = Some (e, c).
Proof.
  induction s as [|x s IH]; intros pos b e c H; simpl in H.
  - destruct (rmatch ic r pos [] ∅ accept) as [[e' c']|] eqn:E; [|done].
    inversion H; subst. exists [], []. simpl. rewrite Nat.add_0_r. auto.
  - destruct (rmatch ic r pos (x :: s) ∅ accept) as [[e' c']|] eqn:E.
    + inversion H; subst. exists [], (x :: s). simpl. rewrite Nat.add_0_r. auto.
    + apply IH in H as (pre & t & -> & -> & H).
      exists (x :: pre), t. simpl. rewrite Nat.add_succ_r. auto.
Qed.

(** If the expression matches at no suffix, [matchAll] finds nothing. *)
Lemma scanAll_nil r : forall s pos skip,
  (forall pre t p, s = pre ++ t -> rmatch ic r p t ∅ accept = None) ->
  scanAll ic r pos s skip = [].
Proof.
  induction s as [|x s IH]; intros pos skip H.
  - destruct skip; simpl; [|done]. by rewrite (H [] [] pos).
  - assert (Hs : forall pre t p, s = pre ++ t -> rmatch ic r p t ∅ accept = None).
    { intros pre t p ->. apply (H (x :: pre) t p). done. }
    destruct skip; simpl.
    + rewrite (H [] (x :: s) pos) by done. by apply IH.
    + by apply IH.
Qed.

Lemma orElse_is_Some (a b : result) :
  is_Some (orElse a b) <-> is_Some a \/ is_Some b.
Proof.
  destruct a; simpl; split; eauto.
  intros [[? [=]]|?]; done.
Qed.

(** Success is monotone in the continuation. *)
Lemma rmatch_mono r : forall pos s c (k1 k2 : cont),
  (forall p' s' c', is_Some (k1 p' s' c') -> is_Some (k2 p' s' c')) ->
  is_Some (rmatch ic r pos s c k1) -> is_Some (rmatch ic r pos s c k2).
Proof.
  induction r as [|a|cl|r1 IH1 r2 IH2|r1 IH1 r2 IH2|r1 IH1|r1 IH1|g r1 IH1| |];
    intros pos s c k1 k2 Hk.
  - apply Hk.
  - simpl. destruct s; [done|]. destruct (sameChar ic a n); [apply Hk|done].
  - simpl. destruct s; [done|]. destruct (inClass ic cl n); [apply Hk|done].
  - rewrite !rmatch_seq. apply IH1. intros p' s' c'. by apply IH2.
  - rewrite !rmatch_alt, !orElse_is_Some. intros [H|H]; [left|right]; eauto.
  - simpl. rewrite !orElse_is_Some. intros [H|H]; [left|right; by apply Hk].
    revert H. apply IH1. intros p' s' c'.
    destruct (p' =? pos)%nat; [done|apply Hk].
  - rewrite !rmatch_star. generalize (length s) as fuel. intros fuel.
    revert pos s c. induction fuel as [|fuel IHf]; intros pos s c; [apply Hk|].
    cbn [starLoop]. rewrite !orElse_is_Some.
    intros [H|H]; [left|right; by apply Hk].
    revert H. apply IH1. intros p' s' c'.
    destruct (p' =? pos)%nat; [done|apply IHf].
  - rewrite !rmatch_group. apply IH1. intros p' s' c'. apply Hk.
  - simpl. destruct (pos =? 0)%nat; [apply Hk|done].
  - simpl. destruct s; [apply Hk|done].
Qed.

(** More fuel does not lose a success of the loop. *)
Lemma starLoop_fuel r k : forall f f' pos s c,
  (f <= f')%nat ->
  is_Some (starLoop ic r k f pos s c) -> is_Some (starLoop ic r k f' pos s c).
Proof.
  induction f as [|f IH]; intros f' pos s c Hf H.
  - destruct f'; [done|]. cbn [starLoop]. apply orElse_is_Some. by right.
  - destruct f' as [|f']; [lia|]. cbn [starLoop] in *.
    apply orElse_is_Some in H as [H|H]; apply orElse_is_Some; [left|by right].
    revert H. apply rmatch_mono. intros p' s' c'.
    destruct (p' =? pos)%nat; [done|]. apply IH. lia.
Qed.

(** Whenever the expression has a word at the cursor after which the
    continuation succeeds for every capture map, the matcher succeeds. *)
Lemma rmatch_complete r pos w rest :
  den ic r pos w rest ->
  forall c (k : cont),
    (forall c', is_Some (k (pos + length w)%nat rest c')) ->
    is_Some (rmatch ic r pos (w ++ rest) c k).
Proof.
  induction 1 as [pos rest|a x pos rest Hx|cl x pos rest Hx
                 |r1 r2 pos w1 w2 rest _ IH1 _ IH2
                 |r1 r2 pos w rest _ IH|r1 r2 pos w rest _ IH
                 |r pos rest|r pos w rest _ IH
                 |r pos rest|r pos w1 w2 rest _ IH1 _ IH2
                 |n r pos w rest _ IH|rest|pos]; intros c k Hk.
  - simpl in *. rewrite Nat.add_0_r in Hk. apply Hk.
  - simpl in *. rewrite Hx. rewrite Nat.add_1_r in Hk. apply Hk.
  - simpl in *. rewrite Hx. rewrite Nat.add_1_r in Hk. apply Hk.
  - rewrite rmatch_seq, <- app_assoc. apply IH1. intros c'. apply IH2.
    intros c''. specialize (Hk c''). by rewrite length_app, Nat.add_assoc in Hk.
  - rewrite rmatch_alt. apply orElse_is_Some. left. by apply IH.
  - rewrite rmatch_alt. apply orElse_is_Some. right. by apply IH.
  - simpl in *. apply orElse_is_Some. right. rewrite Nat.add_0_r in Hk. apply Hk.
  - cbn [rmatch]. apply orElse_is_Some.
    destruct w as [|x w].
    + right. simpl in *. rewrite Nat.add_0_r in Hk. apply Hk.
    + left. apply IH. intros c'.
      destruct (Nat.eqb_spec (pos + length (x :: w)) pos) as [E|_];
        [simpl in E; lia|apply Hk].
  - rewrite rmatch_star. simpl in *. rewrite Nat.add_0_r in Hk.
    destruct (length rest); cbn [starLoop]; [apply Hk|].
    apply orElse_is_Some. right. apply Hk.
  - destruct w1 as [|x w1].
    + simpl in *. rewrite Nat.add_0_r in IH2. by apply IH2.
    + rewrite rmatch_star. rewrite <- app_assoc.
      cbn [length app starLoop]. apply orElse_is_Some. left.
      apply (IH1 (clear r c)). intros c'.
      destruct (Nat.eqb_spec (pos + length (x :: w1)) pos) as [E|_];
        [simpl in E; lia|].
      apply (starLoop_fuel r k (length (w2 ++ rest))).
      { rewrite !length_app. lia. }
      rewrite <- rmatch_star. apply IH2. intros c''. specialize (Hk c'').
      by rewrite length_app, Nat.add_assoc in Hk.
  - rewrite rmatch_group. apply IH. intros c'. apply Hk.
  - simpl in *. apply Hk.
  - simpl in *. rewrite Nat.add_0_r in Hk. apply Hk.
Qed.

Lemma search_is_Some r w rest : forall pre pos,
  is_Some (rmatch ic r (pos + length pre)%nat (w ++ rest) ∅ accept) ->
  is_Some (search ic r pos (pre ++ w ++ rest)).
Proof.
  induction pre as [|x pre IH]; intros pos H; simpl in *.
  - rewrite Nat.add_0_r in H. destruct H as [[e c] H].
    destruct w, rest; simpl in *; rewrite H; eauto.
  - destruct (rmatch ic r pos (x :: pre ++ w ++ rest) ∅ accept) as [[e c]|];
      [eauto|].
    apply IH. by rewrite Nat.add_succ_comm.
Qed.

(** [matchAll] finds a match exactly when [test] succeeds. *)
Lemma scanAll_nonempty r : forall s pos,
  is_Some (search ic r pos s) <-> scanAll ic r pos s 0 <> [].
Proof.
  induction s as [|x s IH]; intros pos; simpl.
  - destruct (rmatch ic r pos [] ∅ accept) as [[e c]|]; [|by split; [intros [? [=]]|]].
    split; [done|eauto].
  - destruct (rmatch ic r pos (x :: s) ∅ accept) as [[e c]|]; [|apply IH].
    split; [done|eauto].
Qed.

Lemma matchAll_test r s :
  test ic r s = true <-> exists ms m, matchAll ic r s = ms ++ [m].
Proof.
  unfold test, matchAll.
  pose proof (scanAll_nonempty r s 0) as H.
  destruct (search ic r 0 s) as [x|].
  - split; [intros _|done].
    assert (Hne : scanAll ic r 0 s 0 <> []) by (apply H; eauto).
    destruct (scanAll ic r 0 s 0) as [|m ms] using rev_ind; [done|eauto].
  - split; [done|]. intros (ms & m & Hm). exfalso.
    assert (Hne : scanAll ic r 0 s 0 <> []) by (rewrite Hm; by destruct ms).
    apply H in Hne. by destruct Hne.
Qed.

Lemma matchAll_nil r s :
  test ic r s = false <-> matchAll ic r s = [].
Proof.
  unfold test, matchAll.
  pose proof (scanAll_nonempty r s 0) as H.
  destruct (search ic r 0 s) as [x|].
  - split; [done|]. intros E. exfalso. apply H; eauto.
  - split; [intros _|done].
    destruct (decide (scanAll ic r 0 s 0 = [])) as [E|E]; [done|].
    apply H in E. by destruct E.
Qed.

(** [re.test(s)] succeeds exactly when some part of [s] is a word of the
    expression at its position. *)
Theorem test_iff_den r s :
  test ic r s = true <->
  exists pre w rest, s = pre ++ w ++ rest /\ den ic r (length pre) w rest.
Proof.
  unfold test. split.
  - destruct (search ic r 0 s) as [[[b e] c]|] eqn:E; [|done].
    intros _. apply search_Some in E as (pre & t & -> & -> & H).
    apply rmatch_sound in H as (w & rest & c' & -> & D & _ & _).
    by exists pre, w, rest.
  - intros (pre & w & rest & -> & D).
    assert (is_Some (search ic r 0 (pre ++ w ++ rest))) as [x ->]; [|done].
    apply search_is_Some. apply rmatch_complete; [done|].
    intros c'. unfold accept. eauto.
Qed.

End RegexFacts.

Ltac invert H := inversion H; subst; clear H.

Section DenInversion.

Variable ic : bool.

Lemma den_seq_inv r1 r2 pos w rest :
  den ic (RSeq r1 r2) pos w rest ->
  exists w1 w2, w = w1 ++ w2 /\ den ic r1 pos w1 (w2 ++ rest) /\
                den ic r2 (pos + length w1) w2 rest.
Proof. intros H. invert H. eauto. Qed.

Lemma den_bol_inv pos w rest : den ic RBol pos w rest -> pos = 0%nat /\ w = [].
Proof. intros H. by invert H. Qed.

Lemma den_eol_inv pos w rest : den ic REol pos w rest -> w = [] /\ rest = [].
Proof. intros H. by invert H. Qed.

Lemma den_char_inv a pos w rest :
  den ic (RChar a) pos w rest -> exists x, w = [x] /\ sameChar ic a x = true.
Proof. intros H. invert H. eauto. Qed.

Lemma den_class_inv k pos w rest :
  den ic (RClass k) pos w rest -> exists x, w = [x] /\ inClass ic k x = true.
Proof. intros H. invert H. eauto. Qed.

Lemma den_opt_inv r pos w rest :
  den ic (ROpt r) pos w rest -> w = [] \/ den ic r pos w rest.
Proof. intros H. invert H; auto. Qed.

Lemma den_alt_inv r1 r2 pos w rest :
  den ic (RAlt r1 r2) pos w rest -> den ic r1 pos w rest \/ den ic r2 pos w rest.
Proof. intros H. invert H; auto. Qed.

Lemma den_group_inv n r pos w rest :
  den ic (RGroup n r) pos w rest -> den ic r pos w rest.
Proof. intros H. by invert H. Qed.

(** A word of [\d+] is a non-empty run of digits. *)
Lemma den_digits pos w rest :
  den ic (RPlus (RClass CDigit)) pos w rest ->
  w <> [] /\ Forall (fun x => isDigit x = true) w.
Proof.
  intros H. split.
  - apply den_seq_inv in H as (w1 & w2 & -> & H1 & _).
    apply den_class_inv in H1 as (x & -> & _). done.
  - apply den_alpha in H. eapply Forall_impl; [exact H|]. simpl.
    intros x Hx. by apply orb_true_iff in Hx as [Hx|Hx].
Qed.

End DenInversion.

(** ** Facts about the parser *)

Section ParserFacts.

Lemma takeDigits_all ds tl :
  Forall (fun x => isDigit x = true) ds ->
  match tl with [] => True | x :: _ => isDigit x = false end ->
  takeDigits (ds ++ tl) = ds /\ dropDigits (ds ++ tl) = tl.
Proof.
  intros Hd Ht. induction Hd as [|d ds Hd _ IH]; simpl.
  - destruct tl as [|x tl]; simpl; [done|]. by rewrite Ht.
  - rewrite Hd. destruct IH as [-> ->]. done.
Qed.

Lemma forallb_isDigit ds :
  Forall (fun x => isDigit x = true) ds -> forallb isDigit ds = true.
Proof. induction 1; simpl; [done|]. by apply andb_true_iff. Qed.

(** [Number] yields a number, not [NaN], on every word of [numberRe]. *)
Lemma Number_numberRe ic pos w rest :
  den ic numberRe pos w rest -> is_Some (Number_ w).
Proof.
  intros H. apply den_seq_inv in H as (w1 & w2 & -> & H1 & H2).
  apply den_digits in H1 as [Hne Hd].
  assert (Hhead : Number_ (w1 ++ w2) = parseUnsigned (w1 ++ w2)).
  { destruct w1 as [|d w1]; [done|]. simpl.
    destruct (d =? 45) eqn:E; [|done].
    apply N.eqb_eq in E as ->. by invert Hd. }
  rewrite Hhead. unfold parseUnsigned.
  apply den_opt_inv in H2 as [->|H2].
  - destruct (takeDigits_all w1 [] Hd I) as [-> ->].
    destruct w1; [done|]. by eexists.
  - apply den_seq_inv in H2 as (d & fr & -> & Hdot & Hfr).
    apply den_char_inv in Hdot as (x & -> & Hx).
    assert (x = 46) as ->.
    { unfold sameChar in Hx. destruct ic; [|by apply N.eqb_eq in Hx].
      apply N.eqb_eq in Hx. unfold upper in *. simpl in Hx.
      destruct ((97 <=? x) && (x <=? 122)) eqn:E; [|done].
      apply andb_true_iff in E as [E1 E2].
      apply N.leb_le in E1. lia. }
    apply den_digits in Hfr as [Hfne Hfd].
    destruct (takeDigits_all w1 ([46] ++ fr) Hd eq_refl) as [-> ->].
    simpl. rewrite (forallb_isDigit _ Hfd).
    destruct w1; [done|]. destruct fr; [done|]. simpl. by eexists.
Qed.

(** A line that passes the numeric test consists of digits, minus signs and
    dots. *)
Lemma numeric_chars s :
  test false numericRe s = true ->
  Forall (fun x => isDigit x = true \/ x = 45 \/ x = 46) s.
Proof.
  unfold test. destruct (search false numericRe 0 s) as [[[b e] c]|] eqn:E; [|done].
  intros _. apply search_Some in E as (pre & t & -> & -> & H).
  apply rmatch_sound in H as (w & rest & c' & -> & D & _ & _).
  pose proof (den_alpha _ _ _ _ _ D) as Ha.
  unfold numericRe in D.
  apply den_seq_inv in D as (w1 & w2 & -> & D1 & D).
  apply den_bol_inv in D1 as [Hp ->].
  destruct pre; [|done]. clear Hp. cbn [app length] in *.
  apply den_seq_inv in D as (w1 & w3 & -> & _ & D).
  apply den_seq_inv in D as (w4 & w5 & -> & _ & D).
  apply den_seq_inv in D as (w6 & w7 & -> & _ & D).
  apply den_eol_inv in D as [-> ->]. rewrite !app_nil_r in *.
  eapply Forall_impl; [exact Ha|]. intros x Hx.
  unfold numericRe, RPlus in Hx. cbn [alpha inClass] in Hx.
  unfold sameChar in Hx. rewrite !orb_true_iff, !N.eqb_eq in Hx.
  naive_solver.
Qed.

(** Every match of the bandwidth pattern contains a [b]. *)
Lemma bandwidth_needs_b pos w rest :
  den true bandwidthRe pos w rest -> exists x, x ∈ w /\ upper x = 66.
Proof.
  intros D. unfold bandwidthRe in D.
  apply den_seq_inv in D as (w1 & w2 & -> & _ & D).
  apply den_seq_inv in D as (w3 & w4 & -> & _ & D).
  apply den_seq_inv in D as (w5 & w6 & -> & _ & D).
  apply den_seq_inv in D as (w7 & w8 & -> & _ & D).
  assert (exists x tl, w8 = x :: tl /\ upper x = 66) as (x & tl & -> & Hx).
  { unfold unitRe in D.
    repeat (apply den_alt_inv in D as [D|D]);
      apply den_seq_inv in D as (u1 & u2 & -> & D & _);
      apply den_char_inv in D as (x & -> & Hx);
      exists x, u2; (split; [done|]);
      unfold sameChar in Hx; apply N.eqb_eq in Hx; by rewrite <- Hx. }
  exists x. split; [|done]. set_solver.
Qed.

Lemma numeric_no_bandwidth s :
  test false numericRe s = true -> matchAll true bandwidthRe s = [].
Proof.
  intros Hn. apply numeric_chars in Hn.
  apply scanAll_nil. intros pre t p ->.
  destruct (rmatch true bandwidthRe p t ∅ accept) as [res|] eqn:E; [|done].
  exfalso.
  apply rmatch_sound in E as (w & rest & c' & -> & D & _ & _).
  apply bandwidth_needs_b in D as (x & Hin & Hx).
  rewrite Forall_forall in Hn.
  assert (Hx' : x ∈ pre ++ w ++ rest) by set_solver.
  apply Hn in Hx'. unfold upper, isDigit in *.
  destruct ((97 <=? x) && (x <=? 122)) eqn:E1.
  - apply andb_true_iff in E1 as [E1 E2]. apply N.leb_le in E1, E2.
    destruct Hx' as [Hd|[->| ->]]; [|lia..].
    apply andb_true_iff in Hd as [_ Hd]. apply N.leb_le in Hd. lia.
  - destruct Hx' as [Hd|[->| ->]]; [|lia..].
    apply andb_true_iff in Hd as [_ Hd]. apply N.leb_le in Hd. lia.
Qed.

(** Every element of [matchAll] is the capture map of a successful match. *)
Lemma scanAll_elem ic r m : forall s pos skip,
  m ∈ scanAll ic r pos s skip ->
  exists p t e, rmatch ic r p t ∅ accept = Some (e, m).
Proof.
  induction s as [|x s IH]; intros pos skip H.
  - destruct skip; simpl in H; [|by apply elem_of_nil in H].
    destruct (rmatch ic r pos [] ∅ accept) as [[e c]|] eqn:E;
      [|by apply elem_of_nil in H].
    apply list_elem_of_singleton in H as ->. eauto.
  - destruct skip; simpl in H; [|by eapply IH].
    destruct (rmatch ic r pos (x :: s) ∅ accept) as [[e c]|] eqn:E;
      [|by eapply IH].
    apply elem_of_cons in H as [->|H]; [eauto|by eapply IH].
Qed.

(** Group 1 of a match of the bandwidth pattern is the text of a number. *)
Lemma bandwidth_capture p t e m :
  rmatch true bandwidthRe p t ∅ accept = Some (e, m) ->
  exists w rest, m !! 1%nat = Some w /\ den true numberRe p w rest.
Proof.
  intros H. unfold bandwidthRe in H. rewrite rmatch_seq, rmatch_group in H.
  apply rmatch_sound in H as (w & rest & c' & -> & D & H & _).
  cbv beta in H.
  apply rmatch_sound in H as (w2 & rest2 & c2 & -> & D2 & H & F).
  unfold accept in H. invert H.
  exists w, (w2 ++ rest2). split; [|done].
  rewrite F by (vm_compute; set_solver).
  rewrite lookup_insert_eq. f_equal.
  replace (p + length w - p)%nat with (length w) by lia.
  by rewrite take_app_length.
Qed.

Lemma upper_eq_upper (x a : N) :
  65 <= a <= 90 -> upper x = a <-> x = a \/ x = a + 32.
Proof.
  intros Ha. unfold upper.
  destruct ((97 <=? x) && (x <=? 122)) eqn:E.
  - apply andb_true_iff in E as [E1 E2]. apply N.leb_le in E1, E2. lia.
  - apply andb_false_iff in E as [E|E]; apply N.leb_gt in E; lia.
Qed.

Lemma toUpperCase_single (p : jsstring) (a : N) :
  65 <= a <= 90 -> toUpperCase p = [a] <-> p = [a] \/ p = [a + 32].
Proof.
  intros Ha. destruct p as [|x [|y p]]; simpl.
  - naive_solver.
  - split.
    + intros [= H]. apply upper_eq_upper in H; naive_solver.
    + intros [[= ->]|[= ->]]; f_equal; apply upper_eq_upper; auto.
  - naive_solver.
Qed.

(** The conversion of the code is the product of the two factors of the
    specification. *)
Lemma toSelectedUnits_scales (val : Q) (prefix : option jsstring) (units : jsstring) :
  (toSelectedUnits val (Some (orDefault prefix (lit "M"))) units
   == val * prefixScale prefix * unitScale units)%Q.
Proof.
  unfold toSelectedUnits, prefixScale, unitScale.
  assert (HK : bool_decide (toUpperCase (orDefault (Some (orDefault prefix (lit "M"))) (lit "M")) = lit "K")
               = bool_decide (prefix = Some (lit "K")) || bool_decide (prefix = Some (lit "k"))).
  { apply eq_true_iff_eq. rewrite orb_true_iff, !bool_decide_eq_true.
    change (lit "K") with [75]. change (lit "k") with [75 + 32].
    rewrite toUpperCase_single by lia.
    destruct prefix as [[|x p]|]; simpl; naive_solver. }
  assert (HG : bool_decide (toUpperCase (orDefault (Some (orDefault prefix (lit "M"))) (lit "M")) = lit "G")
               = bool_decide (prefix = Some (lit "G")) || bool_decide (prefix = Some (lit "g"))).
  { apply eq_true_iff_eq. rewrite orb_true_iff, !bool_decide_eq_true.
    change (lit "G") with [71]. change (lit "g") with [71 + 32].
    rewrite toUpperCase_single by lia.
    destruct prefix as [[|x p]|]; simpl; naive_solver. }
  rewrite HK, HG.
  destruct (bool_decide (prefix = Some (lit "K")) || bool_decide (prefix = Some (lit "k")));
  destruct (bool_decide (prefix = Some (lit "G")) || bool_decide (prefix = Some (lit "g")));
  destruct (bool_decide (units = lit "Kbps"));
  destruct (bool_decide (units = lit "Gbps")); field.
Qed.

(** What the parser returns on a line with at least one match. *)
Lemma extractBandwidth_last (line units : jsstring) (ms : list caps) (m : caps) :
  matchAll true bandwidthRe (trim line) = ms ++ [m] ->
  exists val,
    Number_ (default [] (m !! 1%nat)) = Some val /\
    extractBandwidth line units
    = Some (toSelectedUnits val (Some (orDefault (m !! 2%nat) (lit "M"))) units).
Proof.
  intros Hm. unfold extractBandwidth.
  destruct (test false numericRe (trim line)) eqn:En.
  { apply numeric_no_bandwidth in En. rewrite En in Hm. by destruct ms. }
  rewrite Hm. unfold lastMatch. rewrite last_snoc.
  assert (Hin : m ∈ scanAll true bandwidthRe 0 (trim line) 0).
  { fold (matchAll true bandwidthRe (trim line)). rewrite Hm. set_solver. }
  apply scanAll_elem in Hin as (p & t & e & Hr).
  apply bandwidth_capture in Hr as (w & rest & Hw & D).
  rewrite Hw. simpl default.
  apply Number_numberRe in D as [val Hv].
  exists val. rewrite Hv. done.
Qed.

End ParserFacts.

(** ** The anchored patterns in words *)

Section PatternFacts.

Variable ic : bool.

Lemma den_star_class cl : forall ds pos rest,
  Forall (fun x => inClass ic cl x = true) ds ->
  den ic (RStar (RClass cl)) pos ds rest.
Proof.
  induction ds as [|d ds IH]; intros pos rest H; [constructor|].
  invert H. apply (DStarCons ic (RClass cl) pos [d] ds rest).
  - by constructor.
  - by apply IH.
Qed.

Lemma den_digits_intro ds pos rest :
  isDigits ds -> den ic (RPlus (RClass CDigit)) pos ds rest.
Proof.
  intros [Hne Hd]. destruct ds as [|d ds]; [done|]. invert Hd.
  apply (DSeq ic (RClass CDigit) (RStar (RClass CDigit)) pos [d] ds rest).
  - by constructor.
  - by apply den_star_class.
Qed.

Lemma den_digits_iff ds pos rest :
  den ic (RPlus (RClass CDigit)) pos ds rest <-> isDigits ds.
Proof. split; [apply den_digits|apply den_digits_intro]. Qed.

Lemma sameChar_ascii a x :
  a < 65 -> sameChar ic a x = true <-> x = a.
Proof.
  intros Ha. unfold sameChar. destruct ic; rewrite N.eqb_eq; [|naive_solver].
  unfold upper.
  destruct ((97 <=? a) && (a <=? 122)) eqn:E1.
  { apply andb_true_iff in E1 as [E1 _]. apply N.leb_le in E1. lia. }
  destruct ((97 <=? x) && (x <=? 122)) eqn:E2; [|naive_solver].
  apply andb_true_iff in E2 as [E2 E3]. apply N.leb_le in E2, E3. lia.
Qed.

(** The optional fraction, whether its group captures or not. *)
Lemma den_fraction_iff (wrap : regex -> regex) fr pos rest :
  (forall r p w t, den ic (wrap r) p w t <-> den ic r p w t) ->
  den ic (ROpt (wrap (RSeq (RChar 46) (RPlus (RClass CDigit))))) pos fr rest
  <-> isFraction fr.
Proof.
  intros Hwrap. split.
  - intros D. apply den_opt_inv in D as [->|D]; [by left|right].
    apply (proj1 (Hwrap _ _ _ _)) in D.
    apply den_seq_inv in D as (w1 & ds & -> & D1 & D2).
    apply den_char_inv in D1 as (x & -> & Hx).
    apply sameChar_ascii in Hx as ->; [|lia].
    exists ds. split; [done|]. by eapply den_digits.
  - intros [->|(ds & -> & Hd)]; [constructor|].
    apply DOptSome, (proj2 (Hwrap _ _ _ _)).
    apply (DSeq ic (RChar 46) _ pos [46] ds rest).
    + constructor. by apply sameChar_ascii.
    + by apply den_digits_intro.
Qed.

Lemma den_seq_nil_r r1 r2 pos w rest :
  den ic r1 pos w rest -> den ic r2 (pos + length w) [] rest ->
  den ic (RSeq r1 r2) pos w rest.
Proof.
  intros H1 H2. rewrite <- (app_nil_r w). by apply DSeq.
Qed.

Lemma den_group_iff n r p w t : den ic (RGroup n r) p w t <-> den ic r p w t.
Proof. split; [apply den_group_inv|by constructor]. Qed.

End PatternFacts.

(** The numeric test accepts exactly the signed decimal numbers. *)
Lemma numeric_iff (s : jsstring) :
  test false numericRe s = true <-> isSignedDecimal s.
Proof.
  rewrite test_iff_den. unfold numericRe. split.
  - intros (pre & w & rest & -> & D).
    apply den_seq_inv in D as (w0 & w1 & -> & D0 & D).
    apply den_bol_inv in D0 as [Hp ->]. destruct pre; [|done].
    apply den_seq_inv in D as (sign & w2 & -> & Dsign & D).
    apply den_seq_inv in D as (ip & w3 & -> & Dip & D).
    apply den_seq_inv in D as (fr & w4 & -> & Dfr & D).
    apply den_eol_inv in D as [-> ->].
    exists sign, ip, fr. rewrite !app_nil_r. simpl. split; [done|].
    split; [|split].
    + apply den_opt_inv in Dsign as [->|Dsign]; [by left|right].
      apply den_char_inv in Dsign as (x & -> & Hx).
      by apply sameChar_ascii in Hx as ->.
    + by eapply den_digits.
    + by apply (den_fraction_iff false (RGroup 1)) in Dfr;
        [|apply den_group_iff].
  - intros (sign & ip & fr & -> & Hsign & Hip & Hfr).
    exists [], (sign ++ ip ++ fr), []. split; [by rewrite app_nil_r|].
    apply (DSeq false RBol _ 0 [] (sign ++ ip ++ fr) []); [constructor|].
    apply (DSeq false _ _ _ sign (ip ++ fr) []).
    { destruct Hsign as [-> | ->]; [constructor|].
      apply DOptSome. by constructor. }
    apply (DSeq false _ _ _ ip fr []); [by apply den_digits_intro|].
    apply den_seq_nil_r; [|constructor].
    by apply (den_fraction_iff false (RGroup 1)); [apply den_group_iff|].
Qed.

(** The bandwidth field is accepted exactly when it is a number with one of
    the suffixes. *)
Lemma bandwidthArg_iff (s : jsstring) :
  test true bandwidthArgRe s = true <-> isBandwidthArg s.
Proof.
  rewrite test_iff_den. unfold bandwidthArgRe. split.
  - intros (pre & w & rest & -> & D).
    apply den_seq_inv in D as (w0 & w1 & -> & D0 & D).
    apply den_bol_inv in D0 as [Hp ->]. destruct pre; [|done].
    apply den_seq_inv in D as (ip & w3 & -> & Dip & D).
    apply den_seq_inv in D as (fr & w4 & -> & Dfr & D).
    apply den_seq_inv in D as (sx & w5 & -> & Dx & D).
    apply den_eol_inv in D as [-> ->].
    apply den_class_inv in Dx as (x & -> & Hx).
    exists ip, fr, x. rewrite !app_nil_r. simpl. split; [done|].
    split; [by eapply den_digits|]. split.
    + by apply (den_fraction_iff true (RGroup 1)) in Dfr;
        [|apply den_group_iff].
    + change (lit "KMG") with [75; 77; 71] in Hx.
      cbn [inClass existsb] in Hx. unfold sameChar in Hx.
      rewrite !orb_true_iff, !N.eqb_eq in Hx.
      change (upper 75) with 75 in Hx. change (upper 77) with 77 in Hx.
      change (upper 71) with 71 in Hx. naive_solver.
  - intros (ip & fr & x & -> & Hip & Hfr & Hx).
    exists [], (ip ++ fr ++ [x]), []. split; [by rewrite app_nil_r|].
    apply (DSeq true RBol _ 0 [] (ip ++ fr ++ [x]) []); [constructor|].
    apply (DSeq true _ _ _ ip (fr ++ [x]) []); [by apply den_digits_intro|].
    apply (DSeq true _ _ _ fr [x] []).
    { by apply (den_fraction_iff true (RGroup 1)); [apply den_group_iff|]. }
    apply den_seq_nil_r; [|constructor].
    constructor. change (lit "KMG") with [75; 77; 71].
    cbn [inClass existsb]. unfold sameChar.
    rewrite !orb_true_iff, !N.eqb_eq.
    change (upper 75) with 75. change (upper 77) with 77.
    change (upper 71) with 71. naive_solver.
Qed.

(** [Number] yields a number on every signed decimal number. *)
Lemma Number_signedDecimal (s : jsstring) :
  isSignedDecimal s -> is_Some (Number_ s).
Proof.
  intros (sign & ip & fr & -> & Hsign & Hip & Hfr).
  assert (D : den false numberRe 0 (ip ++ fr) []).
  { apply (DSeq false _ _ _ ip fr []); [by apply den_digits_intro|].
    by apply (den_fraction_iff false (fun r => r)). }
  apply Number_numberRe in D.
  destruct Hsign as [-> | ->]; [done|].
  destruct Hip as [Hne Hd]. destruct ip as [|d ip]; [done|].
  simpl in *. destruct D as [v Hv].
  assert (Hd45 : (d =? 45) = false).
  { invert Hd. apply N.eqb_neq. intros ->. done. }
  rewrite Hd45 in Hv. rewrite Hv. by eexists.
Qed.

(** ** Facts about the link test and the quality verdict *)

Section StatsFacts.

Lemma orElse_is_Some_r (a b : result) : is_Some b -> is_Some (orElse a b).
Proof. destruct a; simpl; eauto. Qed.

Lemma orElse_is_Some_l (a b : result) : is_Some a -> is_Some (orElse a b).
Proof. by intros [x ->]. Qed.

(** A literal matches every word that equals it up to case. *)
Lemma rmatch_lit (l : jsstring) : forall w pos rest c,
  l <> [] -> toUpperCase w = toUpperCase l ->
  rmatch true (RLit l) pos (w ++ rest) c accept
  = Some ((pos + length w)%nat, c).
Proof.
  induction l as [|a l IH]; intros w pos rest c Hne Hw; [done|].
  destruct w as [|x w]; [done|]. injection Hw as Hx Hw.
  destruct l as [|b l].
  - destruct w; [|done]. simpl. unfold sameChar. rewrite Hx, N.eqb_refl.
    unfold accept. by rewrite Nat.add_1_r.
  - change (RLit (a :: b :: l)) with (RSeq (RChar a) (RLit (b :: l))).
    rewrite rmatch_seq. simpl app. cbn [rmatch]. unfold sameChar.
    rewrite Hx, N.eqb_refl. rewrite IH by done.
    simpl. by rewrite Nat.add_succ_r.
Qed.

(** Conversely a word of a literal equals it up to case. *)
Lemma den_lit (l : jsstring) : forall pos w rest,
  l <> [] -> den true (RLit l) pos w rest -> toUpperCase w = toUpperCase l.
Proof.
  induction l as [|a l IH]; intros pos w rest Hne D; [done|].
  destruct l as [|b l].
  - simpl in D. apply den_char_inv in D as (x & -> & Hx).
    unfold sameChar in Hx. apply N.eqb_eq in Hx. simpl. by rewrite Hx.
  - change (RLit (a :: b :: l)) with (RSeq (RChar a) (RLit (b :: l))) in D.
    apply den_seq_inv in D as (w1 & w2 & -> & D1 & D2).
    apply den_char_inv in D1 as (x & -> & Hx).
    unfold sameChar in Hx. apply N.eqb_eq in Hx.
    apply IH in D2; [|done]. simpl in *. by rewrite Hx, D2.
Qed.

(** The link test is a case-insensitive search for one of three words. *)
Lemma linkDown_iff (s : jsstring) :
  test true linkDownRe s = true <->
  containsCI (lit "down") s \/ containsCI (lit "disconnected") s
  \/ containsCI (lit "no") s.
Proof.
  unfold test. split.
  - destruct (search true linkDownRe 0 s) as [[[b e] c]|] eqn:E; [|done].
    intros _. apply search_Some in E as (pre & t & -> & _ & H).
    apply rmatch_sound in H as (w & rest & c' & -> & D & _ & _).
    unfold linkDownRe in D.
    apply den_alt_inv in D as [D|D]; [|apply den_alt_inv in D as [D|D]];
      apply den_lit in D; try done.
    + left. by exists pre, w, rest.
    + right; left. by exists pre, w, rest.
    + right; right. by exists pre, w, rest.
  - intros H.
    assert (is_Some (search true linkDownRe 0 s)) as [x ->]; [|done].
    unfold linkDownRe.
    destruct H as [H|[H|H]]; destruct H as (pre & w & post & -> & Hw);
      apply search_is_Some; rewrite !rmatch_alt.
    + apply orElse_is_Some_l. rewrite rmatch_lit by done. eauto.
    + apply orElse_is_Some_r, orElse_is_Some_l. rewrite rmatch_lit by done. eauto.
    + apply orElse_is_Some_r, orElse_is_Some_r. rewrite rmatch_lit by done. eauto.
Qed.

Lemma prefix_differs (a b x : jsstring) (n : nat) (u v : N) :
  a !! n = Some u -> b !! n = Some v -> u <> v -> a ++ x <> b.
Proof.
  intros Ha Hb Hne Heq. subst b.
  rewrite (lookup_app_l_Some _ _ _ _ Ha) in Hb. congruence.
Qed.

(** Only the link branch produces the label [BAD (link)]. *)
Lemma label_link_only pe dr crc linkText :
  label (computeQuality pe dr crc linkText) = lit "BAD (link)" <->
  test true linkDownRe linkText = true.
Proof.
  unfold computeQuality.
  destruct (test true linkDownRe linkText); [done|].
  split; [|done]. intros H. exfalso.
  destruct (0 <? crc)%Z.
  { cbn [label] in H. revert H.
    by apply (prefix_differs _ _ _ 5%nat 67 108); [vm_compute..|]. }
  destruct (pe + dr =? 0)%Z; [by vm_compute in H|].
  destruct (pe + dr <=? 5)%Z; cbn [label] in H; revert H.
  - by apply (prefix_differs _ _ _ 0%nat 87 66); [vm_compute..|].
  - by apply (prefix_differs _ _ _ 5%nat 43 108); [vm_compute..|].
Qed.

End StatsFacts.

(** ** Facts about the session controller *)

Arguments extractBandwidth : simpl never.
Arguments test : simpl never.
Arguments trim : simpl never.
Arguments toFixed2 : simpl never.
Arguments showNum : simpl never.
Arguments updateGauge : simpl never.
Arguments resetGauge : simpl never.
Arguments initGauge : simpl never.
Arguments lit : simpl never.
Arguments startsWith : simpl never.
Arguments NO_DATA_MS : simpl never.
Arguments set_avgEl _ _ /.
Arguments set_bandwidthCount _ _ /.
Arguments set_bandwidthSum _ _ /.
Arguments set_eventSource _ _ /.
Arguments set_gaugeSt _ _ /.
Arguments set_lastCmd _ _ /.
Arguments set_maxBandwidth _ _ /.
Arguments set_maxEl _ _ /.
Arguments set_noDataTimer _ _ /.
Arguments set_overlayCloseDisplay _ _ /.
Arguments set_overlayDisplay _ _ /.
Arguments set_overlayText _ _ /.
Arguments set_resultEl _ _ /.
Arguments set_runBtnDisabled _ _ /.
Arguments set_sources _ _ /.
Arguments set_startPending _ _ /.
Arguments set_statusEl _ _ /.
Arguments set_windowES _ _ /.
Arguments hideOverlay _ /.
Arguments showOverlay _ _ _ /.
Arguments appendResult _ _ /.
Arguments onPage _ _ /.
Arguments onRun _ _ _ /.
Arguments stopNoDataTimer _ _ /.

Lemma onlyOpen_closeIn l o a : onlyOpen l o -> onlyOpen (closeIn a l) o.
Proof.
  intros H j Hj. apply H. destruct a as [k|]; simpl in Hj; [|done].
  destruct (decide (k = j)) as [->|Hne].
  - apply list_lookup_insert_Some in Hj. naive_solver.
  - by rewrite list_lookup_insert_ne in Hj.
Qed.

Lemma closeIn_all_closed l o :
  onlyOpen l o -> forall j, closeIn o l !! j <> Some true.
Proof.
  intros H j Hj. destruct o as [k|]; simpl in Hj.
  - destruct (decide (k = j)) as [->|Hne].
    + apply list_lookup_insert_Some in Hj. naive_solver.
    + rewrite list_lookup_insert_ne in Hj by done. apply H in Hj. naive_solver.
  - by apply H in Hj.
Qed.

Lemma sources_closeSource a p : sources (closeSource a p) = closeIn a (sources p).
Proof. by destruct a. Qed.

Lemma windowES_closeSource a p : windowES (closeSource a p) = windowES p.
Proof. by destruct a. Qed.

(** What [cleanup] with [closeStream] does to the connections. *)
Lemma cleanup_sources reset i w :
  sources (pg (cleanup reset true i w))
  = closeIn (windowES (pg w))
      (closeIn ((runs w !! i) ≫= eventSource) (sources (pg w)))
  /\ windowES (pg (cleanup reset true i w)) = None.
Proof.
  unfold cleanup, stopNoDataTimer.
  destruct reset; simpl; rewrite !sources_closeSource, ?windowES_closeSource;
    rewrite list_lookup_alter_eq; destruct (runs w !! i); done.
Qed.

Lemma cleanup_eventSource reset i w r :
  runs w !! i = Some r ->
  exists r', runs (cleanup reset true i w) !! i = Some r' /\ eventSource r' = None
             /\ noDataTimer r' = None /\ lastCmd r' = lastCmd r
             /\ esObj r' = esObj r.
Proof.
  intros Hr. unfold cleanup, stopNoDataTimer.
  destruct reset; simpl; rewrite !list_lookup_alter_eq, Hr; simpl; eauto 10.
Qed.

Lemma cleanup_closes_all reset i w :
  connInv w ->
  (forall j, sources (pg (cleanup reset true i w)) !! j <> Some true)
  /\ windowES (pg (cleanup reset true i w)) = None.
Proof.
  intros H. destruct (cleanup_sources reset i w) as [-> ->]. split; [|done].
  apply closeIn_all_closed. by apply onlyOpen_closeIn.
Qed.

Lemma cleanup_connInv reset i w : connInv w -> connInv (cleanup reset true i w).
Proof.
  intros H j Hj. by apply (cleanup_closes_all reset i w H) in Hj.
Qed.

Lemma pg_armNoDataTimer now i w : pg (armNoDataTimer now i w) = pg w.
Proof. unfold armNoDataTimer. by destruct (runs w !! i). Qed.

Lemma connInv_ext w w' :
  sources (pg w') = sources (pg w) -> windowES (pg w') = windowES (pg w) ->
  connInv w -> connInv w'.
Proof. unfold connInv. by intros -> ->. Qed.

Lemma connInv_arm now i w : connInv w -> connInv (armNoDataTimer now i w).
Proof. apply connInv_ext; by rewrite pg_armNoDataTimer. Qed.

Lemma connInv_onPage f w :
  (forall p, sources (f p) = sources p /\ windowES (f p) = windowES p) ->
  connInv w -> connInv (onPage f w).
Proof. intros Hf. apply connInv_ext; simpl; apply Hf. Qed.

Lemma connInv_onRun i f w : connInv w -> connInv (onRun i f w).
Proof. by apply connInv_ext. Qed.

Lemma connInv_close a w : connInv w -> connInv (onPage (closeSource a) w).
Proof.
  unfold connInv. simpl. rewrite sources_closeSource, windowES_closeSource.
  apply onlyOpen_closeIn.
Qed.

Ltac conn_step :=
  first
    [ assumption
    | apply cleanup_connInv
    | apply connInv_arm
    | apply connInv_onRun
    | apply connInv_onPage;
      [ intros ?; simpl; repeat case_match; simpl;
        rewrite ?sources_closeSource, ?windowES_closeSource; done | ] ].

Ltac conn_tac := cbv zeta; repeat case_match; repeat conn_step.

Lemma onMessage_connInv now i data w :
  connInv w -> connInv (onMessage now i data w).
Proof. intros H. unfold onMessage. conn_tac. Qed.

Lemma onError_connInv now i closed w :
  connInv w -> connInv (onError now i closed w).
Proof. intros H. unfold onError. conn_tac. Qed.

Lemma onNoDataTimeout_connInv i w :
  connInv w -> connInv (onNoDataTimeout i w).
Proof. intros H. unfold onNoDataTimeout. conn_tac. Qed.

Lemma onStartOk_connInv i cmd w : connInv w -> connInv (onStartOk i cmd w).
Proof. intros H. unfold onStartOk. conn_tac. Qed.

Lemma onStartThrow_connInv i msg w : connInv w -> connInv (onStartThrow i msg w).
Proof. intros H. unfold onStartThrow. conn_tac. Qed.

Lemma onStartNotOk_connInv i msg w : connInv w -> connInv (onStartNotOk i msg w).
Proof.
  intros H. unfold onStartNotOk. cbv zeta.
  apply onStartThrow_connInv. conn_tac.
Qed.

(** The connections after a click: the EventSource [window.__iperfES] referred
    to is closed, a new one is appended and becomes [window.__iperfES]. *)
Lemma onClick_sources now f cid w :
  sources (pg (fst (onClick now f cid w)))
  = closeIn (windowES (pg w)) (sources (pg w)) ++ [true]
  /\ windowES (pg (fst (onClick now f cid w))) = Some (length (sources (pg w))).
Proof.
  unfold onClick. cbv zeta. cbn [fst]. rewrite pg_armNoDataTimer. simpl.
  rewrite !sources_closeSource.
  destruct (windowES (pg w)); simpl; by rewrite ?length_insert.
Qed.

Lemma onClick_connInv now f cid w :
  connInv w -> connInv (fst (onClick now f cid w)).
Proof.
  intros H j Hj. destruct (onClick_sources now f cid w) as [Hs Hw].
  rewrite Hs in Hj. rewrite Hw.
  assert (Hlen : length (closeIn (windowES (pg w)) (sources (pg w)))
                 = length (sources (pg w))).
  { destruct (windowES (pg w)); simpl; by rewrite ?length_insert. }
  apply lookup_app_Some in Hj as [Hj|[Hge Hj]].
  - by apply closeIn_all_closed in Hj.
  - rewrite Hlen in *. apply list_lookup_singleton_Some in Hj as [Hj _].
    f_equal. lia.
Qed.

Lemma step_connInv now e w w' : connInv w -> step now e w = Some w' -> connInv w'.
Proof.
  intros H Hs. destruct e; cbn [step] in Hs; repeat case_match;
    simplify_eq.
  - by apply onClick_connInv.
  - by apply connInv_arm.
  - by apply onMessage_connInv.
  - apply onError_connInv. by apply connInv_close.
  - by apply onError_connInv.
  - by apply onNoDataTimeout_connInv.
  - apply onStartOk_connInv. by apply connInv_onRun.
  - apply onStartNotOk_connInv. by apply connInv_onRun.
  - apply onStartThrow_connInv. by apply connInv_onRun.
  - conn_tac.
  - conn_tac.
Qed.

(** In every reachable state of the page, an open EventSource is the one
    [window.__iperfES] refers to. *)
Lemma reachable_connInv units0 w : reachable units0 w -> connInv w.
Proof.
  induction 1 as [|w now e w' _ IH Hs].
  - intros j Hj. done.
  - by eapply step_connInv.
Qed.

Lemma filter_none_open (l : list bool) :
  (forall k, l !! k <> Some true) -> filter (fun b => b = true) l = [].
Proof.
  induction l as [|b l IH]; intros H; [done|].
  destruct b; [by destruct (H 0%nat)|].
  rewrite filter_cons_False by done. apply IH. intros k. apply (H (S k)).
Qed.

Lemma onlyOpen_count l o :
  onlyOpen l o -> (length (filter (fun b => b = true) l) <= 1)%nat.
Proof.
  intros H.
  assert (Hj : forall j b, l !! j = Some b -> b = true -> o = Some j).
  { intros j b Hl ->. by apply H. }
  clear H. revert o Hj. induction l as [|b l IH]; intros o Hj; simpl; [lia|].
  destruct b.
  - rewrite filter_cons_True by done. simpl.
    assert (Hl : filter (fun b => b = true) l = []).
    { apply filter_none_open. intros k Hk.
      pose proof (Hj 0%nat true eq_refl eq_refl) as H0.
      pose proof (Hj (S k) true Hk eq_refl) as H1. congruence. }
    rewrite Hl. simpl. lia.
  - rewrite filter_cons_False by done.
    apply (IH (pred <$> o)). intros j b Hl ->.
    by rewrite (Hj (S j) true Hl eq_refl).
Qed.


Section TerminationFacts.

Lemma bool_decide_lit_false (a b : jsstring) :
  bool_decide (a = b) = false -> forall P : Prop, a = b -> P.
Proof. intros H P Hab. by rewrite bool_decide_eq_false in H. Qed.

(** The listener on the end marker. *)
Lemma onMessage_end now i data w r :
  runs w !! i = Some r -> trim data = lit "-1" ->
  onMessage now i data w
  = cleanup false true i
      (onPage (set_maxEl (showNum (maxBandwidth (pg w)) ++ lit " " ++ units r))
         (onPage (set_avgEl
                    ((if (0 <? bandwidthCount (pg w))%Z
                      then toFixed2 (bandwidthSum (pg w)
                                     / inject_Z (bandwidthCount (pg w)))%Q
                      else lit "0.00") ++ lit " " ++ units r))
            (onPage (set_statusEl (lit "Complete")) (armNoDataTimer now i w)))).
Proof.
  intros Hr Ht. unfold onMessage. rewrite Hr, Ht. cbv zeta.
  rewrite pg_armNoDataTimer.
  change (bool_decide (lit "-1" = []) || bool_decide (lit "-1" = lit "ping"))
    with false.
  change (bool_decide (lit "-1" = lit "-1")) with true. done.
Qed.

(** The listener on the busy message. *)
Lemma onMessage_busy now i data w r :
  runs w !! i = Some r -> trim data = lit "server is busy" ->
  onMessage now i data w
  = cleanup true true i
      (onPage (appendResult (lit "server is busy" ++ nl))
         (onPage (set_statusEl (lit "Server is Busy")) (armNoDataTimer now i w))).
Proof.
  intros Hr Ht. unfold onMessage. rewrite Hr, Ht. cbv zeta.
  change (bool_decide (lit "server is busy" = [])
          || bool_decide (lit "server is busy" = lit "ping")) with false.
  change (bool_decide (lit "server is busy" = lit "-1")) with false.
  change (bool_decide (lit "server is busy" = lit "server is busy")) with true.
  done.
Qed.



Lemma streamOpen_run i w :
  streamOpen i w = true -> exists r, runs w !! i = Some r.
Proof. unfold streamOpen. destruct (runs w !! i); [eauto|done]. Qed.


End TerminationFacts.

Section SampleFacts.

Lemma runs_armNoDataTimer now i w r :
  runs w !! i = Some r ->
  runs (armNoDataTimer now i w) !! i
  = Some (set_noDataTimer (Some (now + NO_DATA_MS (mode r))%Z) r).
Proof.
  intros Hr. unfold armNoDataTimer. rewrite Hr. simpl.
  by rewrite !list_lookup_alter_eq, Hr.
Qed.






(** The click handler in one step. *)
Lemma onClick_world now f cid w :
  fst (onClick now f cid w)
  = armNoDataTimer now (length (runs w))
      {| pg := clickedPage f (pg w);
         runs := runs w ++ [newRun f (length (sources (pg w)))] |}.
Proof.
  unfold onClick. cbv zeta. cbn [fst]. f_equal. simpl.
  rewrite !sources_closeSource. unfold clickedPage, newRun.
  destruct (windowES (pg w)); simpl; by rewrite ?length_insert.
Qed.


End SampleFacts.

(** ** Facts about the gauge scale *)

Section GaugeFacts.

Local Open Scope Q_scope.



































End GaugeFacts.

(** ** More facts about [cleanup] and the listeners *)

Lemma cleanup_pg reset i w :
  pg (cleanup reset true i w)
  = set_windowES None
      (set_sources
         (closeIn (windowES (pg w))
            (closeIn ((runs w !! i) ≫= eventSource) (sources (pg w))))
         (let p := set_runBtnDisabled false (hideOverlay (pg w)) in
          if reset then set_gaugeSt (resetGauge (gaugeSt p)) p else p)).
Proof.
  unfold cleanup. destruct reset; simpl; rewrite list_lookup_alter_eq;
    destruct (runs w !! i) as [r|]; simpl;
    try destruct (eventSource r); destruct (windowES (pg w)); reflexivity.
Qed.

Lemma runs_onMessage now i data w :
  endsStream data = false ->
  runs (onMessage now i data w) = runs (armNoDataTimer now i w).
Proof.
  intros He. apply orb_false_iff in He as [He1 He2].
  unfold onMessage. destruct (runs w !! i) as [r|] eqn:Hr.
  - rewrite He1, He2. cbv zeta. repeat case_match; reflexivity.
  - unfold armNoDataTimer. by rewrite Hr.
Qed.

Lemma onMessage_heartbeat now i data w r :
  runs w !! i = Some r ->
  trim data = [] \/ trim data = lit "ping" ->
  onMessage now i data w = armNoDataTimer now i w.
Proof.
  intros Hr H. unfold onMessage. rewrite Hr. cbv zeta.
  by destruct H as [-> | ->].
Qed.

Lemma timerDue_after i w r t d :
  runs w !! i = Some r -> noDataTimer r = Some d -> (t < d)%Z ->
  step t (NoDataTimeout i) w = None.
Proof.
  intros Hr Hd Ht. cbn [step]. unfold timerDue. rewrite Hr, Hd.
  destruct (Z.leb_spec d t); [lia|done].
Qed.

Lemma timerDue_stopped i w r t :
  runs w !! i = Some r -> noDataTimer r = None ->
  step t (NoDataTimeout i) w = None.
Proof. intros Hr Hd. cbn [step]. unfold timerDue. by rewrite Hr, Hd. Qed.

(** ** Worked examples *)

(** A report line of iperf3. *)
Example ex_report_line :
  extractBandwidth (lit "[  5]   0.00-1.00   sec   112 MBytes   941 Mbits/sec")
    (lit "Mbps") = Some 941%Q.
Proof. by vm_compute. Qed.

(** The matcher backtracks out of "12.5" and finds the figure "5.7 k". *)
Example ex_backtracking :
  extractBandwidth (lit "12.5.7 kbits/sec") (lit "Mbps") = Some (5.7 / 1000)%Q.
Proof. by vm_compute. Qed.

(** The end marker is a bare number. *)
Example ex_end_marker :
  extractBandwidth (lit " -1 ") (lit "Kbps") = Some (-1)%Q.
Proof. by vm_compute. Qed.

(** A status line has no figure. *)
Example ex_status_line :
  extractBandwidth (lit "Connecting to host 192.168.10.2, port 5201") (lit "Mbps")
  = None.
Proof. by vm_compute. Qed.

(** The captures of three successive matches; the last unit is matched by
    the alternative [bit\/s]. *)
Example ex_matchAll :
  map (fun m => (m !! 1%nat, m !! 2%nat))
    (matchAll true bandwidthRe (lit "5 Mbits/sec, 3.5 gbit/s, 7bit/sec"))
  = [(Some (lit "5"), Some (lit "M")); (Some (lit "3.5"), Some (lit "g"));
     (Some (lit "7"), None)].
Proof. by vm_compute. Qed.

Example ex_toFixed :
  toFixed2 110 = lit "110.00" /\ toFixed2 (2 # 3) = lit "0.67"
  /\ toFixed2 (-(1 # 8)) = lit "-0.13" /\ showNum 0.941 = lit "0.941".
Proof. by vm_compute. Qed.

(** The link text of a link that is up at 1000 Mb/s. *)
Example ex_renderLinkInfo :
  renderLinkInfo (Some {| link_ok := true; link_link := lit " up ";
                          link_speed := lit "1000Mb/s" |})
  = lit "up" ++ linkSep ++ lit "1000Mb/s".
Proof. by vm_compute. Qed.

(** The busy message resets the gauge and enables the start control. *)
Example ex_server_busy :
  let w := onMessage 5 0 (lit "server is busy")
             (fst (onClick 0 exampleForm (lit "cid") (world0 (lit "Mbps")))) in
  statusEl (pg w) = lit "Server is Busy"
  /\ runBtnDisabled (pg w) = false
  /\ sources (pg w) = [false]
  /\ option_map needle (gauge (gaugeSt (pg w))) = Some 0%Q.
Proof. by vm_compute. Qed.

(** * The claims of the specification *)

(** ** Statistics aggregator *)



(** C10.  The verdict is BAD (link) exactly when the rendered link text
    matches [/down|disconnected|no/i], whatever the counters are; every link
    text that contains "no", in any case and anywhere, is BAD (link). *)
Theorem C10_link_verdict_is_regex_test (st : stats) :
  (label (qualityBadge (updateStatsCards st)) = lit "BAD (link)"
   <-> test true linkDownRe (renderLinkInfo (link st)) = true) /\
  (forall (pe dr crc : Z) (linkText : jsstring),
     label (computeQuality pe dr crc linkText) = lit "BAD (link)"
     <-> test true linkDownRe linkText = true) /\
  (forall (pe dr crc : Z) (pre post : jsstring) (n o : N),
     upper n = 78 -> upper o = 79 ->
     label (computeQuality pe dr crc (pre ++ [n; o] ++ post)) = lit "BAD (link)").
Proof.
  split; [|split].
  - unfold updateStatsCards. cbn [qualityBadge]. apply label_link_only.
  - intros. apply label_link_only.
  - intros pe dr crc pre post n o Hn Ho. apply label_link_only, linkDown_iff.
    right; right. exists pre, [n; o], post. split; [done|].
    simpl. by rewrite Hn, Ho.
Qed.

(** A link that is up at an unknown speed is BAD (link), because "Unknown"
    contains "no". *)
Lemma C10_witness :
  label (qualityBadge (updateStatsCards
           {| link := Some {| link_ok := true; link_link := lit "Up";
                              link_speed := lit "Unknown!" |};
              delta := ∅ |})) = lit "BAD (link)".
Proof.
  destruct (C10_link_verdict_is_regex_test
              {| link := Some {| link_ok := true; link_link := lit "Up";
                                 link_speed := lit "Unknown!" |};
                 delta := ∅ |}) as [H _].
  apply H. reflexivity.
Defined.

(** C6.  A snapshot whose only CRC/FCS counter is one of the alias keys that
    the sum reads, with value zero, is shown as "n/a" and not as "0". *)
Theorem C6_alias_key_shown_as_na :
  let d : gmap string Z := {[ "crc_errors"%string := 0%Z ]} in
  "crc_errors"%string ∈ crcKeys
  /\ hasOwnProperty d "crc_errors" = true
  /\ crcDeltaText (updateStatsCards {| link := None; delta := d |}) = lit "n/a".
Proof. cbv zeta. split; [set_solver|]. split; reflexivity. Qed.

(** ** Unit/value parser *)

(** C3 (as amended).  On a line with a bandwidth figure the parser returns
    the number of the last figure scaled by its prefix (K divides by 1000, G
    multiplies by 1000, M or no prefix leaves it unchanged) and by the
    display unit (Kbps multiplies by 1000, Gbps divides by 1000, Mbps leaves
    it unchanged); "941 Mbits/sec" gives 941, 0.941 and 941000.  A line
    without a figure gives not-a-number unless its trimmed text is a bare
    signed decimal number, which is returned unconverted. *)
Theorem C3_bandwidth_conversion :
  (forall (line units : jsstring),
     test true bandwidthRe (trim line) = true ->
     exists ms m val r,
       matchAll true bandwidthRe (trim line) = ms ++ [m] /\
       Number_ (default [] (m !! 1%nat)) = Some val /\
       extractBandwidth line units = Some r /\
       (r == val * prefixScale (m !! 2%nat) * unitScale units)%Q) /\
  (forall (line units : jsstring),
     test true bandwidthRe (trim line) = false ->
     (~ isSignedDecimal (trim line) -> extractBandwidth line units = None) /\
     (isSignedDecimal (trim line) ->
        exists v, Number_ (trim line) = Some v
                  /\ extractBandwidth line units = Some v)) /\
  extractBandwidth (lit "941 Mbits/sec") (lit "Mbps") = Some 941%Q /\
  extractBandwidth (lit "941 Mbits/sec") (lit "Gbps") = Some 0.941%Q /\
  extractBandwidth (lit "941 Mbits/sec") (lit "Kbps") = Some 941000%Q.
Proof.
  split; [|split; [|split; [|split]]]; [| |by vm_compute..].
  - intros line units Ht. apply matchAll_test in Ht as (ms & m & Hm).
    destruct (extractBandwidth_last line units ms m Hm) as (val & Hv & He).
    exists ms, m, val. eexists. split; [done|]. split; [done|].
    split; [exact He|]. apply toSelectedUnits_scales.
  - intros line units Ht.
    assert (Hm : matchAll true bandwidthRe (trim line) = [])
      by (by apply matchAll_nil).
    unfold extractBandwidth. rewrite Hm. split.
    + intros Hn. rewrite <- numeric_iff in Hn.
      by destruct (test false numericRe (trim line)).
    + intros Hn. destruct (Number_signedDecimal _ Hn) as [v Hv].
      apply numeric_iff in Hn. rewrite Hn. eauto.
Qed.

(** A report line of iperf3, read in Gbps. *)
Lemma C3_witness :
  exists r, extractBandwidth (lit "[  5] 0.00-1.00 sec 112 MBytes 941 Mbits/sec")
              (lit "Gbps") = Some r
            /\ (r == 0.941)%Q.
Proof.
  destruct C3_bandwidth_conversion as [H _].
  destruct (H (lit "[  5] 0.00-1.00 sec 112 MBytes 941 Mbits/sec") (lit "Gbps"))
    as (ms & m & val & r & Hm & Hv & Hr & Hq); [by vm_compute|].
  exists r. split; [exact Hr|].
  vm_compute in Hr. injection Hr as <-. by vm_compute.
Defined.

(** The bare number "42" contains no bandwidth figure, and the parser returns
    42 for it, not the not-a-number sentinel. *)
Lemma C3_counterexample :
  test true bandwidthRe (trim (lit "42")) = false
  /\ matchAll true bandwidthRe (trim (lit "42")) = []
  /\ extractBandwidth (lit "42") (lit "Mbps") = Some 42%Q
  /\ extractBandwidth (lit "42") (lit "Mbps") <> None.
Proof. split; [|split; [|split]]; by vm_compute. Qed.

(** C5.  When a line contains several bandwidth figures the parser returns
    the conversion of the last one; the earlier matches have no influence on
    the result. *)
Theorem C5_last_match_only (line units : jsstring) (ms : list caps) (m : caps) :
  matchAll true bandwidthRe (trim line) = ms ++ [m] ->
  (exists val,
     Number_ (default [] (m !! 1%nat)) = Some val /\
     extractBandwidth line units
     = Some (toSelectedUnits val (Some (orDefault (m !! 2%nat) (lit "M"))) units)) /\
  (forall (line' : jsstring) (ms' : list caps),
     matchAll true bandwidthRe (trim line') = ms' ++ [m] ->
     extractBandwidth line' units = extractBandwidth line units).
Proof.
  intros Hm. split.
  - by apply (extractBandwidth_last line units ms m).
  - intros line' ms' Hm'.
    destruct (extractBandwidth_last line units ms m Hm) as (v & Hv & ->).
    destruct (extractBandwidth_last line' units ms' m Hm') as (v' & Hv' & ->).
    congruence.
Qed.

(** A line that restates 5 Mbits/sec before the final 3.5 Gbits/sec. *)
Lemma C5_witness :
  extractBandwidth (lit "was 5 Mbits/sec, now 3.5 Gbits/sec") (lit "Mbps")
  = Some (3.5 * 1000)%Q
  /\ length (matchAll true bandwidthRe
               (trim (lit "was 5 Mbits/sec, now 3.5 Gbits/sec"))) = 2%nat.
Proof.
  pose (line := lit "was 5 Mbits/sec, now 3.5 Gbits/sec").
  pose (l := matchAll true bandwidthRe (trim line)).
  destruct (C5_last_match_only line (lit "Mbps")
              (take (length l - 1) l) (default ∅ (last l)))
    as [(val & Hv & Hr) _].
  { by vm_compute. }
  split; [|by vm_compute].
  fold line. rewrite Hr.
  assert (val = 3.5%Q) as -> by (vm_compute in Hv; congruence).
  by vm_compute.
Defined.

(** ** Session controller *)





(** C8.  Every frame re-arms the inactivity timer of its run with a full
    window, heartbeats and empty frames included (for them this is all the
    listener does), so that after a frame handled at time [now] the timeout
    cannot fire before [now] plus the window; the frames that end the run stop
    the timer for good.  The window of a download is longer than that of
    every other direction.  When the timeout fires the status becomes Error,
    the log gets the timeout message followed by the last known command if
    one was captured, the start control is enabled again and the connection
    is dropped. *)
Theorem C8_inactivity_timer (now : Z) (i : nat) (data : jsstring) (w : world)
    (r : run) :
  runs w !! i = Some r ->
  let w' := onMessage now i data w in
  (endsStream data = false ->
     (runs w' !! i) ≫= noDataTimer = Some (now + NO_DATA_MS (mode r))%Z /\
     forall t, (t < now + NO_DATA_MS (mode r))%Z ->
               step t (NoDataTimeout i) w' = None) /\
  (trim data = [] \/ trim data = lit "ping" -> w' = armNoDataTimer now i w) /\
  (endsStream data = true ->
     (runs w' !! i) ≫= noDataTimer = None /\
     forall t, step t (NoDataTimeout i) w' = None) /\
  (forall m, m <> lit "download" ->
             (NO_DATA_MS m < NO_DATA_MS (lit "download"))%Z) /\
  (forall t w2,
     step t (NoDataTimeout i) w = Some w2 ->
     statusEl (pg w2) = lit "Error" /\
     resultEl (pg w2)
     = (resultEl (pg w) ++ lit "Timeout: Keine Daten vom Stream erhalten." ++ nl)
         ++ (if bool_decide (lastCmd r = []) then []
             else lit "Letzter CMD: " ++ lastCmd r ++ nl) /\
     runBtnDisabled (pg w2) = false /\
     windowES (pg w2) = None /\
     (runs w2 !! i) ≫= eventSource = None).
Proof.
  intros Hr w'. split; [|split; [|split; [|split]]].
  - intros He. unfold w'.
    assert (Hr' : runs (onMessage now i data w) !! i
                  = Some (set_noDataTimer (Some (now + NO_DATA_MS (mode r))%Z) r)).
    { rewrite runs_onMessage by done. by apply runs_armNoDataTimer. }
    split; [by rewrite Hr'|].
    intros t Ht. by eapply timerDue_after.
  - intros H. by eapply onMessage_heartbeat.
  - intros He. unfold w'.
    assert (exists reset w1, onMessage now i data w = cleanup reset true i w1
                             /\ runs w1 !! i
                                = Some (set_noDataTimer
                                          (Some (now + NO_DATA_MS (mode r))%Z) r))
      as (reset & w1 & -> & Hr1).
    { apply orb_true_iff in He as [He|He]; apply bool_decide_eq_true in He.
      - eexists _, _. split; [by apply (onMessage_end _ _ _ _ r)|].
        simpl. by apply runs_armNoDataTimer.
      - eexists _, _. split; [by apply (onMessage_busy _ _ _ _ r)|].
        simpl. by apply runs_armNoDataTimer. }
    destruct (cleanup_eventSource reset i w1 _ Hr1) as (r2 & Hr2 & _ & Ht & _).
    split; [by rewrite Hr2|]. intros t. by eapply timerDue_stopped.
  - intros m Hm. unfold NO_DATA_MS. rewrite bool_decide_eq_false_2 by done.
    by rewrite bool_decide_eq_true_2.
  - intros t w2 Hs. cbn [step] in Hs. destruct (timerDue t i w); [|done].
    simplify_eq. unfold onNoDataTimeout. rewrite Hr. cbv zeta.
    rewrite cleanup_pg.
    assert (Hrun : forall w1, runs w1 = runs w ->
              (runs (cleanup true true i w1) !! i) ≫= eventSource = None).
    { intros w1 Hw1.
      destruct (cleanup_eventSource true i w1 r) as (r2 & -> & He & _);
        [by rewrite Hw1|done]. }
    destruct (bool_decide (lastCmd r = [])); simpl;
      rewrite ?app_nil_r; repeat split; try done; by apply Hrun.
Qed.

(** A heartbeat five milliseconds into a download re-arms the timer to
    45005, so no timeout can fire at 45004. *)
Lemma C8_witness :
  let w := fst (onClick 0 exampleForm (lit "cid") (world0 (lit "Mbps"))) in
  let w' := onMessage 5 0 (lit "ping") w in
  (runs w' !! 0%nat) ≫= noDataTimer = Some 45005%Z
  /\ step 45004 (NoDataTimeout 0) w' = None.
Proof.
  cbv zeta.
  destruct (C8_inactivity_timer 5 0 (lit "ping")
              (fst (onClick 0 exampleForm (lit "cid") (world0 (lit "Mbps"))))
              (set_noDataTimer (Some 45000%Z) (newRun exampleForm 0)))
    as [H _]; [by vm_compute|].
  destruct H as [H1 H2]; [by vm_compute|].
  split; [exact H1|]. apply H2. by vm_compute.
Defined.

(** C9.  The trimmed bandwidth text matches [/^\d+(\.\d+)?[KMG]$/i]
    exactly when it is a number, optionally with decimals, followed by one of
    K, M, G in either case.  When it does not, the start request carries the
    bandwidth "0"; the page after the click is the same whatever the text is,
    so nothing tells the user.  A matching text is sent as entered
    (trimmed). *)
Theorem C9_invalid_bandwidth_sent_as_zero (now : Z) (f : form) (cid : jsstring)
    (w : world) :
  let entered := trim (f_bandwidth f) in
  (test true bandwidthArgRe entered = true <-> isBandwidthArg entered) /\
  (~ isBandwidthArg entered ->
     req_bandwidth (snd (onClick now f cid w)) = lit "0") /\
  (isBandwidthArg entered ->
     req_bandwidth (snd (onClick now f cid w)) = entered) /\
  (forall b, fst (onClick now (withBandwidth b f) cid w) = fst (onClick now f cid w)) /\
  statusEl (pg (fst (onClick now f cid w))) = lit "Starting" /\
  resultEl (pg (fst (onClick now f cid w))) = lit "Running iPerf3..." ++ nl.
Proof.
  intros entered.
  split; [apply bandwidthArg_iff|]. split; [|split; [|split; [|split]]].
  - intros H. rewrite <- bandwidthArg_iff in H.
    unfold onClick. cbv zeta. cbn [snd req_bandwidth]. fold entered.
    by destruct (test true bandwidthArgRe entered).
  - intros H. apply bandwidthArg_iff in H.
    unfold onClick. cbv zeta. cbn [snd req_bandwidth]. fold entered.
    by rewrite H.
  - intros b. by rewrite !onClick_world.
  - by rewrite onClick_world, pg_armNoDataTimer.
  - by rewrite onClick_world, pg_armNoDataTimer.
Qed.

(** The texts "fast", "10" and "10 M" are sent as "0"; "1.5g" is sent as
    it is. *)
Lemma C9_witness :
  req_bandwidth (snd (onClick 0 (withBandwidth (lit " fast ") exampleForm)
                        (lit "cid") (world0 (lit "Mbps")))) = lit "0"
  /\ req_bandwidth (snd (onClick 0 (withBandwidth (lit "10 M") exampleForm)
                           (lit "cid") (world0 (lit "Mbps")))) = lit "0"
  /\ req_bandwidth (snd (onClick 0 (withBandwidth (lit " 1.5g ") exampleForm)
                           (lit "cid") (world0 (lit "Mbps")))) = lit "1.5g".
Proof.
  split; [|split].
  - destruct (C9_invalid_bandwidth_sent_as_zero 0
                (withBandwidth (lit " fast ") exampleForm) (lit "cid")
                (world0 (lit "Mbps"))) as (Hiff & H & _).
    apply H. intros Hb. apply Hiff in Hb. by vm_compute in Hb.
  - destruct (C9_invalid_bandwidth_sent_as_zero 0
                (withBandwidth (lit "10 M") exampleForm) (lit "cid")
                (world0 (lit "Mbps"))) as (Hiff & H & _).
    apply H. intros Hb. apply Hiff in Hb. by vm_compute in Hb.
  - destruct (C9_invalid_bandwidth_sent_as_zero 0
                (withBandwidth (lit " 1.5g ") exampleForm) (lit "cid")
                (world0 (lit "Mbps"))) as (Hiff & _ & H & _).
    rewrite H; [by vm_compute|]. apply Hiff. by vm_compute.
Defined.

(** ** Gauge presenter *)

Section GaugeClaims.

Local Open Scope Q_scope.




End GaugeClaims.

(** * Further properties of the code *)

(** ** Counter sums and the statistics cards *)

Section StatsMore.

Local Open Scope Z_scope.

Lemma sumKeys_from (obj : gmap string Z) keys : forall a,
  fold_left (fun s k => match obj !! k with Some v => s + v | None => s end) keys a
  = a + sumKeys obj keys.
Proof.
  unfold sumKeys. induction keys as [|k keys IH]; intros a; simpl; [lia|].
  rewrite IH, (IH (match obj !! k with Some v => 0 + v | None => 0 end)).
  destruct (obj !! k); lia.
Qed.

Lemma sumKeys_cons (obj : gmap string Z) k keys :
  sumKeys obj (k :: keys) = default 0 (obj !! k) + sumKeys obj keys.
Proof.
  unfold sumKeys at 1. simpl. rewrite sumKeys_from. destruct (obj !! k); simpl; lia.
Qed.

Lemma sumKeys_insert_ne (obj : gmap string Z) keys k v :
  k ∉ keys -> sumKeys (<[k := v]> obj) keys = sumKeys obj keys.
Proof.
  induction keys as [|x keys IH]; intros Hk; [done|].
  rewrite !sumKeys_cons, IH by set_solver.
  rewrite lookup_insert_ne by set_solver. done.
Qed.

Lemma sumKeys_missing (obj : gmap string Z) keys :
  (forall k, k ∈ keys -> obj !! k = None) -> sumKeys obj keys = 0.
Proof.
  induction keys as [|x keys IH]; intros H; [done|].
  rewrite sumKeys_cons, IH, H by set_solver. done.
Qed.

Lemma showZ_head z :
  exists c t, showZ z = c :: t /\ (isDigit c = true \/ c = 45%N).
Proof.
  unfold showZ. destruct (Z.to_int z) as [d|d]; destruct d; vm_compute; eauto.
Qed.

Lemma showZ_not_na z : showZ z <> lit "n/a".
Proof.
  destruct (showZ_head z) as (c & t & -> & [H| ->]); vm_compute; [|congruence].
  intros E. injection E as -> _. by vm_compute in H.
Qed.

Lemma renderLinkInfo_unknown lk :
  lk = None \/ (exists l, lk = Some l /\ link_ok l = false) ->
  renderLinkInfo lk = dashes.
Proof. intros [-> | (l & -> & H)]; simpl; [done|]. by rewrite H. Qed.

Lemma sumKeys_insert (obj : gmap string Z) keys k v :
  NoDup keys ->
  sumKeys (<[k := v]> obj) keys
  = sumKeys obj keys
    + (if bool_decide (k ∈ keys) then v - default 0 (obj !! k) else 0).
Proof.
  intros Hnd. induction Hnd as [|y keys Hy Hnd IH]; [done|].
  rewrite !sumKeys_cons. destruct (decide (k = y)) as [->|Hne].
  - rewrite lookup_insert_eq, sumKeys_insert_ne by done.
    rewrite bool_decide_eq_true_2 by set_solver. simpl. lia.
  - rewrite lookup_insert_ne, IH by done.
    destruct (bool_decide (k ∈ keys)) eqn:E.
    + apply bool_decide_eq_true in E.
      rewrite bool_decide_eq_true_2 by set_solver. lia.
    + apply bool_decide_eq_false in E.
      rewrite bool_decide_eq_false_2 by set_solver. lia.
Qed.

(** X1.  Setting a counter of the snapshot changes the sum over a list of
    distinct keys by the difference to its old value (0 when it was absent)
    if the counter is listed, and not at all otherwise; removing it takes
    its value out again. *)
Theorem sumKeys_insert_delete (obj : gmap string Z) keys k v :
  NoDup keys ->
  sumKeys (<[k := v]> obj) keys
  = sumKeys obj keys
    + (if bool_decide (k ∈ keys) then v - default 0 (obj !! k) else 0)
  /\ sumKeys (delete k obj) keys
     = sumKeys obj keys
       - (if bool_decide (k ∈ keys) then default 0 (obj !! k) else 0).
Proof.
  intros Hnd. split; [by apply sumKeys_insert|].
  destruct (obj !! k) as [x|] eqn:E.
  - rewrite <- (insert_delete_id obj k x E) at 2.
    rewrite sumKeys_insert, lookup_delete_eq by done. simpl.
    destruct (bool_decide (k ∈ keys)); lia.
  - rewrite delete_id by done. simpl. destruct (bool_decide (k ∈ keys)); lia.
Qed.

Lemma sumKeys_insert_delete_witness :
  sumKeys (<["tx_errors"%string := 4]> {["rx_errors"%string := 3]})
    ["rx_errors"; "tx_errors"]%string = 7
  /\ sumKeys (delete "rx_errors"%string {["rx_errors"%string := 3]})
       ["rx_errors"; "tx_errors"]%string = 0.
Proof.
  destruct (sumKeys_insert_delete {["rx_errors"%string := 3]}
              ["rx_errors"; "tx_errors"]%string "tx_errors"%string 4) as [H1 _].
  { repeat constructor; set_solver. }
  destruct (sumKeys_insert_delete {["rx_errors"%string := 3]}
              ["rx_errors"; "tx_errors"]%string "rx_errors"%string 4) as [_ H2].
  { repeat constructor; set_solver. }
  rewrite H1, H2. by vm_compute.
Defined.

(** X2.  While the Windows error counters do not sum to 0, the packet-error
    card shows their sum and does not react to any other counter of the
    snapshot, the Linux error counters included; the same holds for the
    Windows discards and the drop card. *)
Theorem windows_counters_shadow (st : stats) (k : string) (v : Z) :
  k ∉ ["ReceivedErrors"; "OutboundErrors"; "ReceivedDiscarded";
       "OutboundDiscarded"]%string ->
  let st' := {| link := link st; delta := <[k := v]> (delta st) |} in
  (sumKeys (delta st) ["ReceivedErrors"; "OutboundErrors"]%string <> 0 ->
   pktErrDeltaText (updateStatsCards st)
   = showZ (sumKeys (delta st) ["ReceivedErrors"; "OutboundErrors"]%string)
   /\ pktErrDeltaText (updateStatsCards st') = pktErrDeltaText (updateStatsCards st)
   /\ pktErrDeltaClass (updateStatsCards st') = pktErrDeltaClass (updateStatsCards st))
  /\ (sumKeys (delta st) ["ReceivedDiscarded"; "OutboundDiscarded"]%string <> 0 ->
      dropDeltaText (updateStatsCards st)
      = showZ (sumKeys (delta st) ["ReceivedDiscarded"; "OutboundDiscarded"]%string)
      /\ dropDeltaText (updateStatsCards st') = dropDeltaText (updateStatsCards st)
      /\ dropDeltaClass (updateStatsCards st') = dropDeltaClass (updateStatsCards st)).
Proof.
  intros Hk st'.
  assert (Hk1 : k ∉ ["ReceivedErrors"; "OutboundErrors"]%string) by set_solver.
  assert (Hk2 : k ∉ ["ReceivedDiscarded"; "OutboundDiscarded"]%string) by set_solver.
  split; intros Hw; unfold updateStatsCards, st'; cbn -[sumKeys showZ lit];
    rewrite ?(sumKeys_insert_ne _ _ k v Hk1), ?(sumKeys_insert_ne _ _ k v Hk2);
    unfold orZ; apply Z.eqb_neq in Hw; rewrite !Hw; done.
Qed.

Lemma windows_counters_shadow_witness :
  pktErrDeltaText
    (updateStatsCards
       {| link := None;
          delta := <["rx_errors"%string := 100]>
                     {["ReceivedErrors"%string := 2; "rx_errors"%string := 7]} |})
  = lit "2".
Proof.
  destruct (windows_counters_shadow
              {| link := None;
                 delta := {["ReceivedErrors"%string := 2; "rx_errors"%string := 7]} |}
              "rx_errors"%string 100) as [H _].
  { set_solver. }
  destruct H as (H1 & H2 & _).
  { by vm_compute. }
  etrans; [exact H2|]. etrans; [exact H1|]. by vm_compute.
Defined.

(** X3.  Without a link object, or with one whose query failed, the link
    card shows two dashes and the badge is never "BAD (link)". *)
Theorem unknown_link_not_flagged (st : stats) :
  link st = None \/ (exists l, link st = Some l /\ link_ok l = false) ->
  linkInfoText (updateStatsCards st) = lit "--"
  /\ label (qualityBadge (updateStatsCards st)) <> lit "BAD (link)".
Proof.
  intros H. apply renderLinkInfo_unknown in H.
  unfold updateStatsCards. cbn -[sumKeys showZ lit computeQuality renderLinkInfo].
  rewrite H. split; [done|]. rewrite label_link_only. by vm_compute.
Qed.

Lemma unknown_link_not_flagged_witness :
  label (qualityBadge (updateStatsCards
           {| link := Some {| link_ok := false; link_link := lit "down";
                              link_speed := [] |};
              delta := ∅ |})) <> lit "BAD (link)".
Proof.
  apply unknown_link_not_flagged. right. eexists. split; reflexivity.
Defined.

(** X4.  The CRC card reads "n/a" exactly when the six CRC/FCS counters sum
    to nothing positive and neither [rx_crc_errors] nor [rx_fcs_errors] is
    in the snapshot; a positive sum is printed, a sum of 0 or below never
    is: the card then reads "0" or "n/a". *)
Theorem crc_card_na (st : stats) :
  (crcDeltaText (updateStatsCards st) = lit "n/a" <->
   sumKeys (delta st) crcKeys <= 0
   /\ delta st !! "rx_crc_errors"%string = None
   /\ delta st !! "rx_fcs_errors"%string = None)
  /\ ((0 < sumKeys (delta st) crcKeys
       /\ crcDeltaText (updateStatsCards st) = showZ (sumKeys (delta st) crcKeys))
      \/ (sumKeys (delta st) crcKeys <= 0
          /\ (crcDeltaText (updateStatsCards st) = lit "0"
              \/ crcDeltaText (updateStatsCards st) = lit "n/a"))).
Proof.
  unfold updateStatsCards. cbn -[sumKeys showZ lit crcKeys]. unfold hasOwnProperty.
  destruct (Z.ltb_spec 0 (sumKeys (delta st) crcKeys)) as [Hc|Hc].
  - split; [|by left]. split; [|lia]. intros H. by apply showZ_not_na in H.
  - split.
    + destruct (delta st !! "rx_crc_errors"%string) as [a|] eqn:E1;
        destruct (delta st !! "rx_fcs_errors"%string) as [b|] eqn:E2;
        repeat (rewrite bool_decide_eq_true_2 by eauto);
        repeat (rewrite bool_decide_eq_false_2 by (intros [? ?]; done));
        cbn [orb]; (split; [intros H|intros (_ & H1 & H2)]); try done;
        exfalso; by vm_compute in H.
    + right. split; [done|]. destruct (bool_decide _ || bool_decide _); auto.
Qed.

(** X5.  The class of the badge in terms of its inputs: "ok" exactly when
    the link text does not signal a link that is down, the CRC sum is not
    positive and errors plus drops are 0; "warn" exactly when the first two
    hold and errors plus drops are a non-zero number up to 5, negative
    numbers included.  The class is "ok" exactly when the label is "OK". *)
Theorem quality_class (pe dr crc : Z) (t : jsstring) :
  (cls (computeQuality pe dr crc t) = lit "ok" <->
   test true linkDownRe t = false /\ crc <= 0 /\ pe + dr = 0)
  /\ (cls (computeQuality pe dr crc t) = lit "warn" <->
      test true linkDownRe t = false /\ crc <= 0 /\ pe + dr <> 0 /\ pe + dr <= 5)
  /\ (cls (computeQuality pe dr crc t) = lit "ok" <->
      label (computeQuality pe dr crc t) = lit "OK").
Proof.
  unfold computeQuality. cbv zeta.
  destruct (test true linkDownRe t).
  { cbn [cls label]. repeat split; try (by vm_compute); try naive_solver. }
  destruct (Z.ltb_spec 0 crc).
  { cbn [cls label]. repeat split; try (by vm_compute); try lia; try naive_solver. }
  destruct (Z.eqb_spec (pe + dr) 0).
  { cbn [cls label]. repeat split; try (by vm_compute); try lia; try naive_solver. }
  destruct (Z.leb_spec (pe + dr) 5); cbn [cls label];
    repeat split; try (by vm_compute); try lia; try naive_solver.
Qed.

End StatsMore.

(** ** The parser: whitespace, sign and units *)

Section ParserMore.

Lemma trimStart_head s :
  match trimStart s with [] => True | c :: _ => isWhiteSpace c = false end.
Proof.
  induction s as [|c s IH]; simpl; [done|].
  destruct (isWhiteSpace c) eqn:E; [done|]. by simpl.
Qed.

Lemma trimStart_id s :
  match s with [] => True | c :: _ => isWhiteSpace c = false end ->
  trimStart s = s.
Proof. destruct s as [|c s]; simpl; [done|]. by intros ->. Qed.

Lemma trimStart_suffix s : exists pre, s = pre ++ trimStart s.
Proof.
  induction s as [|c s [pre IH]]; simpl; [by exists []|].
  destruct (isWhiteSpace c); [|by exists []].
  exists (c :: pre). simpl. by f_equal.
Qed.

Lemma trim_idempotent s : trim (trim s) = trim s.
Proof.
  unfold trim, trimEnd.
  set (t := trimStart s). set (u := trimStart (rev t)).
  assert (Hu : trimStart u = u) by apply trimStart_id, trimStart_head.
  assert (Hr : trimStart (rev u) = rev u).
  { apply trimStart_id. destruct (trimStart_suffix (rev t)) as [pre Hpre].
    fold u in Hpre. apply (f_equal (@rev _)) in Hpre.
    rewrite rev_involutive, rev_app_distr in Hpre.
    pose proof (trimStart_head s) as Hh. fold t in Hh. rewrite Hpre in Hh.
    by destruct (rev u). }
  by rewrite Hr, rev_involutive, Hu.
Qed.

Lemma digitsToZ_nonneg ds :
  Forall (fun x => isDigit x = true) ds -> (0 <= digitsToZ ds)%Z.
Proof.
  intros Hd. unfold digitsToZ.
  assert (H : forall a, (0 <= a)%Z ->
            (0 <= fold_left (fun a d => 10 * a + (Z.of_N d - 48)) ds a)%Z).
  { induction Hd as [|d ds Hd _ IH]; intros a Ha; simpl; [done|].
    apply IH. unfold isDigit in Hd. apply andb_true_iff in Hd as [H1 H2].
    apply N.leb_le in H1. lia. }
  by apply H.
Qed.

Lemma takeDigits_digits s : Forall (fun x => isDigit x = true) (takeDigits s).
Proof.
  induction s as [|c s IH]; simpl; [done|].
  destruct (isDigit c) eqn:E; [|done]. by constructor.
Qed.

Lemma inject_Z_nonneg z : (0 <= z)%Z -> (0 <= inject_Z z)%Q.
Proof. intros H. unfold Qle. simpl. lia. Qed.

Lemma parseUnsigned_nonneg s v : parseUnsigned s = Some v -> (0 <= v)%Q.
Proof.
  unfold parseUnsigned. intros H.
  pose proof (digitsToZ_nonneg _ (takeDigits_digits s)) as Hip.
  destruct (takeDigits s) as [|d ip]; [done|].
  destruct (dropDigits s) as [|c fr].
  { invert H. by apply inject_Z_nonneg. }
  destruct ((c =? 46) && forallb isDigit fr && negb (bool_decide (fr = []))) eqn:E;
    [|done].
  invert H. apply andb_true_iff in E as [E _]. apply andb_true_iff in E as [_ E].
  assert (Hfr : (0 <= digitsToZ fr)%Z).
  { apply digitsToZ_nonneg, Forall_forall. intros x Hx.
    rewrite forallb_forall in E. by apply E, list_elem_of_In. }
  assert (Hp : (0 < 10 ^ Z.of_nat (length fr))%Z) by lia.
  apply inject_Z_nonneg in Hip.
  assert (0 <= inject_Z (digitsToZ fr) / inject_Z (10 ^ Z.of_nat (length fr)))%Q.
  { apply Qle_shift_div_l; [unfold Qlt; simpl; lia|].
    rewrite Qmult_0_l. by apply inject_Z_nonneg. }
  lra.
Qed.

Lemma Number_numberRe_nonneg ic pos w rest v :
  den ic numberRe pos w rest -> Number_ w = Some v -> (0 <= v)%Q.
Proof.
  intros H Hv. apply den_seq_inv in H as (w1 & w2 & -> & H1 & _).
  apply den_digits in H1 as [Hne Hd].
  destruct w1 as [|d w1]; [done|]. simpl in Hv.
  destruct (d =? 45) eqn:E.
  { apply N.eqb_eq in E as ->. by invert Hd. }
  by apply parseUnsigned_nonneg in Hv.
Qed.

Lemma toSelectedUnits_nonneg v p u : (0 <= v)%Q -> (0 <= toSelectedUnits v p u)%Q.
Proof.
  intros Hv. unfold toSelectedUnits. repeat case_bool_decide; unfold Qdiv;
    change (/ 1000)%Q with (1 # 1000)%Q; lra.
Qed.

(** The figure of a report line, seen through its last match. *)
Lemma figure_value line :
  test true bandwidthRe (trim line) = true ->
  exists ms m val w rest p,
    matchAll true bandwidthRe (trim line) = ms ++ [m] /\
    m !! 1%nat = Some w /\ den true numberRe p w rest /\
    Number_ w = Some val /\
    forall units, extractBandwidth line units
      = Some (toSelectedUnits val (Some (orDefault (m !! 2%nat) (lit "M"))) units).
Proof.
  intros Ht. apply matchAll_test in Ht as (ms & m & Hm).
  assert (Hin : m ∈ scanAll true bandwidthRe 0 (trim line) 0).
  { fold (matchAll true bandwidthRe (trim line)). rewrite Hm. set_solver. }
  apply scanAll_elem in Hin as (p & t & e & Hr).
  apply bandwidth_capture in Hr as (w & rest & Hw & D).
  destruct (Number_numberRe _ _ _ _ D) as [val Hv].
  exists ms, m, val, w, rest, p. repeat split; try done.
  intros units. destruct (extractBandwidth_last line units ms m Hm) as (val' & Hv' & ->).
  rewrite Hw in Hv'. simpl in Hv'. congruence.
Qed.

(** X6.  The parser trims its argument itself, so the listener's handing it
    a trimmed payload changes nothing: surrounding whitespace never changes
    what a line is read as. *)
Theorem extractBandwidth_trim (line units : jsstring) :
  trim (trim line) = trim line
  /\ extractBandwidth (trim line) units = extractBandwidth line units.
Proof.
  split; [apply trim_idempotent|].
  unfold extractBandwidth. by rewrite trim_idempotent.
Qed.

(** X7.  On a line with a rate figure the three display units give the same
    reading up to the factor 1000: the Kbps reading is 1000 times the Mbps
    reading, the Gbps reading a thousandth of it, and any other unit string
    is read as Mbps. *)
Theorem figure_unit_scaling (line : jsstring) :
  test true bandwidthRe (trim line) = true ->
  exists m : Q,
    extractBandwidth line (lit "Mbps") = Some m
    /\ extractBandwidth line (lit "Kbps") = Some (m * 1000)%Q
    /\ extractBandwidth line (lit "Gbps") = Some (m / 1000)%Q
    /\ forall units, units <> lit "Kbps" -> units <> lit "Gbps" ->
                     extractBandwidth line units = Some m.
Proof.
  intros Ht. apply figure_value in Ht as (ms & m & val & w & rest & p & _ & _ & _ & _ & H).
  eexists. split; [apply H|]. rewrite !H. unfold toSelectedUnits at 2 3.
  split; [done|]. split; [done|].
  intros units H1 H2. rewrite H. unfold toSelectedUnits.
  rewrite (bool_decide_eq_false_2 _ H1), (bool_decide_eq_false_2 _ H2).
  done.
Qed.

Lemma figure_unit_scaling_witness :
  exists m : Q,
    extractBandwidth (lit "[  5]  0.00-1.00 sec  1.10 GBytes  9.41 Gbits/sec")
      (lit "Mbps") = Some m
    /\ extractBandwidth (lit "[  5]  0.00-1.00 sec  1.10 GBytes  9.41 Gbits/sec")
         (lit "Kbps") = Some (m * 1000)%Q.
Proof.
  destruct (figure_unit_scaling
              (lit "[  5]  0.00-1.00 sec  1.10 GBytes  9.41 Gbits/sec"))
    as (m & H1 & H2 & _).
  { by vm_compute. }
  exists m. by split.
Defined.

(** X8.  The reading of a line with a rate figure is never negative, in any
    unit: a minus sign in front of the figure is not part of the match. *)
Theorem figure_nonnegative (line units : jsstring) :
  test true bandwidthRe (trim line) = true ->
  exists v : Q, extractBandwidth line units = Some v /\ (0 <= v)%Q.
Proof.
  intros Ht. apply figure_value in Ht as (ms & m & val & w & rest & p & _ & _ & D & Hv & H).
  eexists. split; [apply H|].
  apply toSelectedUnits_nonneg. by eapply Number_numberRe_nonneg.
Qed.

Lemma figure_nonnegative_witness :
  exists v : Q, extractBandwidth (lit "-5 Mbits/sec") (lit "Mbps") = Some v
                /\ (0 <= v)%Q.
Proof. apply figure_nonnegative. by vm_compute. Defined.

End ParserMore.

(** ** The gauge: labels, pending sweep and readout *)

Section GaugeMore.

Local Open Scope Q_scope.







Lemma sweeping_tick top mx d x real g :
  sweeping top mx d x real g ->
  sweeping top mx (d * -1) (if (0 <? d)%Z then top else 0) real (sweepTick g).
Proof.
  intros (Ht & Hd & Hr & o & Ho & Hm & Hx). unfold sweeping, sweepTick.
  rewrite Ht, Ho, Hd. simpl. repeat split; try done. eexists. split; [done|]. by simpl.
Qed.

Lemma sweeping_ticks top mx real : forall n g,
  sweeping top mx 1 0 real g ->
  sweeping top mx 1 0 real (sweepTicks (2 * n) g)
  /\ sweeping top mx (-1) top real (sweepTicks (S (2 * n)) g).
Proof.
  induction n as [|n IH]; intros g Hg.
  - split; [done|]. by apply sweeping_tick in Hg.
  - replace (2 * S n)%nat with (S (S (2 * n))) by lia.
    change (sweepTicks (S (S (S (2 * n)))) g)
      with (sweepTicks (S (2 * n)) (sweepTick (sweepTick g))).
    change (sweepTicks (S (S (2 * n))) g)
      with (sweepTicks (2 * n) (sweepTick (sweepTick g))).
    apply IH. apply sweeping_tick in Hg. by apply sweeping_tick in Hg.
Qed.

Lemma startSweep_sweeping fr a g o :
  gauge g = Some o ->
  sweeping (maxValue o * clamp01 fr) (maxValue o) 1 0 (hasRealValue g)
    (startSweep fr a g).
Proof.
  intros Ho. unfold sweeping, startSweep. simpl. rewrite Ho. simpl.
  repeat split. eexists. split; [done|]. by simpl.
Qed.

Lemma clamp01_range x : 0 <= clamp01 x <= 1.
Proof.
  unfold clamp01. split; [apply Q.le_max_l|].
  apply Q.max_lub; [done|apply Q.le_min_l].
Qed.

(** X10.  While the pending sweep runs the needle alternates between 0 and
    the sweep top, the clamped fraction of the maximum, starting towards the
    top; it stays on the scale and the scale itself is not touched. *)
Theorem sweep_needle (g : gaugeState) (o : gaugeObj) (fr : Q) (a : Z) (n : nat) :
  gauge g = Some o ->
  let g' := sweepTicks n (startSweep fr a g) in
  needleOf g' = (if Nat.even n then 0 else maxValue o * clamp01 fr)
  /\ gaugeMax g' = maxValue o
  /\ is_Some (sweepTimer g')
  /\ (0 <= maxValue o -> 0 <= needleOf g' <= maxValue o).
Proof.
  intros Ho g'. subst g'. pose proof (startSweep_sweeping fr a g o Ho) as Hs.
  pose proof (clamp01_range fr) as [Hc0 Hc1].
  assert (Hn : exists d x,
             sweeping (maxValue o * clamp01 fr) (maxValue o) d x (hasRealValue g)
               (sweepTicks n (startSweep fr a g))
             /\ x = if Nat.even n then 0 else maxValue o * clamp01 fr).
  { destruct (Nat.Even_or_Odd n) as [[k ->]|[k ->]].
    - destruct (sweeping_ticks _ _ _ k _ Hs) as [H _].
      exists 1%Z, 0. split; [exact H|]. by rewrite Nat.even_even.
    - destruct (sweeping_ticks _ _ _ k _ Hs) as [_ H].
      replace (2 * k + 1)%nat with (S (2 * k)) by lia.
      exists (-1)%Z, (maxValue o * clamp01 fr). split; [exact H|].
      by rewrite Nat.even_succ, Nat.odd_even. }
  destruct Hn as (d & x & (Ht & _ & _ & o' & Ho' & Hm & Hx) & Hxv).
  unfold needleOf, gaugeMax. rewrite Ho', Hx, Hm, Ht, Hxv.
  split; [done|]. split; [done|]. split; [eauto|].
  intros Hmax. destruct (Nat.even n); [lra|]. nra.
Qed.

Lemma sweep_needle_witness :
  needleOf (sweepTicks 3 (startSweep 0.12 2500
              (initGauge false 1000 0.12 2500 700 gauge0)))
  = (1000 * clamp01 0.12)%Q.
Proof.
  destruct (sweep_needle (initGauge false 1000 0.12 2500 700 gauge0)
              {| maxValue := 1000; needle := 0; animationSpeed := 32;
                 staticLabels := []; fractionDigits := 0 |} 0.12 2500 3 eq_refl)
    as [H _].
  exact H.
Defined.

Lemma sweeping_any top mx real : forall n g,
  sweeping top mx 1 0 real g ->
  exists d x, sweeping top mx d x real (sweepTicks n g).
Proof.
  intros n g Hs. destruct (Nat.Even_or_Odd n) as [[k ->]|[k ->]].
  - destruct (sweeping_ticks _ _ _ k _ Hs) as [H _]. eauto.
  - destruct (sweeping_ticks _ _ _ k _ Hs) as [_ H].
    replace (2 * k + 1)%nat with (S (2 * k)) by lia. eauto.
Qed.

Lemma sweeping_readout top mx d x g dv :
  sweeping top mx d x false g ->
  readoutTick g dv = Some (lit "0.00")
  /\ (forall v, readoutTick (updateGauge v g) dv = Some (toFixed2 dv))
  /\ readoutTick (sweepAutoStop g) dv = Some (toFixed2 dv)
  /\ needleOf (sweepAutoStop g) = 0.
Proof.
  intros (Ht & _ & Hr & o & Ho & _). unfold readoutTick, readoutValue, needleOf.
  split; [|split].
  - by rewrite Ho, Hr, Ht.
  - intros v. unfold updateGauge. rewrite Ho. simpl. by rewrite Ho.
  - unfold sweepAutoStop. simpl. by rewrite Ho, Hr.
Qed.

(** X11.  As long as the pending sweep runs and no sample has arrived, the
    numeric readout shows 0.00 whatever the animated needle displays; from
    the first sample on, and after the sweep has stopped by itself, it shows
    the displayed value. *)
Theorem pending_readout (g : gaugeState) (o : gaugeObj) (m fr : Q) (a i : Z)
    (n : nat) (dv v : Q) :
  gauge g = Some o ->
  let pending := sweepTicks n (beginPending g) in
  let started := sweepTicks n (initGauge true m fr a i g) in
  readoutTick pending dv = Some (lit "0.00")
  /\ readoutTick started dv = Some (lit "0.00")
  /\ readoutTick (updateGauge v pending) dv = Some (toFixed2 dv)
  /\ readoutTick (updateGauge v started) dv = Some (toFixed2 dv)
  /\ readoutTick (sweepAutoStop started) dv = Some (toFixed2 dv)
  /\ needleOf (sweepAutoStop started) = 0.
Proof.
  intros Ho pending started.
  assert (H1 : exists top mx d x, sweeping top mx d x false pending).
  { pose proof (startSweep_sweeping (SWEEP_MAX_FRACTION g) (SWEEP_AUTO_STOP_MS g)
                  (setHasRealValue false g) o Ho) as Hs.
    destruct (sweeping_any _ _ _ n _ Hs) as (d & x & H). eauto. }
  assert (H2 : exists top mx d x, sweeping top mx d x false started).
  { pose proof (startSweep_sweeping fr a
                  {| gauge := Some {| maxValue := m; needle := 0;
                                      animationSpeed := NORMAL_ANIM_SPEED;
                                      staticLabels := []; fractionDigits := 0 |};
                     sweepTimer := None; sweepDir := sweepDir g;
                     sweepAutoStopTimer := false; hasRealValue := false;
                     SWEEP_MAX_FRACTION := fr; SWEEP_AUTO_STOP_MS := a;
                     SWEEP_INTERVAL_MS := i |} _ eq_refl) as Hs.
    destruct (sweeping_any _ _ _ n _ Hs) as (d & x & H). eauto. }
  destruct H1 as (t1 & m1 & d1 & x1 & H1). destruct H2 as (t2 & m2 & d2 & x2 & H2).
  destruct (sweeping_readout _ _ _ _ _ dv H1) as (A1 & A2 & _).
  destruct (sweeping_readout _ _ _ _ _ dv H2) as (B1 & B2 & B3 & B4).
  auto 10.
Qed.

Lemma pending_readout_witness :
  readoutTick (sweepTicks 1 (initGauge true 1000 0.12 2500 700
                               (initGauge false 1000 0.12 2500 700 gauge0)))
    (120 # 7) = Some (lit "0.00").
Proof.
  destruct (pending_readout (initGauge false 1000 0.12 2500 700 gauge0)
              {| maxValue := 1000; needle := 0; animationSpeed := 32;
                 staticLabels := []; fractionDigits := 0 |}
              1000 0.12 2500 700 1 (120 # 7) 0 eq_refl) as (_ & H & _).
  exact H.
Defined.

End GaugeMore.

(** ** The session controller: cleanup, logging and aggregates *)

Arguments cleanup : simpl never.
Arguments armNoDataTimer : simpl never.

Section SessionMore.

Lemma resetGauge_idempotent g : resetGauge (resetGauge g) = resetGauge g.
Proof. destruct g as [[o|] ? ? ? ? ? ? ?]; reflexivity. Qed.

Lemma resetGauge_scale g :
  gaugeMax (resetGauge g) = gaugeMax g /\ labelsOf (resetGauge g) = labelsOf g
  /\ needleOf (resetGauge g) = 0%Q.
Proof. destruct g as [[o|] ? ? ? ? ? ? ?]; done. Qed.

Lemma runs_cleanup reset i w :
  runs (cleanup reset true i w)
  = alter (fun r => set_eventSource None (set_noDataTimer None r)) i (runs w).
Proof.
  unfold cleanup. destruct reset; simpl; by rewrite list_alter_alter_eq.
Qed.

(** X12.  Running [cleanup] a second time changes nothing. *)
Theorem cleanup_idempotent (reset : bool) (i : nat) (w : world) :
  cleanup reset true i (cleanup reset true i w) = cleanup reset true i w.
Proof.
  assert (Hw : forall a b : world, pg a = pg b -> runs a = runs b -> a = b).
  { intros [? ?] [? ?]; simpl; by intros -> ->. }
  apply Hw.
  - rewrite (cleanup_pg reset i (cleanup reset true i w)).
    rewrite runs_cleanup, list_lookup_alter_eq.
    rewrite !cleanup_pg.
    destruct (runs w !! i) as [r|]; destruct reset; simpl;
      rewrite ?resetGauge_idempotent; reflexivity.
  - rewrite !runs_cleanup, list_alter_alter_eq. by apply list_alter_ext.
Qed.


Lemma resultEl_closeSource a p : resultEl (closeSource a p) = resultEl p.
Proof. by destruct a. Qed.

Ltac page_fields :=
  cbv zeta;
  cbn [bandwidthSum bandwidthCount maxBandwidth statusEl avgEl maxEl resultEl
       runBtnDisabled overlayDisplay overlayText overlayCloseDisplay gaugeSt
       sources windowES
       set_bandwidthSum set_bandwidthCount set_maxBandwidth set_statusEl
       set_avgEl set_maxEl set_resultEl set_runBtnDisabled set_overlayDisplay
       set_overlayText set_overlayCloseDisplay set_gaugeSt set_sources
       set_windowES appendResult showOverlay hideOverlay].

Ltac page_norm :=
  repeat (progress (cbn [pg onPage onRun stopNoDataTimer];
                    rewrite ?cleanup_pg, ?pg_armNoDataTimer)).






Lemma grows_refl (x : jsstring) : exists t, x = x ++ t.
Proof. exists []. by rewrite app_nil_r. Qed.

Lemma grows_app (x a : jsstring) : exists t, x ++ a = x ++ t.
Proof. by exists a. Qed.

Lemma grows_app2 (x a b : jsstring) : exists t, (x ++ a) ++ b = x ++ t.
Proof. exists (a ++ b). by rewrite app_assoc. Qed.

Lemma grows_app3 (x a b c : jsstring) : exists t, ((x ++ a) ++ b) ++ c = x ++ t.
Proof. exists (a ++ b ++ c). by rewrite !app_assoc. Qed.

(** X14.  The log of the run only grows: no listener, timer or answer of the
    start request removes or rewrites text of [#result]; only a click on the
    start control replaces it, by the line "Running iPerf3...". *)
Theorem log_append_only (now : Z) (e : event) (w w' : world) :
  step now e w = Some w' ->
  match e with
  | Click _ _ => resultEl (pg w') = lit "Running iPerf3..." ++ nl
  | _ => exists t, resultEl (pg w') = resultEl (pg w) ++ t
  end.
Proof.
  intros Hs.
  destruct e; cbn [step] in Hs; repeat case_match; simplify_eq.
  - by rewrite onClick_world, pg_armNoDataTimer.
  - unfold onOpen. rewrite pg_armNoDataTimer. apply grows_refl.
  - unfold onMessage. cbv zeta.
    repeat case_match; page_norm; simpl; repeat case_match; simpl;
      rewrite ?resultEl_closeSource;
      first [apply grows_refl | apply grows_app | apply grows_app2].
  - unfold onError. cbv zeta. page_norm. simpl.
    rewrite resultEl_closeSource. apply grows_app.
  - unfold onError. rewrite pg_armNoDataTimer. apply grows_refl.
  - unfold onNoDataTimeout. cbv zeta. repeat case_match; page_norm; simpl;
      first [apply grows_refl | apply grows_app | apply grows_app2].
  - unfold onStartOk. cbv zeta. repeat case_match; page_norm; simpl;
      first [apply grows_refl | apply grows_app | apply grows_app2].
  - unfold onStartNotOk, onStartThrow. cbv zeta. page_norm. simpl.
    apply grows_app.
  - unfold onStartThrow. cbv zeta. page_norm. simpl. apply grows_app.
  - simpl. apply grows_refl.
  - simpl. apply grows_refl.
Qed.

Lemma log_append_only_witness :
  exists t, resultEl (pg (onMessage 3 0 (lit "hello")
                            (fst (onClick 0 exampleForm (lit "c") (world0 (lit "Mbps"))))))
            = resultEl (pg (fst (onClick 0 exampleForm (lit "c") (world0 (lit "Mbps")))))
              ++ t.
Proof.
  apply (log_append_only 3 (Message 0 (lit "hello"))
           (fst (onClick 0 exampleForm (lit "c") (world0 (lit "Mbps"))))).
  by vm_compute.
Defined.

Lemma sampleOf_None_line units data :
  trim data <> [] -> trim data <> lit "ping" -> endsStream data = false ->
  sampleOf units data = None ->
  (startsWith (trim data) (lit "CMD:") || startsWith (trim data) (lit "WORKER:")
   || startsWith (trim data) (lit "LOGFILE:")) = true
  \/ extractBandwidth (trim data) units = None.
Proof.
  intros H1 H2 He Hs. apply orb_false_iff in He as [He1 He2].
  unfold sampleOf in Hs. rewrite He1, He2 in Hs.
  rewrite !bool_decide_eq_false_2 in Hs by done. simpl in Hs.
  destruct (startsWith (trim data) (lit "CMD:") || startsWith (trim data) (lit "WORKER:")
            || startsWith (trim data) (lit "LOGFILE:")); auto.
Qed.

Lemma sampleOf_Some units data v :
  sampleOf units data = Some v ->
  (bool_decide (trim data = []) || bool_decide (trim data = lit "ping")) = false
  /\ bool_decide (trim data = lit "-1") = false
  /\ bool_decide (trim data = lit "server is busy") = false
  /\ (startsWith (trim data) (lit "CMD:") || startsWith (trim data) (lit "WORKER:")
      || startsWith (trim data) (lit "LOGFILE:")) = false
  /\ extractBandwidth (trim data) units = Some v.
Proof.
  unfold sampleOf. intros H. repeat case_match; done.
Qed.

(** X15.  A frame that is neither empty, a heartbeat, a marker nor a sample
    is written to the log as it is, trimmed, on a line of its own; nothing
    else on the page changes: sum, count, maximum, status, gauge and dialog
    stay as they were. This covers the lines tagged CMD:, WORKER: and
    LOGFILE: even when they carry a rate figure. *)
Theorem plain_line_logged (now : Z) (i : nat) (data : jsstring) (w : world)
    (r : run) :
  runs w !! i = Some r ->
  trim data <> [] -> trim data <> lit "ping" -> endsStream data = false ->
  sampleOf (units r) data = None ->
  pg (onMessage now i data w) = appendResult (trim data ++ nl) (pg w)
  /\ runs (onMessage now i data w) = runs (armNoDataTimer now i w).
Proof.
  intros Hr H1 H2 He Hs. split; [|by apply runs_onMessage].
  pose proof (sampleOf_None_line _ _ H1 H2 He Hs) as Hc.
  apply orb_false_iff in He as [He1 He2].
  unfold onMessage. rewrite Hr. cbv zeta.
  rewrite He1, He2. rewrite !bool_decide_eq_false_2 by done. cbn [orb].
  destruct Hc as [-> | Hc]; [by page_norm|].
  destruct (startsWith (trim data) (lit "CMD:") || startsWith (trim data) (lit "WORKER:")
            || startsWith (trim data) (lit "LOGFILE:")); [by page_norm|].
  rewrite Hc. by page_norm.
Qed.

Lemma plain_line_logged_witness :
  resultEl (pg (onMessage 3 0 (lit " LOGFILE: 941 Mbits/sec ")
                  (fst (onClick 0 exampleForm (lit "c") (world0 (lit "Mbps"))))))
  = lit "Running iPerf3..." ++ nl ++ lit "LOGFILE: 941 Mbits/sec" ++ nl
  /\ bandwidthCount (pg (onMessage 3 0 (lit " LOGFILE: 941 Mbits/sec ")
                  (fst (onClick 0 exampleForm (lit "c") (world0 (lit "Mbps"))))))
     = 0%Z.
Proof.
  destruct (plain_line_logged 3 0 (lit " LOGFILE: 941 Mbits/sec ")
              (fst (onClick 0 exampleForm (lit "c") (world0 (lit "Mbps"))))
              (set_noDataTimer (Some 45000%Z) (newRun exampleForm 0)))
    as [H _]; [by vm_compute ..|].
  rewrite H. split; by vm_compute.
Defined.

(** X16.  A frame that carries a sample makes the gauge live: the needle is
    set to the sample, the sweep interval and its auto-stop can no longer
    fire, the status reads "Running" and the sample is counted once. *)
Theorem sample_goes_live (now t : Z) (i : nat) (data : jsstring) (w : world)
    (r : run) (v : Q) :
  runs w !! i = Some r ->
  is_Some (gauge (gaugeSt (pg w))) ->
  sampleOf (units r) data = Some v ->
  let w' := onMessage now i data w in
  gaugeSt (pg w') = updateGauge v (gaugeSt (pg w))
  /\ needleOf (gaugeSt (pg w')) = v
  /\ hasRealValue (gaugeSt (pg w')) = true
  /\ step t SweepTick w' = None
  /\ step t SweepAutoStop w' = None
  /\ statusEl (pg w') = lit "Running"
  /\ bandwidthCount (pg w') = (bandwidthCount (pg w) + 1)%Z
  /\ bandwidthSum (pg w') = (bandwidthSum (pg w) + v)%Q
  /\ resultEl (pg w') = resultEl (pg w) ++ trim data ++ nl.
Proof.
  intros Hr [o Ho] Hs w'.
  apply sampleOf_Some in Hs as (H1 & H2 & H3 & H4 & H5).
  assert (Hg : gaugeSt (pg w') = updateGauge v (gaugeSt (pg w))).
  { unfold w', onMessage. rewrite Hr. cbv zeta. rewrite H1, H2, H3, H4, H5.
    page_norm. simpl. by destruct (Qltb (maxBandwidth (pg w)) v). }
  split; [done|].
  assert (Hu : updateGauge v (gaugeSt (pg w))
               = withGauge (fun o => setNeedle v (rescale v o))
                   (stopSweep (setHasRealValue true (gaugeSt (pg w))))).
  { unfold updateGauge. by rewrite Ho. }
  cbn [step]. rewrite Hg, Hu. unfold needleOf. simpl. rewrite Ho. simpl.
  repeat split; unfold w', onMessage; rewrite Hr; cbv zeta;
    rewrite H1, H2, H3, H4, H5; page_norm; simpl;
    by destruct (Qltb (maxBandwidth (pg w)) v).
Qed.

Lemma sample_goes_live_witness :
  step 9 SweepTick
    (onMessage 3 0 (lit "[  5] 0.00-1.00 sec 112 MBytes 941 Mbits/sec")
       (fst (onClick 0 exampleForm (lit "c") (world0 (lit "Mbps"))))) = None.
Proof.
  destruct (sample_goes_live 3 9 0 (lit "[  5] 0.00-1.00 sec 112 MBytes 941 Mbits/sec")
              (fst (onClick 0 exampleForm (lit "c") (world0 (lit "Mbps"))))
              (set_noDataTimer (Some 45000%Z) (newRun exampleForm 0)) 941)
    as (_ & _ & _ & H & _); [by vm_compute|by eexists|by vm_compute|exact H].
Defined.

Lemma timerDue_cleanup reset i w t : timerDue t i (cleanup reset true i w) = false.
Proof.
  unfold timerDue. rewrite runs_cleanup, list_lookup_alter_eq.
  by destruct (runs w !! i).
Qed.

Lemma timerDue_onPage f t i w : timerDue t i (onPage f w) = timerDue t i w.
Proof. done. Qed.

(** X17.  Every event that ends a run hands the page back: the start control
    is enabled again and accepts a click, the inactivity timer of the run is
    disarmed for good, and the dialog is either hidden or shows an error
    with its close button. *)
Theorem run_end_restores_controls (now : Z) (i : nat) (e : event) (w w' : world) :
  endsRun i e -> step now e w = Some w' ->
  runBtnDisabled (pg w') = false
  /\ (forall t f cid, is_Some (step t (Click f cid) w'))
  /\ (forall t, step t (NoDataTimeout i) w' = None)
  /\ (overlayDisplay (pg w') = false \/ overlayCloseDisplay (pg w') = true).
Proof.
  intros He Hs.
  cut (runBtnDisabled (pg w') = false /\ (forall t, timerDue t i w' = false)
       /\ (overlayDisplay (pg w') = false \/ overlayCloseDisplay (pg w') = true)).
  { intros (H1 & H2 & H3). split; [done|]. split; [|split; [|done]].
    - intros t f cid. cbn [step]. rewrite H1. eauto.
    - intros t. cbn [step]. by rewrite H2. }
  destruct e; try done; cbn [step endsRun] in *.
  - destruct He as [-> He]. destruct (streamOpen i w) eqn:Ho; [|done].
    apply streamOpen_run in Ho as [r Hr]. simplify_eq.
    destruct He as [He|He].
    + rewrite (onMessage_end _ _ _ _ r) by done.
      split; [|split]; [by page_norm|intros t; apply timerDue_cleanup|left; by page_norm].
    + rewrite (onMessage_busy _ _ _ _ r) by done.
      split; [|split]; [by page_norm|intros t; apply timerDue_cleanup|left; by page_norm].
  - destruct He as [-> ->]. destruct (streamOpen i w); [|done]. simplify_eq.
    unfold onError. cbv zeta.
    split; [|split]; [by page_norm|intros t; apply timerDue_cleanup|left; by page_norm].
  - subst i0. destruct (timerDue now i w) eqn:Hd; [|done]. simplify_eq.
    unfold onNoDataTimeout. destruct (runs w !! i) eqn:Hr.
    + cbv zeta.
      split; [|split]; [by page_norm|intros t; apply timerDue_cleanup|left; by page_norm].
    + unfold timerDue in Hd. by rewrite Hr in Hd.
  - subst i0. destruct (startIsPending i w); [|done]. simplify_eq.
    unfold onStartNotOk, onStartThrow. cbv zeta.
    split; [|split];
      [by page_norm|intros t; rewrite timerDue_onPage; apply timerDue_cleanup
      |right; by page_norm].
  - subst i0. destruct (startIsPending i w); [|done]. simplify_eq.
    unfold onStartThrow. cbv zeta.
    split; [|split];
      [by page_norm|intros t; rewrite timerDue_onPage; apply timerDue_cleanup
      |right; by page_norm].
Qed.

Lemma run_end_restores_controls_witness :
  is_Some (step 9 (Click exampleForm (lit "d"))
             (onNoDataTimeout 0
                (fst (onClick 0 exampleForm (lit "c") (world0 (lit "Mbps")))))).
Proof.
  destruct (run_end_restores_controls 45000 0 (NoDataTimeout 0)
              (fst (onClick 0 exampleForm (lit "c") (world0 (lit "Mbps"))))
              (onNoDataTimeout 0
                 (fst (onClick 0 exampleForm (lit "c") (world0 (lit "Mbps"))))))
    as (_ & H & _); [done|by vm_compute|].
  apply H.
Defined.




(** X19.  The command line the server reports in its answer to the start
    request is logged once and remembered: when the inactivity timeout fires
    later, the log repeats it after the timeout line. Without a reported
    command only the timeout line is written. *)
Theorem start_command_in_timeout (t1 t2 : Z) (i : nat) (cmd : jsstring) (w : world) :
  startIsPending i w = true -> timerDue t2 i w = true ->
  exists w1 w2,
    step t1 (StartOk i cmd) w = Some w1
    /\ step t2 (NoDataTimeout i) w1 = Some w2
    /\ resultEl (pg w2)
       = resultEl (pg w)
         ++ (if bool_decide (trim cmd = []) then []
             else lit "CMD: " ++ trim cmd ++ nl)
         ++ lit "Timeout: Keine Daten vom Stream erhalten." ++ nl
         ++ (if bool_decide (trim cmd = []) then []
             else lit "Letzter CMD: " ++ trim cmd ++ nl)
    /\ statusEl (pg w2) = lit "Error"
    /\ step t1 (StartOk i cmd) w1 = None.
Proof.
  intros Hp Hd. unfold startIsPending in Hp. unfold timerDue in Hd.
  destruct (runs w !! i) as [r|] eqn:Hr; [|done].
  eexists _, _. cbn [step]. unfold startIsPending, timerDue. rewrite Hr, Hp.
  split; [done|].
  assert (Hr1 : runs (onStartOk i cmd (onRun i (set_startPending false) w)) !! i
                = Some (set_lastCmd (trim cmd) (set_startPending false r))).
  { unfold onStartOk. cbn [runs onRun]. rewrite list_lookup_alter_eq, Hr. cbv zeta.
    cbn [fmap option_fmap option_map]. 
    destruct (bool_decide (trim cmd = [])); cbn [runs onRun onPage];
      by rewrite !list_lookup_alter_eq, Hr. }
  rewrite Hr1. cbn [noDataTimer set_lastCmd set_startPending startPending].
  destruct (noDataTimer r) as [d|]; [|done]. rewrite Hd.
  split; [done|]. split; [|split; [|done]].
  - unfold onNoDataTimeout. rewrite Hr1. cbv zeta. cbn [lastCmd set_lastCmd].
    unfold onStartOk. cbn [runs onRun]. rewrite list_lookup_alter_eq, Hr. cbv zeta.
    cbn [fmap option_fmap option_map].
    destruct (bool_decide (trim cmd = [])); page_norm; page_fields;
      by rewrite <- ?app_assoc, ?app_nil_r, ?app_nil_l.
  - unfold onNoDataTimeout. rewrite Hr1. cbv zeta.
    destruct (bool_decide (lastCmd _ = [])); by page_norm.
Qed.

Lemma start_command_in_timeout_witness :
  exists w1 w2,
    step 1 (StartOk 0 (lit " iperf3 -c 192.168.10.2 "))
      (fst (onClick 0 exampleForm (lit "c") (world0 (lit "Mbps")))) = Some w1
    /\ step 45000 (NoDataTimeout 0) w1 = Some w2
    /\ resultEl (pg w2)
       = lit "Running iPerf3..." ++ nl ++ lit "CMD: iperf3 -c 192.168.10.2" ++ nl
         ++ lit "Timeout: Keine Daten vom Stream erhalten." ++ nl
         ++ lit "Letzter CMD: iperf3 -c 192.168.10.2" ++ nl.
Proof.
  destruct (start_command_in_timeout 1 45000 0 (lit " iperf3 -c 192.168.10.2 ")
              (fst (onClick 0 exampleForm (lit "c") (world0 (lit "Mbps")))))
    as (w1 & w2 & H1 & H2 & H3 & _); [by vm_compute ..|].
  exists w1, w2. split; [exact H1|]. split; [exact H2|].
  rewrite H3. by vm_compute.
Defined.

Lemma closed_at (l : list bool) (a : option nat) j :
  closeIn (Some j) (closeIn a l) !! j <> Some true.
Proof.
  simpl. intros H. apply list_lookup_insert_Some in H. naive_solver.
Qed.

Lemma closed_twice (l : list bool) (a b : option nat) j :
  closeIn None (closeIn a (closeIn (Some j) (closeIn b l))) !! j <> Some true.
Proof.
  cbn [closeIn]. destruct a as [k|]; cbn [closeIn].
  - destruct (decide (k = j)) as [->|Hne].
    + intros H. apply list_lookup_insert_Some in H. naive_solver.
    + rewrite list_lookup_insert_ne by done. apply closed_at.
  - apply closed_at.
Qed.

Lemma runs_cleanup_ne reset i w k :
  k <> i -> runs (cleanup reset true i w) !! k = runs w !! k.
Proof. intros Hk. by rewrite runs_cleanup, list_lookup_alter_ne. Qed.

(** X20.  A failed start request does not only release its own run: it
    closes whatever connection [window.__iperfES] refers to at that moment
    and resets the gauge, even when that connection belongs to a later run;
    the variables of every other run, its armed inactivity timer included,
    stay as they are. *)
Theorem start_failure_closes_current (now : Z) (i j : nat) (msg : jsstring)
    (e : event) (w : world) :
  startIsPending i w = true -> windowES (pg w) = Some j ->
  e = StartThrow i msg \/ e = StartNotOk i msg ->
  exists w',
    step now e w = Some w'
    /\ sources (pg w') !! j <> Some true
    /\ windowES (pg w') = None
    /\ gaugeSt (pg w') = resetGauge (gaugeSt (pg w))
    /\ statusEl (pg w') = lit "Error"
    /\ forall k, k <> i -> runs w' !! k = runs w !! k.
Proof.
  intros Hp Hw He. destruct He as [-> | ->]; eexists; cbn [step]; rewrite Hp.
  - split; [done|]. unfold onStartThrow. cbv zeta. page_norm. page_fields.
    rewrite Hw. split; [apply closed_at|]. repeat split.
    intros k Hk. cbn [runs onPage]. rewrite runs_cleanup_ne by done.
    cbn [runs onPage onRun]. by rewrite list_lookup_alter_ne.
  - split; [done|]. unfold onStartNotOk, onStartThrow. cbv zeta.
    page_norm. page_fields. rewrite resetGauge_idempotent.
    rewrite Hw. split; [apply closed_twice|].
    repeat split.
    intros k Hk. cbn [runs onPage]. rewrite runs_cleanup_ne by done.
    cbn [runs onPage]. rewrite runs_cleanup_ne by done.
    cbn [runs onPage onRun]. by rewrite list_lookup_alter_ne.
Qed.

Lemma start_failure_closes_current_witness :
  exists w',
    step 3 (StartNotOk 0 (lit "busy"))
      (fst (onClick 2 exampleForm (lit "c2")
              (onMessage 1 0 (lit "server is busy")
                 (fst (onClick 0 exampleForm (lit "c1") (world0 (lit "Mbps")))))))
    = Some w'
    /\ sources (pg w') !! 1%nat <> Some true
    /\ noDataTimer <$> runs w' !! 1%nat = Some (Some 45002%Z).
Proof.
  destruct (start_failure_closes_current 3 0 1 (lit "busy")
              (StartNotOk 0 (lit "busy"))
              (fst (onClick 2 exampleForm (lit "c2")
                      (onMessage 1 0 (lit "server is busy")
                         (fst (onClick 0 exampleForm (lit "c1")
                                 (world0 (lit "Mbps"))))))))
    as (w' & H1 & H2 & _ & _ & _ & H3); [by vm_compute|by vm_compute|by right|].
  exists w'. split; [exact H1|]. split; [exact H2|].
  rewrite H3 by done. by vm_compute.
Defined.

(** The part of the page that tells whether a run is under way. *)
Lemma cleanup_idle reset i w :
  connInv w ->
  runBtnDisabled (pg (cleanup reset true i w)) = false
  /\ forall j, sources (pg (cleanup reset true i w)) !! j <> Some true.
Proof.
  intros H. split; [|by apply cleanup_closes_all].
  rewrite cleanup_pg. by destruct reset.
Qed.

Lemma step_run_state now e w w' :
  connInv w -> step now e w = Some w' ->
  (runBtnDisabled (pg w') = runBtnDisabled (pg w)
   /\ sources (pg w') = sources (pg w) /\ windowES (pg w') = windowES (pg w))
  \/ (runBtnDisabled (pg w') = false
      /\ forall j, sources (pg w') !! j <> Some true)
  \/ (runBtnDisabled (pg w) = false /\ runBtnDisabled (pg w') = true
      /\ windowES (pg w') = Some (length (sources (pg w)))
      /\ sources (pg w') !! length (sources (pg w)) = Some true).
Proof.
  intros Hc Hs.
  destruct e; cbn [step] in Hs; repeat case_match; simplify_eq.
  - right; right. destruct (onClick_sources now f cid w) as [-> ->].
    split; [done|]. split; [by rewrite onClick_world, pg_armNoDataTimer|].
    split; [done|].
    rewrite lookup_app_r; destruct (windowES (pg w)); simpl;
      rewrite ?length_insert; try lia; by rewrite Nat.sub_diag.
  - left. unfold onOpen. by rewrite pg_armNoDataTimer.
  - unfold onMessage. cbv zeta. repeat case_match;
      try (left; page_norm; page_fields; repeat case_match; done);
      right; left; apply cleanup_idle; conn_tac.
  - right; left. unfold onError. cbv zeta. apply cleanup_idle.
    repeat conn_step. by apply connInv_close.
  - left. unfold onError. by rewrite pg_armNoDataTimer.
  - unfold onNoDataTimeout. destruct (runs w !! i) eqn:Hr; [|by left].
    right; left. cbv zeta. apply cleanup_idle. conn_tac.
  - left. unfold onStartOk. cbv zeta. repeat case_match; page_norm; done.
  - right; left. unfold onStartNotOk, onStartThrow. cbv zeta.
    cbn [pg onPage]. page_fields. apply cleanup_idle. conn_tac.
  - right; left. unfold onStartThrow. cbv zeta.
    cbn [pg onPage]. page_fields. apply cleanup_idle. conn_tac.
  - by left.
  - by left.
Qed.

Lemma open_count_one (l : list bool) o j :
  onlyOpen l o -> l !! j = Some true ->
  length (filter (fun b => b = true) l) = 1%nat.
Proof.
  intros Ho Hj. pose proof (onlyOpen_count l o Ho) as Hle.
  assert (Hin : true ∈ filter (fun b => b = true) l).
  { apply list_elem_of_filter. split; [done|]. by eapply list_elem_of_lookup_2. }
  destruct (filter (fun b => b = true) l); [by apply elem_of_nil in Hin|].
  simpl in *. lia.
Qed.

(** X21.  In every state the page can reach, the start control is enabled
    exactly when no event stream is open: while it is disabled there is
    exactly one open stream, the one [window.__iperfES] refers to, and while
    it is enabled there is none. *)
Theorem idle_iff_no_stream (units0 : jsstring) (w : world) :
  reachable units0 w ->
  (runBtnDisabled (pg w) = false -> openSources w = 0%nat)
  /\ (runBtnDisabled (pg w) = true ->
      openSources w = 1%nat
      /\ exists j, windowES (pg w) = Some j /\ sources (pg w) !! j = Some true).
Proof.
  intros Hr.
  cut ((runBtnDisabled (pg w) = false ->
        forall j, sources (pg w) !! j <> Some true)
       /\ (runBtnDisabled (pg w) = true ->
           exists j, windowES (pg w) = Some j /\ sources (pg w) !! j = Some true)).
  { intros [H1 H2]. split.
    - intros E. unfold openSources. rewrite filter_none_open; auto.
    - intros E. destruct (H2 E) as (j & Hw & Hj). split; [|eauto].
      eapply open_count_one; [by eapply reachable_connInv|done]. }
  induction Hr as [|w now e w' Hr [IH1 IH2] Hs]; [by split|].
  pose proof (reachable_connInv _ _ Hr) as Hc.
  destruct (step_run_state _ _ _ _ Hc Hs)
    as [(E1 & E2 & E3)|[[E1 E2]|(E0 & E1 & E2 & E3)]].
  - rewrite E1, E2, E3. by split.
  - split; [done|]. by rewrite E1.
  - split; [by rewrite E1|]. eauto.
Qed.

Lemma idle_iff_no_stream_witness :
  openSources (fst (onClick 0 exampleForm (lit "c") (world0 (lit "Mbps")))) = 1%nat.
Proof.
  destruct (idle_iff_no_stream (lit "Mbps")
              (fst (onClick 0 exampleForm (lit "c") (world0 (lit "Mbps")))))
    as [_ H].
  - apply (reachStep _ (world0 (lit "Mbps")) 0 (Click exampleForm (lit "c")));
      [apply reach0|reflexivity].
  - apply H. reflexivity.
Defined.

End SessionMore.

(** ** The polling loop *)

Section PollerMore.

Lemma pollStep_inv e p p' :
  pollStep e p = Some p' ->
  timerPending p && inFlight p = false ->
  (stopped p = false -> timerPending p || inFlight p = true) ->
  (stopped p = true -> timerPending p = false) ->
  timerPending p' && inFlight p' = false
  /\ (stopped p' = false -> timerPending p' || inFlight p' = true)
  /\ (stopped p' = true -> timerPending p' = false).
Proof.
  destruct p as [[] [] [] c]; destruct e; simpl; intros H; simplify_eq;
    simpl; naive_solver.
Qed.

(** X22.  Polling neither overlaps nor stalls: whatever answers, failures
    and timer firings follow the start, there is never a request in flight
    while the next one is scheduled; until the loop is stopped exactly one
    of the two holds, and once it is stopped no timer is pending. *)
Theorem poll_no_overlap (tr : list pollEvent) (p : poller) :
  pollSteps tr poller0 = Some p ->
  timerPending p && inFlight p = false
  /\ (stopped p = false -> timerPending p || inFlight p = true)
  /\ (stopped p = true -> timerPending p = false).
Proof.
  assert (H : forall tr q,
             timerPending q && inFlight q = false ->
             (stopped q = false -> timerPending q || inFlight q = true) ->
             (stopped q = true -> timerPending q = false) ->
             pollSteps tr q = Some p ->
             timerPending p && inFlight p = false
             /\ (stopped p = false -> timerPending p || inFlight p = true)
             /\ (stopped p = true -> timerPending p = false)).
  { clear tr. induction tr as [|e tr IH]; intros q H1 H2 H3 Hs; simpl in Hs.
    - by simplify_eq.
    - destruct (pollStep e q) as [q'|] eqn:E; [|done].
      destruct (pollStep_inv _ _ _ E H1 H2 H3) as (? & ? & ?). eauto. }
  apply H; by vm_compute.
Qed.

Lemma poll_no_overlap_witness :
  timerPending (tickEnd None poller0) && inFlight (tickEnd None poller0) = false
  /\ (stopped (tickEnd None poller0) = false ->
      timerPending (tickEnd None poller0) || inFlight (tickEnd None poller0) = true)
  /\ (stopped (tickEnd None poller0) = true ->
      timerPending (tickEnd None poller0) = false).
Proof. apply (poll_no_overlap [FetchDone None]). reflexivity. Defined.

(** X23.  Stopping is final but does not cancel a request in flight: after
    the returned function has been called no tick starts again, and the
    cards keep what they show unless the one request that was in flight
    still answers. *)
Theorem poll_stop_final (tr : list pollEvent) (p p' : poller) :
  pollSteps tr (stopPolling p) = Some p' ->
  stopped p' = true /\ timerPending p' = false
  /\ (TimerFires ∉ tr)
  /\ (inFlight p = false -> shown p' = shown p /\ inFlight p' = false)
  /\ (shown p' = shown p
      \/ exists st, FetchDone (Some st) ∈ tr
                    /\ shown p' = Some (updateStatsCards st)).
Proof.
  assert (H : forall tr q,
             stopped q = true -> timerPending q = false ->
             pollSteps tr q = Some p' ->
             stopped p' = true /\ timerPending p' = false /\ (TimerFires ∉ tr)
             /\ (inFlight q = false -> shown p' = shown q /\ inFlight p' = false)
             /\ (shown p' = shown q
                 \/ exists st, FetchDone (Some st) ∈ tr
                               /\ shown p' = Some (updateStatsCards st))).
  { clear tr. induction tr as [|e tr IH]; intros q H1 H2 Hs; simpl in Hs.
    - simplify_eq. repeat split; auto. set_solver.
    - destruct e; simpl in Hs.
      + by rewrite H2 in Hs.
      + destruct (inFlight q) eqn:Ef; [|done].
        destruct (IH (tickEnd answer q)) as (A & B & C & D & E);
          [done|by simpl; rewrite H1|done|].
        split; [done|]. split; [done|]. split; [set_solver|]. split; [done|].
        destruct (D eq_refl) as [D1 D2]. rewrite D1.
        destruct answer as [st|]; simpl; [right|by left].
        exists st. split; [set_solver|done].
      + destruct (IH (stopPolling q)) as (A & B & C & D & E); [done..|].
        split; [done|]. split; [done|]. split; [set_solver|]. split; [done|].
        destruct E as [E|(st & E1 & E2)]; [by left|right].
        exists st. split; [set_solver|done]. }
  intros Hs. apply (H tr (stopPolling p) eq_refl eq_refl Hs).
Qed.

Lemma poll_stop_final_witness :
  shown (tickEnd (Some {| link := None; delta := ∅ |}) (stopPolling poller0))
  = shown (stopPolling poller0)
  \/ exists st, FetchDone (Some st) ∈ [FetchDone (Some {| link := None; delta := ∅ |})]
                /\ shown (tickEnd (Some {| link := None; delta := ∅ |})
                            (stopPolling poller0))
                   = Some (updateStatsCards st).
Proof.
  apply (poll_stop_final [FetchDone (Some {| link := None; delta := ∅ |})] poller0).
  reflexivity.
Defined.

End PollerMore.

(** ** The second poller *)

Section UiHandlersMore.

Local Open Scope Z_scope.

Lemma totalOf_insert (d : gmap string Z) k v :
  d !! k = None -> totalOf (<[k := v]> d) = totalOf d + v.
Proof.
  intros Hk. unfold totalOf. rewrite map_fold_insert_L; [lia| |done].
  intros. lia.
Qed.

Lemma sumKeys_le_total (d : gmap string Z) keys :
  NoDup keys -> map_Forall (fun _ v => 0 <= v) d ->
  0 <= sumKeys d keys <= totalOf d.
Proof.
  intros Hnd. induction d as [|k v d Hk IH] using map_ind; intros Hall.
  - rewrite sumKeys_missing by (intros; apply lookup_empty). by vm_compute.
  - apply map_Forall_insert in Hall as [Hv Hall]; [|done].
    specialize (IH Hall). rewrite totalOf_insert, sumKeys_insert, Hk by done.
    simpl. destruct (bool_decide (k ∈ keys)); lia.
Qed.

(** X24.  With counters that did not run backwards, the total shown by
    [refreshStats] is at least the CRC figure and at least the drop figure
    it shows, so a card for the total that is "ok" means all three are, and
    the total is "bad" exactly when the CRC card is. *)
Theorem refresh_total_dominates (iface : jsstring) (l : linkJson)
    (delta : gmap string Z) :
  iface <> [] -> map_Forall (fun _ v => 0 <= v) delta ->
  exists r shownCrc,
    refreshStats iface l delta = Some r
    /\ rf_crcDelta r = showZ shownCrc
    /\ 0 <= shownCrc <= totalOf delta
    /\ 0 <= sumKeys delta dropKeys <= totalOf delta
    /\ (rf_errClass r = lit "ok" ->
        rf_crcClass r = lit "ok" /\ rf_dropClass r = lit "ok")
    /\ (rf_errClass r = lit "bad" <-> rf_crcClass r = lit "bad").
Proof.
  intros Hi Hall. unfold refreshStats. rewrite bool_decide_eq_false_2 by done.
  cbv zeta.
  pose proof (sumKeys_le_total delta linuxPhyKeys) as H1.
  pose proof (sumKeys_le_total delta winErrKeys) as H2.
  pose proof (sumKeys_le_total delta dropKeys) as H3.
  destruct H1 as [H1a H1b]; [repeat constructor; set_solver|done|].
  destruct H2 as [H2a H2b]; [repeat constructor; set_solver|done|].
  destruct H3 as [H3a H3b]; [repeat constructor; set_solver|done|].
  eexists _, _. split; [done|]. cbn [rf_crcDelta rf_errClass rf_crcClass rf_dropClass].
  split; [done|].
  set (shown := if 0 <? sumKeys delta linuxPhyKeys
                then sumKeys delta linuxPhyKeys else sumKeys delta winErrKeys).
  assert (Hs : 0 <= shown <= totalOf delta)
    by (unfold shown; destruct (0 <? sumKeys delta linuxPhyKeys); lia).
  split; [done|]. split; [done|].
  destruct (Z.ltb_spec 0 (totalOf delta)); destruct (Z.ltb_spec 0 shown);
    destruct (Z.ltb_spec 0 (sumKeys delta dropKeys)); try lia;
    split; try (intros E; by vm_compute in E); try done.
Qed.

Lemma refresh_total_dominates_witness :
  exists r shownCrc,
    refreshStats (lit "eth0")
      {| lj_speed := lit "1000Mb/s"; lj_duplex := lit "Full";
         lj_link := lit "yes"; lj_status := [] |}
      {["rx_crc_errors"%string := 2; "rx_dropped"%string := 1;
        "rx_packets"%string := 5]} = Some r
    /\ rf_crcDelta r = showZ shownCrc
    /\ 0 <= shownCrc <= totalOf {["rx_crc_errors"%string := 2;
                                  "rx_dropped"%string := 1;
                                  "rx_packets"%string := 5]}.
Proof.
  destruct (refresh_total_dominates (lit "eth0")
      {| lj_speed := lit "1000Mb/s"; lj_duplex := lit "Full";
         lj_link := lit "yes"; lj_status := [] |}
      {["rx_crc_errors"%string := 2; "rx_dropped"%string := 1;
        "rx_packets"%string := 5]})
    as (r & c & H1 & H2 & H3 & _).
  - by vm_compute.
  - repeat (apply map_Forall_insert_2; [lia|]). apply map_Forall_empty.
  - by exists r, c.
Defined.

End UiHandlersMore.

(** ** The subnet mask of a prefix length *)

Section IpSetupMore.

Local Open Scope Z_scope.

Lemma maskOctets_cases (p : Z) :
  0 <= p <= 32 ->
  exists a b c d,
    maskOctets p = Some [a; b; c; d]
    /\ Forall (fun o => o ∈ [0; 128; 192; 224; 240; 248; 252; 254; 255]) [a; b; c; d]
    /\ maskValue [a; b; c; d] = 2 ^ 32 - 2 ^ (32 - p).
Proof.
  intros Hp.
  assert (H : exists n, (n <= 32)%nat /\ p = Z.of_nat n)
    by (exists (Z.to_nat p); lia).
  destruct H as (n & Hn & ->).
  do 33 (destruct n as [|n];
         [eexists _, _, _, _; split; [by vm_compute|];
          split; [repeat constructor; set_solver|by vm_compute]|]).
  lia.
Qed.

(** X25.  [PrefixToMask] throws exactly for a prefix outside 0..32.
    Otherwise it returns four octets joined by dots; each octet is one of
    the nine values a mask can have, together they are the 32-bit number
    whose upper [prefix] bits are set, and different prefixes give different
    masks. *)
Theorem PrefixToMask_mask (p : Z) :
  (PrefixToMask p = None <-> p < 0 \/ 32 < p)
  /\ (0 <= p <= 32 ->
      exists a b c d,
        maskOctets p = Some [a; b; c; d]
        /\ PrefixToMask p
           = Some (showZ a ++ lit "." ++ showZ b ++ lit "." ++ showZ c
                   ++ lit "." ++ showZ d)
        /\ Forall (fun o => o ∈ [0; 128; 192; 224; 240; 248; 252; 254; 255])
             [a; b; c; d]
        /\ maskValue [a; b; c; d] = 2 ^ 32 - 2 ^ (32 - p)
        /\ forall q, 0 <= q <= 32 -> maskOctets q = maskOctets p -> q = p).
Proof.
  split.
  - unfold PrefixToMask, maskOctets.
    destruct (Z.ltb_spec p 0); destruct (Z.ltb_spec 32 p); simpl;
      split; intros; (lia || done || auto).
  - intros Hp. destruct (maskOctets_cases p Hp) as (a & b & c & d & H1 & H2 & H3).
    exists a, b, c, d. split; [done|]. split.
    { unfold PrefixToMask. rewrite H1. simpl. unfold maskText. simpl.
      by rewrite ?app_nil_r, <- ?app_assoc. }
    split; [done|]. split; [done|].
    intros q Hq E. destruct (maskOctets_cases q Hq) as (a' & b' & c' & d' & H1' & _ & H3').
    rewrite H1, H1' in E. simplify_eq. rewrite H3 in H3'.
    assert (E2 : 2 ^ (32 - q) = 2 ^ (32 - p)) by lia.
    apply Z.pow_inj_r in E2; lia.
Qed.

Lemma PrefixToMask_mask_witness :
  exists a b c d,
    maskOctets 20 = Some [a; b; c; d]
    /\ maskValue [a; b; c; d] = 2 ^ 32 - 2 ^ 12.
Proof.
  destruct (PrefixToMask_mask 20) as [_ H].
  destruct H as (a & b & c & d & H1 & _ & _ & H2 & _); [lia|].
  by exists a, b, c, d.
Defined.

End IpSetupMore.
